(** * Zillow address / URL / ZPID scraper: shallow embedding and verification

    The development embeds the extraction engine of the scraper
    (src/URL/ZPID/src/extractors/zillow_parser.py, helpers_cleaning.py and the
    two runner.py drivers) and proves the properties stated about it.

    Conventions of the embedding.
    - A Python [str] is a Rocq [string]; every character is a code point
      below 256, so the character classes below are the restrictions of
      Python's Unicode classes to that range.
    - A Python value of unknown shape ([Any]) is a [pyval].
    - A call that may raise returns a [result]; [Raise e] is the exception
      leaving the call.
    - Library calls whose behaviour the repository does not define
      (json.loads, httpx, BeautifulSoup, repr of floats and strings) are
      Section variables. *)

From Stdlib Require Import Bool Arith ZArith NArith Lia List Ascii String DecimalString.
From Stdlib Require Import SpecFloat.
Import ListNotations.

Local Open Scope string_scope.
Local Open Scope Z_scope.

(* ================================================================= *)
(** * Part I: the embedding *)

(* ================================================================= *)
(** ** Exceptions and fallible calls *)

Inductive exn : Type :=
| ValueError                       (* includes json.JSONDecodeError *)
| TypeError
| OverflowError
| RuntimeError (msg : string)
| FileNotFoundError (msg : string)
| LibraryError (name : string).    (* httpx.TimeoutException, httpx.ConnectError, ... *)

Inductive result (A : Type) : Type :=
| Ok (a : A)
| Raise (e : exn).

Arguments Ok {A} a.
Arguments Raise {A} e.

Definition bind {A B : Type} (r : result A) (k : A -> result B) : result B :=
  match r with
  | Ok a => k a
  | Raise e => Raise e
  end.

Notation "x <- c1 ;; c2" := (bind c1 (fun x => c2))
  (at level 61, c1 at next level, right associativity).

(** [try: ... except (TypeError, ValueError): handler]. *)
Definition catches_type_value (e : exn) : bool :=
  match e with
  | ValueError | TypeError => true
  | _ => false
  end.

Definition try_except_type_value {A : Type} (body : result A) (handler : A) : result A :=
  match body with
  | Ok a => Ok a
  | Raise e => if catches_type_value e then Ok handler else Raise e
  end.

(* ================================================================= *)
(** ** Characters and strings *)

Definition code (c : ascii) : N := N_of_ascii c.

Definition in_range (lo hi : N) (c : ascii) : bool :=
  ((lo <=? code c) && (code c <=? hi))%N.

(** [str.isspace] on one character: also what [str.strip] removes and what
    the regular expression class [\s] matches. *)
Definition is_space (c : ascii) : bool :=
  in_range 9 13 c || in_range 28 32 c || (code c =? 133)%N || (code c =? 160)%N.

(** The regular expression class [\d]: the decimal digits. *)
Definition is_decimal (c : ascii) : bool := in_range 48 57 c.

(** [str.isdigit] on one character: the decimal digits and the superscripts
    two, three and one. *)
Definition is_digit_char (c : ascii) : bool :=
  is_decimal c || (code c =? 178)%N || (code c =? 179)%N || (code c =? 185)%N.

Definition is_ascii_upper (c : ascii) : bool := in_range 65 90 c.
Definition is_ascii_lower (c : ascii) : bool := in_range 97 122 c.

(** The regular expression class [\w]: alphanumeric characters and the
    underscore. *)
Definition is_word (c : ascii) : bool :=
  is_decimal c || is_ascii_upper c || is_ascii_lower c || (code c =? 95)%N
  || (code c =? 170)%N || (code c =? 178)%N || (code c =? 179)%N
  || (code c =? 181)%N || (code c =? 185)%N || (code c =? 186)%N
  || in_range 188 190 c || in_range 192 214 c || in_range 216 246 c
  || in_range 248 255 c.

(** [str.lower] on one character. *)
Definition lower_char (c : ascii) : ascii :=
  if is_ascii_upper c || in_range 192 214 c || in_range 216 222 c
  then ascii_of_N (code c + 32)
  else c.

Fixpoint str_map (f : ascii -> ascii) (s : string) : string :=
  match s with
  | EmptyString => EmptyString
  | String c s' => String (f c) (str_map f s')
  end.

Fixpoint str_forall (p : ascii -> bool) (s : string) : bool :=
  match s with
  | EmptyString => true
  | String c s' => p c && str_forall p s'
  end.

Fixpoint str_filter (p : ascii -> bool) (s : string) : string :=
  match s with
  | EmptyString => EmptyString
  | String c s' => if p c then String c (str_filter p s') else str_filter p s'
  end.

Definition is_empty (s : string) : bool :=
  match s with
  | EmptyString => true
  | String _ _ => false
  end.

(** [s.lower()]. *)
Definition lower (s : string) : string := str_map lower_char s.

(** [s.startswith(p)]. *)
Definition startswith (p s : string) : bool := String.prefix p s.

(** [s.isdigit()]: at least one character, all of them digits. *)
Definition isdigit (s : string) : bool :=
  negb (is_empty s) && str_forall is_digit_char s.

Fixpoint lstrip_by (p : ascii -> bool) (s : string) : string :=
  match s with
  | EmptyString => EmptyString
  | String c s' => if p c then lstrip_by p s' else s
  end.

Fixpoint rstrip_by (p : ascii -> bool) (s : string) : string :=
  match s with
  | EmptyString => EmptyString
  | String c s' =>
      let r := rstrip_by p s' in
      if p c && is_empty r then EmptyString else String c r
  end.

(** [s.strip()]. *)
Definition strip (s : string) : string := rstrip_by is_space (lstrip_by is_space s).

(** [s.rstrip(chars)] for a one-character [chars]. *)
Definition rstrip_char (c : ascii) (s : string) : string := rstrip_by (Ascii.eqb c) s.

(** [s.replace(old, new)] for one-character [old] and [new]. *)
Definition replace_char (old new : ascii) (s : string) : string :=
  str_map (fun c => if Ascii.eqb c old then new else c) s.

(** [s.find(sub)]: the lowest index where [sub] occurs, or -1. *)
Fixpoint find (sub s : string) : Z :=
  if startswith sub s then 0
  else match s with
       | EmptyString => -1
       | String _ s' => let k := find sub s' in if k <? 0 then -1 else k + 1
       end.

(** [s.rfind(sub)]: the highest index where [sub] occurs, or -1. *)
Fixpoint rfind (sub s : string) : Z :=
  match s with
  | EmptyString => if startswith sub s then 0 else -1
  | String _ s' =>
      let k := rfind sub s' in
      if 0 <=? k then k + 1
      else if startswith sub s then 0 else -1
  end.

(** [sub in s]. *)
Definition contains (sub s : string) : bool := 0 <=? find sub s.

(** [s[lo:hi]] for indices that are not negative. *)
Definition slice (s : string) (lo hi : Z) : string :=
  String.substring (Z.to_nat lo) (Z.to_nat (hi - lo)) s.

(* ================================================================= *)
(** ** Input classification and URL resolution (zillow_parser.py) *)

Record InputRecord : Type := mkInputRecord {
  raw : string;
  kind : string;      (* "address", "zpid" or "url" *)
  value : string
}.

Definition classify_input (raw : string) : result InputRecord :=
  let cleaned := strip raw in
  if is_empty cleaned then Raise ValueError
  else
    let kind :=
      if startswith "http://" (lower cleaned) || startswith "https://" (lower cleaned)
      then "url"
      else if isdigit cleaned then "zpid"
      else "address" in
    Ok (mkInputRecord raw kind cleaned).

(** [ZillowClient.__init__] keeps the base URL without trailing slashes. *)
Definition client_base_url (base_url : string) : string := rstrip_char "/" base_url.

(** [ZillowClient._build_url_for_record], with [base_url] the client's
    [self.base_url]. *)
Definition _build_url_for_record (base_url : string) (record : InputRecord) : string :=
  if String.eqb (kind record) "url" then value record
  else if String.eqb (kind record) "zpid"
  then base_url ++ "/homedetails/" ++ value record ++ "_zpid/"
  else base_url ++ "/homes/" ++ replace_char " " "-" (value record) ++ "_rb/".

(* ================================================================= *)
(** ** Python floats

    A float is an IEEE 754 binary64 value, in the Standard Library's
    [spec_float] representation: [S754_finite s m e] is (-1)^s * m * 2^e. *)

Definition prec : Z := 53.
Definition emax : Z := 1024.

Definition is_finite (f : spec_float) : bool :=
  match f with
  | S754_zero _ | S754_finite _ _ _ => true
  | _ => false
  end.

(** [float(n)] for an int: the nearest float, or OverflowError. *)
Definition float_of_Z (n : Z) : result spec_float :=
  match binary_normalize prec emax n 0 false with
  | S754_infinity _ => Raise OverflowError
  | f => Ok f
  end.

(** The float nearest to (-1)^neg * m * 10^e10, for m >= 0; a magnitude
    that is too large gives an infinity. *)
Definition float_of_decimal (neg : bool) (m e10 : Z) : spec_float :=
  match m with
  | Zpos p =>
      if 0 <=? e10 then binary_round prec emax neg (Pos.mul p (Z.to_pos (10 ^ e10))) 0
      else
        let '(q, e', l) := SFdiv_core_binary prec emax m 0 (10 ^ (- e10)) 0 in
        binary_round_aux prec emax neg q e' l
  | _ => S754_zero neg
  end.

(** [int(f)] for a float: truncation toward zero. *)
Definition float_trunc (f : spec_float) : result Z :=
  match f with
  | S754_zero _ => Ok 0
  | S754_infinity _ => Raise OverflowError
  | S754_nan => Raise ValueError
  | S754_finite s m e =>
      let a := if 0 <=? e then Zpos m * 2 ^ e else Zpos m / 2 ^ (- e) in
      Ok (if s then - a else a)
  end.

(** The integer nearest to m / 2^k, a tie going to the even one. *)
Definition div_half_even (m k : Z) : Z :=
  let q := m / 2 ^ k in
  match 2 * (m mod 2 ^ k) ?= 2 ^ k with
  | Lt => q
  | Gt => q + 1
  | Eq => if Z.even q then q else q + 1
  end.

(** [round(f)] for a float. *)
Definition float_round (f : spec_float) : result Z :=
  match f with
  | S754_zero _ => Ok 0
  | S754_infinity _ => Raise OverflowError
  | S754_nan => Raise ValueError
  | S754_finite s m e =>
      let a := if 0 <=? e then Zpos m * 2 ^ e else div_half_even (Zpos m) (- e) in
      Ok (if s then - a else a)
  end.

(* ================================================================= *)
(** ** Python values *)

#[warnings="-register-all"]
Inductive pyval : Type :=
| PNone
| PBool (b : bool)
| PInt (z : Z)
| PFloat (f : spec_float)
| PStr (s : string)
| PList (items : list pyval)
| PDict (entries : list (string * pyval)).   (* in insertion order *)

Definition pydict : Type := list (string * pyval).

(** [bool(v)]. *)
Definition truthy (v : pyval) : bool :=
  match v with
  | PNone => false
  | PBool b => b
  | PInt z => negb (z =? 0)
  | PFloat (S754_zero _) => false
  | PFloat _ => true
  | PStr s => negb (is_empty s)
  | PList l => match l with [] => false | _ => true end
  | PDict d => match d with [] => false | _ => true end
  end.

(** [a or b]. *)
Definition py_or (a b : pyval) : pyval := if truthy a then a else b.

Definition is_none (v : pyval) : bool :=
  match v with
  | PNone => true
  | _ => false
  end.

Fixpoint lookup (k : string) (d : pydict) : option pyval :=
  match d with
  | [] => None
  | (k', v) :: d' => if String.eqb k k' then Some v else lookup k d'
  end.

(** [k in d]. *)
Definition has_key (k : string) (d : pydict) : bool :=
  match lookup k d with
  | Some _ => true
  | None => false
  end.

(** [d.get(k)]. *)
Definition dict_get (d : pydict) (k : string) : pyval :=
  match lookup k d with
  | Some v => v
  | None => PNone
  end.

(** [d[k] = v]: a present key keeps its position. *)
Fixpoint dict_set (k : string) (v : pyval) (d : pydict) : pydict :=
  match d with
  | [] => [(k, v)]
  | (k', v') :: d' => if String.eqb k k' then (k, v) :: d' else (k', v') :: dict_set k v d'
  end.

(* ----------------------------------------------------------------- *)
(** *** Numeric literals in text *)

(** The white space that [int] and [float] ignore around a literal. *)
Definition is_numeric_space (c : ascii) : bool :=
  in_range 9 13 c || (code c =? 32)%N || (code c =? 133)%N || (code c =? 160)%N.

Definition digit_value (c : ascii) : Z := Z.of_N (code c) - 48.

(** Reads a maximal run of decimal digits in which single underscores may
    separate digits; returns the digits read (without the underscores) and
    the rest of the text. The run is empty when the text does not start
    with a digit. *)
Fixpoint read_digits (s : string) : string * string :=
  match s with
  | String c s' =>
      if is_decimal c then
        match s' with
        | String u (String d _ as s'') =>
            if Ascii.eqb u "_" && is_decimal d
            then let '(ds, rest) := read_digits s'' in (String c ds, rest)
            else let '(ds, rest) := read_digits s' in (String c ds, rest)
        | _ => let '(ds, rest) := read_digits s' in (String c ds, rest)
        end
      else (EmptyString, s)
  | EmptyString => (EmptyString, s)
  end.

Fixpoint digits_value_from (acc : Z) (ds : string) : Z :=
  match ds with
  | EmptyString => acc
  | String c ds' => digits_value_from (10 * acc + digit_value c) ds'
  end.

Definition digits_value (ds : string) : Z := digits_value_from 0 ds.

(** Splits an optional sign off a literal: [true] for a minus sign. *)
Definition read_sign (s : string) : bool * string :=
  match s with
  | String c s' =>
      if Ascii.eqb c "-" then (true, s')
      else if Ascii.eqb c "+" then (false, s')
      else (false, s)
  | EmptyString => (false, s)
  end.

Definition strip_numeric (s : string) : string :=
  rstrip_by is_numeric_space (lstrip_by is_numeric_space s).

(** [sys.get_int_max_str_digits()]: the interpreter's default limit on the
    number of digits of a decimal literal that [int] converts. *)
Definition int_max_str_digits : nat := 4300.

(** [int(s)] for a string, in base ten: a literal of more digits than the
    limit (sign, underscores and surrounding white space not counted)
    raises ValueError like a text that is no literal. *)
Definition int_of_string (s : string) : result Z :=
  let '(neg, body) := read_sign (strip_numeric s) in
  let '(ds, rest) := read_digits body in
  if negb (is_empty ds) && is_empty rest
  then
    if (String.length ds <=? int_max_str_digits)%nat
    then Ok (if neg then - digits_value ds else digits_value ds)
    else Raise ValueError
  else Raise ValueError.

(** [float(s)] for a string: a decimal literal with optional fraction and
    exponent, or one of inf, infinity and nan in any letter case. *)
Definition float_of_string (s : string) : result spec_float :=
  let '(neg, body) := read_sign (strip_numeric s) in
  let word := lower body in
  if String.eqb word "inf" || String.eqb word "infinity" then Ok (S754_infinity neg)
  else if String.eqb word "nan" then Ok S754_nan
  else
    let '(ip, r1) := read_digits body in
    let '(fp, r2) :=
      match r1 with
      | String "." r => read_digits r
      | _ => (EmptyString, r1)
      end in
    if is_empty ip && is_empty fp then Raise ValueError
    else
      let mant := digits_value (ip ++ fp) in
      let scale := - Z.of_nat (String.length fp) in
      match r2 with
      | EmptyString => Ok (float_of_decimal neg mant scale)
      | String e r3 =>
          if Ascii.eqb (lower_char e) "e" then
            let '(eneg, r4) := read_sign r3 in
            let '(ed, r5) := read_digits r4 in
            if negb (is_empty ed) && is_empty r5
            then Ok (float_of_decimal neg mant
                       (scale + (if eneg then - digits_value ed else digits_value ed)))
            else Raise ValueError
          else Raise ValueError
      end.

(* ----------------------------------------------------------------- *)
(** *** Conversions: [int], [float], [str] *)

(** [int(v)]. *)
Definition py_int (v : pyval) : result Z :=
  match v with
  | PBool b => Ok (if b then 1 else 0)
  | PInt z => Ok z
  | PFloat f => float_trunc f
  | PStr s => int_of_string s
  | PNone | PList _ | PDict _ => Raise TypeError
  end.

(** [float(v)]. *)
Definition py_float (v : pyval) : result spec_float :=
  match v with
  | PBool b => float_of_Z (if b then 1 else 0)
  | PInt z => float_of_Z z
  | PFloat f => Ok f
  | PStr s => float_of_string s
  | PNone | PList _ | PDict _ => Raise TypeError
  end.

Definition string_of_Z (z : Z) : string := NilZero.string_of_int (Z.to_int z).

Fixpoint join (sep : string) (l : list string) : string :=
  match l with
  | [] => EmptyString
  | [s] => s
  | s :: l' => s ++ sep ++ join sep l'
  end.

Section Repr.

(** [repr] of a float and of a string are the interpreter's. *)
Variable float_repr : spec_float -> string.
Variable str_repr : string -> string.

(** [repr(v)], for a value whose ints have at most 4300 digits: on a
    longer int the interpreter raises ValueError instead of writing it,
    which the statements about text exclude by assuming printable
    values. *)
Fixpoint py_repr (v : pyval) : string :=
  match v with
  | PNone => "None"
  | PBool b => if b then "True" else "False"
  | PInt z => string_of_Z z
  | PFloat f => float_repr f
  | PStr s => str_repr s
  | PList items => "[" ++ join ", " (map py_repr items) ++ "]"
  | PDict entries =>
      "{" ++ join ", " (map (fun kv => str_repr (fst kv) ++ ": " ++ py_repr (snd kv)) entries)
          ++ "}"
  end.

(** [str(v)]. *)
Definition py_str (v : pyval) : string :=
  match v with
  | PStr s => s
  | _ => py_repr v
  end.

End Repr.

(* ================================================================= *)
(** ** Records of zillow_parser.py *)

Record PriceEvent : Type := mkPriceEvent {
  date : string;
  event : string;
  price : pyval          (* an int or None *)
}.

(** [PropertyData]: the dataclass does not check its annotations, so every
    field that is filled from page data holds whatever value was found.
    The price history is a list of events or None, the default of the
    field; both parsers pass a list. *)
Record PropertyData : Type := mkPropertyData {
  address : pyval;
  zpid : string;
  url : string;
  zestimate : pyval;
  bedrooms : pyval;
  bathrooms : pyval;
  livingArea : pyval;
  lotSize : pyval;
  yearBuilt : pyval;
  propertyType : pyval;
  priceHistory : option (list PriceEvent)
}.

(** [_to_int_safe]. *)
Definition _to_int_safe (value : pyval) : result pyval :=
  if is_none value then Ok PNone
  else try_except_type_value (n <- py_int value ;; Ok (PInt n)) PNone.

(** [_to_float_safe]. *)
Definition _to_float_safe (value : pyval) : result pyval :=
  if is_none value then Ok PNone
  else try_except_type_value (f <- py_float value ;; Ok (PFloat f)) PNone.

(* ================================================================= *)
(** ** Structured-data extraction (zillow_parser.py) *)

(** The inner function [walk] of [_parse_from_json_blob]. *)
Fixpoint walk (obj : pyval) : option pydict :=
  match obj with
  | PDict entries =>
      if has_key "zpid" entries && has_key "zestimate" entries then Some entries
      else
        (fix walk_values (l : pydict) : option pydict :=
           match l with
           | [] => None
           | kv :: l' =>
               match walk (snd kv) with
               | Some found => Some found
               | None => walk_values l'
               end
           end) entries
  | PList items =>
      (fix walk_items (l : list pyval) : option pydict :=
         match l with
         | [] => None
         | item :: l' =>
             match walk item with
             | Some found => Some found
             | None => walk_items l'
             end
         end) items
  | _ => None
  end.

Section StructuredData.

Variable float_repr : spec_float -> string.
Variable str_repr : string -> string.

(** [json.loads]. *)
Variable json_loads : string -> result pyval.

Local Abbreviation py_str := (py_str float_repr str_repr).

(** [_extract_relevant_json], on the [.string] of every script element of
    the page in document order ([None] for an element without a single
    text child). *)
Fixpoint _extract_relevant_json (scripts : list (option string)) : option pyval :=
  match scripts with
  | [] => None
  | script :: rest =>
      let text := match script with Some t => t | None => EmptyString end in
      if contains "zestimate" text && contains "zpid" text then
        let start := find "{" text in
        let end_ := rfind "}" text in
        if negb (start =? -1) && negb (end_ =? -1) && (start <? end_) then
          match json_loads (slice text start (end_ + 1)) with
          | Ok data => Some data
          | Raise _ => _extract_relevant_json rest
          end
        else _extract_relevant_json rest
      else _extract_relevant_json rest
  end.

(** The price events read from the payload's [priceHistory]. *)
Fixpoint price_events (items : list pyval) : result (list PriceEvent) :=
  match items with
  | [] => Ok []
  | PDict item :: rest =>
      let date := py_str (py_or (py_or (dict_get item "date") (dict_get item "eventDate"))
                                (PStr "")) in
      let event := py_str (py_or (py_or (dict_get item "event")
                                        (dict_get item "priceChangeEvent"))
                                 (PStr "")) in
      price_val_int <- _to_int_safe (dict_get item "price") ;;
      tail <- price_events rest ;;
      if negb (is_empty date) || negb (is_empty event) || negb (is_none price_val_int)
      then Ok (mkPriceEvent date event price_val_int :: tail)
      else Ok tail
  | _ :: rest => price_events rest
  end.

(** [_parse_from_json_blob]. *)
Definition _parse_from_json_blob (data : pyval) (record : InputRecord) (url : string)
  : result PropertyData :=
  let payload := match walk data with Some p => p | None => [] end in
  let address :=
    py_or (py_or (py_or (dict_get payload "address") (dict_get payload "streetAddress"))
                 (dict_get payload "formattedAddress"))
          (PStr (value record)) in
  let zpid := py_str (py_or (dict_get payload "zpid") (PStr "")) in
  let zestimate_raw := py_or (dict_get payload "zestimate") (dict_get payload "price") in
  zestimate <- _to_int_safe zestimate_raw ;;
  let bedrooms := dict_get payload "bedrooms" in
  let bathrooms := dict_get payload "bathrooms" in
  let living_area := py_or (dict_get payload "livingArea") (dict_get payload "livingAreaValue") in
  let lot_size := py_or (dict_get payload "lotSize") (dict_get payload "lotSizeValue") in
  let year_built := dict_get payload "yearBuilt" in
  let property_type := py_or (dict_get payload "homeType") (dict_get payload "propertyType") in
  let price_history_raw := py_or (dict_get payload "priceHistory") (PList []) in
  price_history <-
    match price_history_raw with
    | PList items => price_events items
    | _ => Ok []
    end ;;
  bedrooms' <- _to_float_safe bedrooms ;;
  bathrooms' <- _to_float_safe bathrooms ;;
  living_area' <- _to_int_safe living_area ;;
  lot_size' <- _to_int_safe lot_size ;;
  year_built' <- _to_int_safe year_built ;;
  Ok (mkPropertyData address zpid url zestimate bedrooms' bathrooms' living_area'
        lot_size' year_built' property_type (Some price_history)).

End StructuredData.

(* ================================================================= *)
(** ** Regular expressions

    The fragment of Python's [re] that the scraper's patterns use, with the
    engine's backtracking order: alternatives left to right, repetition
    greedy, and [re.search] trying every start position from the left. *)

Inductive regex : Type :=
| RChar (p : ascii -> bool)       (* one character of a class *)
| REps
| RSeq (a b : regex)
| RAlt (a b : regex)
| RStar (a : regex)
| RGroup (n : nat) (a : regex)    (* capturing group number n *)
| RWordB.                         (* \b *)

Definition RPlus (a : regex) : regex := RSeq a (RStar a).
Definition ROpt (a : regex) : regex := RAlt a REps.

Fixpoint RRep (n : nat) (a : regex) : regex :=
  match n with
  | O => REps
  | S n' => RSeq a (RRep n' a)
  end.

(** A literal, and a literal under [re.IGNORECASE]. *)
Fixpoint RLit (s : string) : regex :=
  match s with
  | EmptyString => REps
  | String c s' => RSeq (RChar (Ascii.eqb c)) (RLit s')
  end.

Definition eq_nocase (c d : ascii) : bool := Ascii.eqb (lower_char c) (lower_char d).

Fixpoint RLitI (s : string) : regex :=
  match s with
  | EmptyString => REps
  | String c s' => RSeq (RChar (eq_nocase c)) (RLitI s')
  end.

(** A position in the subject text: the character before it, the text from
    it on, its index, and the groups captured so far. *)
Record mstate : Type := mkMstate {
  m_prev : option ascii;
  m_rest : string;
  m_pos : nat;
  m_caps : list (nat * (nat * nat))
}.

Definition opt_word (c : option ascii) : bool :=
  match c with
  | Some c => is_word c
  | None => false
  end.

Definition next_char (s : string) : option ascii :=
  match s with
  | String c _ => Some c
  | EmptyString => None
  end.

Definition at_word_boundary (st : mstate) : bool :=
  xorb (opt_word (m_prev st)) (opt_word (next_char (m_rest st))).

Definition set_cap (n start : nat) (st : mstate) : mstate :=
  mkMstate (m_prev st) (m_rest st) (m_pos st) ((n, (start, m_pos st)) :: m_caps st).

Definition or_else {A : Type} (a b : option A) : option A :=
  match a with
  | Some x => Some x
  | None => b
  end.

(** The greedy loop of a repetition: [body] matches the repeated
    expression once, [k] is what follows the repetition. An iteration that
    consumes nothing ends the loop, and every other one consumes a
    character, so the length of the text left is enough [fuel]. *)
Fixpoint star_loop (body : mstate -> (mstate -> option mstate) -> option mstate)
  (k : mstate -> option mstate) (fuel : nat) (st : mstate) : option mstate :=
  match fuel with
  | O => k st
  | S fuel' =>
      or_else
        (body st (fun st' => if (m_pos st <? m_pos st')%nat
                             then star_loop body k fuel' st' else None))
        (k st)
  end.

(** [rmatch r st k]: the first way, in backtracking order, to match [r] at
    [st] such that the continuation [k] accepts the position reached. *)
Fixpoint rmatch (r : regex) (st : mstate) (k : mstate -> option mstate) : option mstate :=
  match r with
  | RChar p =>
      match m_rest st with
      | String c s' =>
          if p c then k (mkMstate (Some c) s' (S (m_pos st)) (m_caps st)) else None
      | EmptyString => None
      end
  | REps => k st
  | RSeq a b => rmatch a st (fun st' => rmatch b st' k)
  | RAlt a b => or_else (rmatch a st k) (rmatch b st k)
  | RStar a => star_loop (rmatch a) k (String.length (m_rest st)) st
  | RGroup n a => rmatch a st (fun st' => k (set_cap n (m_pos st) st'))
  | RWordB => if at_word_boundary st then k st else None
  end.

(** A successful match: where it starts, where it ends, its groups. *)
Record rematch : Type := mkRematch {
  start_ : nat;
  end_ : nat;
  groups : list (nat * (nat * nat))
}.

Fixpoint search_from (r : regex) (prev : option ascii) (s : string) (pos : nat)
  : option rematch :=
  match rmatch r (mkMstate prev s pos []) Some with
  | Some st => Some (mkRematch pos (m_pos st) (m_caps st))
  | None =>
      match s with
      | EmptyString => None
      | String c s' => search_from r (Some c) s' (S pos)
      end
  end.

(** [re.search(r, text)]. *)
Definition re_search (r : regex) (text : string) : option rematch :=
  search_from r None text O.

Fixpoint cap_lookup (n : nat) (caps : list (nat * (nat * nat))) : option (nat * nat) :=
  match caps with
  | [] => None
  | (n', span) :: caps' => if Nat.eqb n n' then Some span else cap_lookup n caps'
  end.

(** [m.group(n)] for a group that took part in the match. *)
Definition group (text : string) (m : rematch) (n : nat) : string :=
  match cap_lookup n (groups m) with
  | Some (i, j) => String.substring i (j - i) text
  | None => EmptyString
  end.

(** [re.sub(r"\s+", sep, s)]: every maximal run of white space becomes
    [sep]; [in_run] tells that the previous character was white space. *)
Fixpoint sub_space_runs_from (in_run : bool) (sep : string) (s : string) : string :=
  match s with
  | EmptyString => EmptyString
  | String c s' =>
      if is_space c then
        if in_run then sub_space_runs_from true sep s'
        else sep ++ sub_space_runs_from true sep s'
      else String c (sub_space_runs_from false sep s')
  end.

Definition sub_space_runs (sep s : string) : string := sub_space_runs_from false sep s.

(* ================================================================= *)
(** ** Heuristic extraction from page text (zillow_parser.py) *)

(** What the parsed page ([BeautifulSoup]) answers to the queries the
    scraper makes. *)
Record Soup : Type := mkSoup {
  (** [.string] of each element of [find_all("script")], in document order *)
  script_strings : list (option string);
  (** [find("meta", property="og:title")]: [None] without such an element,
      else its [content] attribute if it has one *)
  og_title_content : option (option string);
  (** [find("h1")]: [None] without such an element, else its
      [get_text(strip=True)] *)
  h1_text : option string;
  (** [get_text(" ", strip=True)] *)
  page_text : string
}.

Definition digit_class : regex := RChar is_decimal.
Definition space_class : regex := RChar is_space.
Definition one_of (chars : string) : regex :=
  RChar (fun c => negb (str_forall (fun d => negb (Ascii.eqb c d)) chars)).

(** [(\d+(\.\d+)?)\s*SUFFIX\b] under [re.IGNORECASE]. *)
Definition numeric_feature_pattern (suffix : string) : regex :=
  RSeq (RGroup 1 (RSeq (RPlus digit_class)
                       (ROpt (RGroup 2 (RSeq (RChar (Ascii.eqb ".")) (RPlus digit_class))))))
       (RSeq (RStar space_class) (RSeq (RLitI suffix) RWordB)).

(** [_extract_numeric_feature]. Its two handlers catch ValueError, the
    only exception [float] and [int] raise on a string. *)
Definition _extract_numeric_feature (text suffix : string) : pyval :=
  match re_search (numeric_feature_pattern suffix) text with
  | None => PNone
  | Some m =>
      let raw := group text m 1 in
      if contains "." raw then
        match float_of_string raw with
        | Ok f => PFloat f
        | Raise _ => PNone
        end
      else
        match int_of_string raw with
        | Ok n => PInt n
        | Raise _ => PNone
        end
  end.

(** [LABEL[^0-9]*([\$]?\s*([\d,]+))] under [re.IGNORECASE]. *)
Definition label_pattern (label : string) : regex :=
  RSeq (RLitI label)
       (RSeq (RStar (RChar (fun c => negb (is_decimal c))))
             (RGroup 1 (RSeq (ROpt (RChar (Ascii.eqb "$")))
                             (RSeq (RStar space_class)
                                   (RGroup 2 (RPlus (RChar (fun c => is_decimal c
                                                                     || Ascii.eqb c ",")))))))).

(** [_extract_first_int_after_label]. *)
Definition _extract_first_int_after_label (text label : string) : pyval :=
  match re_search (label_pattern label) text with
  | None => PNone
  | Some m =>
      let number_str := str_filter (fun c => negb (Ascii.eqb c ",")) (group text m 2) in
      match int_of_string number_str with
      | Ok n => PInt n
      | Raise _ => PNone
      end
  end.

(** [\b(19[5-9]\d|20[0-4]\d)\b]. *)
Definition year_pattern : regex :=
  RSeq RWordB
       (RSeq (RGroup 1 (RAlt (RSeq (RLit "19") (RSeq (RChar (in_range 53 57)) digit_class))
                             (RSeq (RLit "20") (RSeq (RChar (in_range 48 52)) digit_class))))
             RWordB).

(** [_extract_year]. *)
Definition _extract_year (text : string) : pyval :=
  match re_search year_pattern text with
  | None => PNone
  | Some m =>
      match int_of_string (group text m 1) with
      | Ok n => PInt n
      | Raise _ => PNone
      end
  end.

(** [_extract_property_type]. *)
Definition _extract_property_type (text : string) : pyval :=
  let mentions candidate := contains (lower candidate) (lower text) in
  if mentions "Single Family" then PStr "Single Family"
  else if mentions "Condo" then PStr "Condo"
  else if mentions "Townhouse" then PStr "Townhouse"
  else if mentions "Multi Family" then PStr "Multi Family"
  else if mentions "Apartment" then PStr "Apartment"
  else PNone.

(** [\d{5}(?:-\d{4})?\s*(?:USA|United States)?]. *)
Definition postal_code_pattern : regex :=
  RSeq (RRep 5 digit_class)
       (RSeq (ROpt (RSeq (RLit "-") (RRep 4 digit_class)))
             (RSeq (RStar space_class)
                   (ROpt (RAlt (RLit "USA") (RLit "United States"))))).

(** [_extract_address_from_html]. *)
Definition _extract_address_from_html (soup : Soup) (text : string) : option string :=
  let from_postal_code :=
    match re_search postal_code_pattern text with
    | Some m =>
        let start_index := (start_ m - 80)%nat in      (* max(0, m.start() - 80) *)
        Some (strip (String.substring start_index (end_ m - start_index) text))
    | None => None
    end in
  let from_h1 :=
    match h1_text soup with
    | Some heading => if negb (is_empty heading) then Some heading else from_postal_code
    | None => from_postal_code
    end in
  match og_title_content soup with
  | Some (Some content) => if negb (is_empty content) then Some content else from_h1
  | _ => from_h1
  end.

(** [zpid["']?\s*[:=]\s*["']?(\d+)] under [re.IGNORECASE]. *)
Definition zpid_pattern : regex :=
  let quote := ROpt (RChar (fun c => (code c =? 34)%N || (code c =? 39)%N)) in
  RSeq (RLitI "zpid")
       (RSeq quote
             (RSeq (RStar space_class)
                   (RSeq (one_of ":=")
                         (RSeq (RStar space_class)
                               (RSeq quote (RGroup 1 (RPlus digit_class))))))).

(** [_parse_from_html]. *)
Definition _parse_from_html (soup : Soup) (record : InputRecord) (url : string)
  : PropertyData :=
  let text := page_text soup in
  let address :=
    match _extract_address_from_html soup text with
    | Some a => if negb (is_empty a) then a else value record
    | None => value record
    end in
  let zpid :=
    match re_search zpid_pattern text with
    | Some zpid_match => group text zpid_match 1
    | None => EmptyString
    end in
  let zestimate := _extract_first_int_after_label text "Zestimate" in
  let bedrooms := _extract_numeric_feature text "bd" in
  let bathrooms := _extract_numeric_feature text "ba" in
  let living_area := _extract_numeric_feature text "sqft" in
  let lot_size := PNone in
  let year_built := _extract_year text in
  let property_type := _extract_property_type text in
  mkPropertyData (PStr address) zpid url zestimate bedrooms bathrooms living_area
    lot_size year_built property_type (Some []).

(* ================================================================= *)
(** ** Fetching one record and running a batch *)

(** What the scraper reads of an [httpx.Response]. *)
Record Response : Type := mkResponse {
  status_code : Z;
  text : string
}.

(** A line written by the [logging] module. *)
Inductive log_entry : Type :=
| LogProcessing (idx total : nat) (value kind : string)   (* logging.info, runner.py *)
| LogFetchFailed (raw : string) (exc : exn)               (* logging.error, runner.py *)
| LogResolveFailed (raw_value : string) (processed total : nat) (exc : exn)
                                                          (* logging.exception, src/runner.py *)
| LogSkipped (line_number : nat) (raw : string) (exc : exn)
                                                          (* logger.warning, formatting_utils.py *)
| LogLoaded (count : nat).                                (* logger.info, formatting_utils.py *)

Section Client.

Variable float_repr : spec_float -> string.
Variable str_repr : string -> string.
Variable json_loads : string -> result pyval.

(** The network, as far as the client sees it: [world] is its state, and
    [client_get url] is [self._client.get(url)], which follows redirects
    and raises on a timeout or a connection failure. *)
Variable world : Type.
Variable client_get : string -> world -> result Response * world.

(** [BeautifulSoup(html, "html.parser")]. *)
Variable BeautifulSoup : string -> Soup.

(** [ZillowClient.fetch_property], with [base_url] the client's
    [self.base_url]. *)
Definition fetch_property (base_url : string) (record : InputRecord) (w : world)
  : result PropertyData * world :=
  let url := _build_url_for_record base_url record in
  match client_get url w with
  | (Raise e, w') => (Raise e, w')
  | (Ok response, w') =>
      if negb (status_code response =? 200) then
        (Raise (RuntimeError ("Zillow responded with status "
                              ++ string_of_Z (status_code response)
                              ++ " for URL " ++ url)), w')
      else
        let html := text response in
        let soup := BeautifulSoup html in
        match _extract_relevant_json json_loads (script_strings soup) with
        | Some json_blob =>
            if truthy json_blob
            then (_parse_from_json_blob float_repr str_repr json_blob record url, w')
            else (Ok (_parse_from_html soup record url), w')
        | None => (Ok (_parse_from_html soup record url), w')
        end
  end.

End Client.

Section Batch.

Variable world : Type.

(** [client.fetch_property]. *)
Variable client_fetch_property : InputRecord -> world -> result PropertyData * world.

(** The loop of [process_records], from the record numbered [idx]:
    results and log lines are returned in the order they are appended. *)
Fixpoint process_records_from (idx total : nat) (records : list InputRecord) (w : world)
  : list PropertyData * list log_entry * world :=
  match records with
  | [] => ([], [], w)
  | record :: rest =>
      let entry := LogProcessing idx total (value record) (kind record) in
      match client_fetch_property record w with
      | (Ok property_data, w') =>
          let '(results, log, w'') := process_records_from (S idx) total rest w' in
          (property_data :: results, entry :: log, w'')
      | (Raise exc, w') =>
          let '(results, log, w'') := process_records_from (S idx) total rest w' in
          (results, entry :: LogFetchFailed (raw record) exc :: log, w'')
      end
  end.

(** [process_records] (src/URL/ZPID/src/runner.py). *)
Definition process_records (records : list InputRecord) (w : world)
  : list PropertyData * list log_entry * world :=
  process_records_from 1 (List.length records) records w.

End Batch.

(* ================================================================= *)
(** ** Loading the inputs (formatting_utils.py) *)

(** The loop of [load_inputs_from_file] over the lines of the file, from
    the line numbered [line_number]. *)
Fixpoint load_lines (line_number : nat) (lines : list string)
  : list InputRecord * list log_entry :=
  match lines with
  | [] => ([], [])
  | line :: rest =>
      let raw := strip line in
      let '(records, log) := load_lines (S line_number) rest in
      if is_empty raw || startswith "#" raw then (records, log)
      else
        match classify_input raw with
        | Ok record => (record :: records, log)
        | Raise exc => (records, LogSkipped line_number raw exc :: log)
        end
  end.

(** [load_inputs_from_file]: [file] is the lines of the file at the path,
    and [None] when there is no such file; [path] is the path as text. *)
Definition load_inputs_from_file (path : string) (file : option (list string))
  : result (list InputRecord * list log_entry) :=
  match file with
  | None => Raise (FileNotFoundError ("Input file not found: " ++ path))
  | Some lines =>
      let '(records, log) := load_lines 1 lines in
      Ok (records, (log ++ [LogLoaded (List.length records)])%list)
  end.

(* ================================================================= *)
(** ** Cleaning helpers (helpers_cleaning.py) *)

(** [clean_text] on a string. *)
Definition clean_text (value : string) : string :=
  sub_space_runs " " (strip value).

Section Cleaning.

Variable float_repr : spec_float -> string.
Variable str_repr : string -> string.

Local Abbreviation py_str := (py_str float_repr str_repr).

(** [parse_int]. *)
Definition parse_int (value : pyval) : result pyval :=
  if is_none value then Ok PNone
  else
    try_except_type_value
      (match value with
       | PBool _ | PInt _ => n <- py_int value ;; Ok (PInt n)
       | PFloat f => n <- float_round f ;; Ok (PInt n)
       | _ =>
           let text := py_str value in
           let digits := str_filter (fun c => is_decimal c || Ascii.eqb c "-") text in
           if is_empty digits then Ok PNone
           else n <- int_of_string digits ;; Ok (PInt n)
       end)
      PNone.

(** [parse_float]. *)
Definition parse_float (value : pyval) : result pyval :=
  if is_none value then Ok PNone
  else
    try_except_type_value
      (match value with
       | PBool _ | PInt _ | PFloat _ => f <- py_float value ;; Ok (PFloat f)
       | _ =>
           let text := py_str value in
           let cleaned :=
             str_filter (fun c => is_decimal c || Ascii.eqb c "." || Ascii.eqb c "-") text in
           if is_empty cleaned then Ok PNone
           else f <- float_of_string cleaned ;; Ok (PFloat f)
       end)
      PNone.

(** [clean_text(str(value or ""))] followed by [text or None]. *)
Definition clean_field (value : pyval) : pyval :=
  let text := clean_text (py_str (py_or value (PStr ""))) in
  if is_empty text then PNone else PStr text.

Definition fields : list string :=
  ["address"; "zpid"; "url"; "zestimate"; "rentZestimate"; "bedrooms"; "bathrooms";
   "livingArea"; "lotSize"; "homeType"; "yearBuilt"; "price"; "status"].

Definition one_of_fields (names : list string) (field : string) : bool :=
  existsb (String.eqb field) names.

(** The body of the loop over [fields] in [normalize_property_record]. *)
Definition normalize_field (raw : pydict) (field : string) : result pyval :=
  let value := dict_get raw field in
  if one_of_fields ["bedrooms"; "bathrooms"] field then parse_float value
  else if one_of_fields ["livingArea"; "lotSize"; "yearBuilt"; "price"] field
  then parse_int value
  else if one_of_fields ["zestimate"; "rentZestimate"] field then parse_float value
  else if String.eqb field "homeType" || String.eqb field "status" then Ok (clean_field value)
  else if one_of_fields ["address"; "url"] field then Ok (clean_field value)
  else if String.eqb field "zpid" then Ok (clean_field value)
  else Ok value.

Fixpoint normalize_fields (raw : pydict) (names : list string) (normalized : pydict)
  : result pydict :=
  match names with
  | [] => Ok normalized
  | field :: rest =>
      v <- normalize_field raw field ;;
      normalize_fields raw rest (dict_set field v normalized)
  end.

(** [normalize_property_record]. *)
Definition normalize_property_record (raw : pydict) (source fallback_url : option string)
  : result pydict :=
  normalized <- normalize_fields raw fields [] ;;
  let normalized :=
    match fallback_url with
    | Some fb =>
        if negb (truthy (dict_get normalized "url")) && negb (is_empty fb)
        then dict_set "url" (PStr (clean_text fb)) normalized
        else normalized
    | None => normalized
    end in
  let source_text := match source with Some s => s | None => EmptyString end in
  Ok (dict_set "sourceInput" (PStr (clean_text source_text)) normalized).

Section Main.

Variable world : Type.

(** [parser.lookup] of the [ZillowParser] that src/runner.py imports. *)
Variable parser_lookup : string -> world -> result pydict * world.

(** The loop of [main] (src/runner.py) over the input values, from the
    value numbered [S processed]. *)
Fixpoint main_loop_from (processed total : nat) (base_url : string) (values : list string)
  (w : world) : list pydict * list log_entry * world :=
  match values with
  | [] => ([], [], w)
  | raw_value :: rest =>
      let processed := S processed in
      let '(outcome, w') := parser_lookup raw_value w in
      let item :=
        raw_record <- outcome ;;
        normalize_property_record raw_record (Some raw_value) (Some base_url) in
      let '(records, log, w'') := main_loop_from processed total base_url rest w' in
      match item with
      | Ok normalized => (normalized :: records, log, w'')
      | Raise exc =>
          (records, LogResolveFailed raw_value processed total exc :: log, w'')
      end
  end.

Definition main_loop (base_url : string) (values : list string) (w : world)
  : list pydict * list log_entry * world :=
  main_loop_from 0 (List.length values) base_url values w.

End Main.

End Cleaning.

(* ================================================================= *)
(** ** A JSON decoder

    [json_decode] follows the grammar of Python's [json.loads] on documents
    whose characters and escapes stay below code point 256; an escape beyond
    that is reported as undecodable. It instantiates [json_loads] in the
    scenarios below. *)

Definition is_json_space (c : ascii) : bool :=
  (code c =? 32)%N || (code c =? 9)%N || (code c =? 10)%N || (code c =? 13)%N.

Definition skip_ws (s : string) : string := lstrip_by is_json_space s.

Definition hex_value (c : ascii) : option N :=
  if is_decimal c then Some (code c - 48)%N
  else if in_range 97 102 c then Some (code c - 87)%N
  else if in_range 65 70 c then Some (code c - 55)%N
  else None.

Definition hex4 (a b c d : ascii) : option N :=
  match hex_value a, hex_value b, hex_value c, hex_value d with
  | Some x, Some y, Some z, Some w => Some (((x * 16 + y) * 16 + z) * 16 + w)%N
  | _, _, _, _ => None
  end.

Definition cons_fst (c : ascii) (r : option (string * string)) : option (string * string) :=
  match r with
  | Some (body, rest) => Some (String c body, rest)
  | None => None
  end.

(** The text of a string literal after its opening quote: the decoded
    string and what follows the closing quote. *)
Fixpoint scan_string (s : string) : option (string * string) :=
  match s with
  | EmptyString => None
  | String c s' =>
      if (code c =? 34)%N then Some (EmptyString, s')
      else if (code c =? 92)%N then
        match s' with
        | String e s'' =>
            if (code e =? 34)%N || (code e =? 92)%N || (code e =? 47)%N
            then cons_fst e (scan_string s'')
            else if Ascii.eqb e "b" then cons_fst (ascii_of_N 8) (scan_string s'')
            else if Ascii.eqb e "f" then cons_fst (ascii_of_N 12) (scan_string s'')
            else if Ascii.eqb e "n" then cons_fst (ascii_of_N 10) (scan_string s'')
            else if Ascii.eqb e "r" then cons_fst (ascii_of_N 13) (scan_string s'')
            else if Ascii.eqb e "t" then cons_fst (ascii_of_N 9) (scan_string s'')
            else if Ascii.eqb e "u" then
              match s'' with
              | String h1 (String h2 (String h3 (String h4 s3))) =>
                  match hex4 h1 h2 h3 h4 with
                  | Some n =>
                      if (n <? 256)%N then cons_fst (ascii_of_N n) (scan_string s3) else None
                  | None => None
                  end
              | _ => None
              end
            else None
        | EmptyString => None
        end
      else if (code c <? 32)%N then None
      else cons_fst c (scan_string s')
  end.

Fixpoint span_digits (s : string) : string * string :=
  match s with
  | String c s' =>
      if is_decimal c then let '(ds, rest) := span_digits s' in (String c ds, rest)
      else (EmptyString, s)
  | EmptyString => (EmptyString, s)
  end.

(** A number at the start of [s]: an int without fraction and exponent,
    else a float. *)
Definition scan_number (s : string) : option (pyval * string) :=
  let '(neg, s1) := match s with String "-" r => (true, r) | _ => (false, s) end in
  let '(ip, r1) :=
    match s1 with
    | String "0" r => ("0", r)
    | _ => span_digits s1
    end in
  if is_empty ip then None
  else
    let '(fp, r2) :=
      match r1 with
      | String "." r =>
          let '(ds, rest) := span_digits r in
          if is_empty ds then (EmptyString, r1) else (ds, rest)
      | _ => (EmptyString, r1)
      end in
    let '(ex, r3) :=
      match r2 with
      | String e r =>
          if Ascii.eqb (lower_char e) "e" then
            let '(eneg, r') :=
              match r with
              | String "-" t => (true, t)
              | String "+" t => (false, t)
              | _ => (false, r)
              end in
            let '(ds, rest) := span_digits r' in
            if is_empty ds then (None, r2)
            else (Some (if eneg then - digits_value ds else digits_value ds), rest)
          else (None, r2)
      | EmptyString => (None, r2)
      end in
    match fp, ex with
    | EmptyString, None =>
        Some (PInt (if neg then - digits_value ip else digits_value ip), r3)
    | _, _ =>
        let e10 := match ex with Some e => e | None => 0 end in
        Some (PFloat (float_of_decimal neg (digits_value (ip ++ fp))
                        (e10 - Z.of_nat (String.length fp))), r3)
    end.

Definition after_prefix (p s : string) : option string :=
  if startswith p s
  then Some (String.substring (String.length p) (String.length s - String.length p) s)
  else None.

Definition scan_constant (s : string) : option (pyval * string) :=
  match after_prefix "null" s, after_prefix "true" s, after_prefix "false" s with
  | Some r, _, _ => Some (PNone, r)
  | _, Some r, _ => Some (PBool true, r)
  | _, _, Some r => Some (PBool false, r)
  | _, _, _ =>
      match after_prefix "NaN" s, after_prefix "Infinity" s, after_prefix "-Infinity" s with
      | Some r, _, _ => Some (PFloat S754_nan, r)
      | _, Some r, _ => Some (PFloat (S754_infinity false), r)
      | _, _, Some r => Some (PFloat (S754_infinity true), r)
      | _, _, _ => scan_number s
      end
  end.

(** [parse_value fuel s]: the value at the start of [s] and the text after
    it; [parse_members] continues an object from a key, [parse_elements]
    an array from an element. Every call consumes a character, so the
    length of the document is enough fuel. *)
Fixpoint parse_value (fuel : nat) (s : string) : option (pyval * string) :=
  match fuel with
  | O => None
  | S fuel' =>
      match s with
      | String c r =>
          if (code c =? 34)%N then
            match scan_string r with
            | Some (body, rest) => Some (PStr body, rest)
            | None => None
            end
          else if Ascii.eqb c "{" then
            match skip_ws r with
            | String "}" rest => Some (PDict [], rest)
            | members => parse_members fuel' members []
            end
          else if Ascii.eqb c "[" then
            match skip_ws r with
            | String "]" rest => Some (PList [], rest)
            | elements => parse_elements fuel' elements []
            end
          else scan_constant s
      | EmptyString => None
      end
  end
with parse_members (fuel : nat) (s : string) (acc : pydict) : option (pyval * string) :=
  match fuel with
  | O => None
  | S fuel' =>
      match s with
      | String q r =>
          if (code q =? 34)%N then
            match scan_string r with
            | Some (key, r1) =>
                match skip_ws r1 with
                | String ":" r2 =>
                    match parse_value fuel' (skip_ws r2) with
                    | Some (v, r3) =>
                        let acc' := dict_set key v acc in
                        match skip_ws r3 with
                        | String "}" rest => Some (PDict acc', rest)
                        | String "," r4 => parse_members fuel' (skip_ws r4) acc'
                        | _ => None
                        end
                    | None => None
                    end
                | _ => None
                end
            | None => None
            end
          else None
      | EmptyString => None
      end
  end
with parse_elements (fuel : nat) (s : string) (acc : list pyval) : option (pyval * string) :=
  match fuel with
  | O => None
  | S fuel' =>
      match parse_value fuel' s with
      | Some (v, r1) =>
          match skip_ws r1 with
          | String "]" rest => Some (PList (acc ++ [v]), rest)
          | String "," r2 => parse_elements fuel' (skip_ws r2) (acc ++ [v])
          | _ => None
          end
      | None => None
      end
  end.

Definition json_decode (s : string) : result pyval :=
  match parse_value (S (S (String.length s))) (skip_ws s) with
  | Some (v, rest) => if is_empty (skip_ws rest) then Ok v else Raise ValueError
  | None => Raise ValueError
  end.


(* ================================================================= *)
(** ** More cleaning helpers (helpers_cleaning.py) *)

(** [s.strip(chars)] for a one-character [chars]. *)
Definition strip_char (c : ascii) (s : string) : string :=
  rstrip_by (Ascii.eqb c) (lstrip_by (Ascii.eqb c) s).

(** The characters that the class [[^0-9a-zA-Z\s-]] leaves in place. *)
Definition is_slug_source (c : ascii) : bool :=
  is_decimal c || is_ascii_lower c || is_ascii_upper c || is_space c || Ascii.eqb c "-".

(** [slugify_address] on a string. *)
Definition slugify_address (address : string) : string :=
  let address := clean_text address in
  let address :=
    str_map (fun c => if Ascii.eqb c "#" || Ascii.eqb c "," || Ascii.eqb c "/"
                      then " "%char else c) address in
  let address := str_filter is_slug_source address in
  let address := sub_space_runs "-" address in
  strip_char "-" address.

(** [parse_price]: [re.sub] raises TypeError on a value that is not text,
    outside of the function's [try]. *)
Definition parse_price (text : pyval) : result pyval :=
  if negb (truthy text) then Ok PNone
  else
    match text with
    | PStr s =>
        let cleaned := str_filter is_decimal s in
        if is_empty cleaned then Ok PNone
        else
          match int_of_string cleaned with
          | Ok n => Ok (PInt n)
          | Raise ValueError => Ok PNone
          | Raise e => Raise e
          end
    | _ => Raise TypeError
    end.


(* ================================================================= *)
(** ** Serialization and export (zillow_parser.py, formatting_utils.py,
       outputs/exporters.py) *)





Section CsvExport.

(** [json.dumps(v, ensure_ascii=False)] and the text that
    [csv.writer(f).writerow(row)] writes for a row of cells. *)
Variable json_dumps : pyval -> string.
Variable csv_writerow : list pyval -> string.





End CsvExport.


(* ================================================================= *)
(** ** Settings and input values (src/runner.py) *)

(** A line written by [logging] in [load_settings]. *)
Inductive settings_log : Type :=
| LogSettingsNotFound                  (* logging.info *)
| LogSettingsFailed (exc : exn).       (* logging.error *)

(** [d.update(other)] for a dict [other]: its entries are set in order. *)
Definition dict_update (d other : pydict) : pydict :=
  fold_left (fun acc kv => dict_set (fst kv) (snd kv) acc) other d.

Section Settings.

Variable float_repr : spec_float -> string.
Variable str_repr : string -> string.

(** The two default paths, which [load_settings] resolves from the
    directory of the script. *)
Variables default_input_file default_output_file : string.

(** [load_settings]: [file] is [None] when the path does not exist, else
    the outcome of opening the file and decoding it with [json.load]. A
    decoded value that is not an object raises ValueError, which the
    handler catches with every other exception. *)
Definition load_settings (file : option (result pyval)) : pydict * list settings_log :=
  let defaults :=
    [("base_url", PStr "https://www.zillow.com");
     ("input_file", PStr default_input_file);
     ("output_file", PStr default_output_file);
     ("output_format", PStr "json");
     ("rate_limit_per_second", PFloat (float_of_decimal false 20 (-1)))] in
  match file with
  | None => (defaults, [LogSettingsNotFound])
  | Some loaded =>
      let checked :=
        user_settings <- loaded ;;
        match user_settings with
        | PDict entries => Ok entries
        | _ => Raise ValueError
        end in
      match checked with
      | Ok entries => (dict_update defaults entries, [])
      | Raise exc => (defaults, [LogSettingsFailed exc])
      end
  end.



End Settings.

(** The loop of [read_input_values] over the lines of the file. *)
Fixpoint read_values (lines : list string) : list string :=
  match lines with
  | [] => []
  | line :: rest =>
      let stripped := strip line in
      if is_empty stripped || startswith "#" stripped then read_values rest
      else stripped :: read_values rest
  end.

(** [read_input_values]: [file] is the lines of the file at the path, and
    [None] when there is no such file. *)
Definition read_input_values (path : string) (file : option (list string))
  : result (list string) :=
  match file with
  | None => Raise (FileNotFoundError ("Input file not found: " ++ path))
  | Some lines => Ok (read_values lines)
  end.


(* ================================================================= *)
(** * Part II: specifications and scenarios *)

(* ----------------------------------------------------------------- *)
(** *** The payload locator, declaratively *)

(** Every node of a decoded document in pre-order: a node comes before its
    children, and the children come in document order (the values of a map
    in insertion order, the items of an array by index). *)
Fixpoint preorder (obj : pyval) : list pyval :=
  obj ::
  match obj with
  | PDict entries => flat_map (fun kv => preorder (snd kv)) entries
  | PList items => flat_map preorder items
  | _ => []
  end.

(** A node qualifies as the property payload when it is a map with both
    the identifier key and the valuation-estimate key. *)
Definition qualifies (node : pyval) : bool :=
  match node with
  | PDict entries => has_key "zpid" entries && has_key "zestimate" entries
  | _ => false
  end.

Definition first_payload (nodes : list pyval) : option pydict :=
  match List.find qualifies nodes with
  | Some (PDict entries) => Some entries
  | _ => None
  end.

(** A document whose only qualifying map sits at depth 3, inside an array:
    its ancestors and its sibling each have one of the two keys only. *)
Definition nested_payload : pydict :=
  [("zpid", PInt 4455); ("zestimate", PInt 250000);
   ("inner", PDict [("zpid", PInt 1)])].

Definition nested_document : pyval :=
  PDict [("zestimate", PInt 0);
         ("props", PDict [("zpid", PInt 9);
                          ("homes", PList [PDict [("zestimate", PInt 5)];
                                           PDict nested_payload;
                                           PStr "tail"])])].

(* ----------------------------------------------------------------- *)
(** *** Classification, declaratively *)

(** Two characters that are equal up to the case of an ASCII letter. *)
Definition same_letter (c d : ascii) : bool :=
  Ascii.eqb c d
  || (is_ascii_upper c && (code d =? code c + 32)%N)
  || (is_ascii_upper d && (code c =? code d + 32)%N).

Fixpoint same_nocase (p q : string) : Prop :=
  match p, q with
  | EmptyString, EmptyString => True
  | String c p', String d q' => same_letter c d = true /\ same_nocase p' q'
  | _, _ => False
  end.

(** The text begins, in any letter case, with one of the two URL schemes. *)
Definition has_scheme (s : string) : Prop :=
  exists p rest, s = p ++ rest /\ (same_nocase p "http://" \/ same_nocase p "https://").

(** The digits among the characters: "0" to "9" and the superscripts two,
    three and one (code points 178, 179 and 185). *)
Definition numeric_chars : list ascii :=
  ["0"; "1"; "2"; "3"; "4"; "5"; "6"; "7"; "8"; "9";
   ascii_of_N 178; ascii_of_N 179; ascii_of_N 185]%char.

(** The text is not empty and each of its characters is a digit. *)
Definition all_numeric (s : string) : Prop :=
  s <> EmptyString /\
  forall i c, String.get i s = Some c -> In c numeric_chars.

Fixpoint last_char (s : string) : option ascii :=
  match s with
  | EmptyString => None
  | String c EmptyString => Some c
  | String _ s' => last_char s'
  end.

Definition opt_is (p : ascii -> bool) (o : option ascii) : bool :=
  match o with
  | Some c => p c
  | None => false
  end.

(** [cleaned] is [line] without the white space at its two ends. *)
Definition trimmed_of (line cleaned : string) : Prop :=
  exists l t,
    line = l ++ cleaned ++ t /\
    str_forall is_space l = true /\ str_forall is_space t = true /\
    opt_is is_space (next_char cleaned) = false /\
    opt_is is_space (last_char cleaned) = false.

(** The characters that the two scheme prefixes are made of. *)
Definition scheme_char (d : ascii) : bool :=
  negb (str_forall (fun x => negb (Ascii.eqb d x)) "htps:/").

(* ----------------------------------------------------------------- *)
(** *** URL resolution: scenarios *)

Definition tab : ascii := ascii_of_N 9.

(** An input line with a tab between the house number and the street. *)
Definition tabbed_line : string := "12" ++ String tab "Main St".

Definition zillow : string := "https://www.zillow.com".

(* ----------------------------------------------------------------- *)
(** *** Batches, declaratively *)

Section Sequential.

Variables (world A B : Type).
Variable step : A -> world -> result B * world.

(** The outcome of every item when the items are handled one after the
    other, each from the world its predecessor left behind. *)
Fixpoint run_in_order (items : list A) (w : world) : list (A * result B) * world :=
  match items with
  | [] => ([], w)
  | x :: rest =>
      let '(outcome, w') := step x w in
      let '(outcomes, w'') := run_in_order rest w' in
      ((x, outcome) :: outcomes, w'')
  end.

End Sequential.

Arguments run_in_order {world A B} step items w.

Definition successes {A B : Type} (outcomes : list (A * result B)) : list B :=
  flat_map (fun o => match snd o with Ok b => [b] | Raise _ => [] end) outcomes.

Definition failures {A B : Type} (outcomes : list (A * result B)) : list (A * exn) :=
  flat_map (fun o => match snd o with Ok _ => [] | Raise e => [(fst o, e)] end) outcomes.

(** The failures a log reports: the input concerned and the exception. *)
Definition logged_failures (log : list log_entry) : list (string * exn) :=
  flat_map (fun entry =>
              match entry with
              | LogFetchFailed line exc => [(line, exc)]
              | LogResolveFailed line _ _ exc => [(line, exc)]
              | _ => []
              end) log.

(** One item of the loop of [main] (src/runner.py): look the value up,
    then normalize what was found. *)
Definition resolve_one (float_repr : spec_float -> string) (str_repr : string -> string)
  (world : Type) (parser_lookup : string -> world -> result pydict * world)
  (base_url raw_value : string) (w : world) : result pydict * world :=
  let '(outcome, w') := parser_lookup raw_value w in
  (raw_record <- outcome ;;
   normalize_property_record float_repr str_repr raw_record (Some raw_value) (Some base_url),
   w').

(* ----------------------------------------------------------------- *)
(** *** A batch of two inputs, the first of which is answered 404 *)

(** Reads every apostrophe of a text as a double quote. *)
Definition quoted (s : string) : string :=
  str_map (fun c => if Ascii.eqb c "'" then ascii_of_N 34 else c) s.

Definition listing_script : string :=
  quoted "window.__DATA__ = {'props': {'zpid': 4455, 'zestimate': 250000}};".

Definition listing_html : string := "<script>" ++ listing_script ++ "</script>".

(** The site: the listing 404404 is gone, every other page is the listing
    page; the world counts the requests made. *)
Definition site_get (url : string) (requests : nat) : result Response * nat :=
  if String.eqb url (zillow ++ "/homedetails/404404_zpid/")
  then (Ok (mkResponse 404 "Not Found"), S requests)
  else (Ok (mkResponse 200 listing_html), S requests).

(** What the page parser answers on the listing page. *)
Definition site_soup (html : string) : Soup :=
  if String.eqb html listing_html
  then mkSoup [Some listing_script] None None listing_script
  else mkSoup [] None None html.

Definition gone_record : InputRecord := mkInputRecord "404404" "zpid" "404404".
Definition listing_record : InputRecord := mkInputRecord "4455" "zpid" "4455".

Definition listing_data : PropertyData :=
  mkPropertyData (PStr "4455") "4455" (zillow ++ "/homedetails/4455_zpid/")
    (PInt 250000) PNone PNone PNone PNone PNone PNone (Some []).

(* ----------------------------------------------------------------- *)
(** *** Fetching: a site that answers 204 No Content *)

Definition no_content_get (url : string) (w : unit) : result Response * unit :=
  (Ok (mkResponse 204 EmptyString), w).

(* ----------------------------------------------------------------- *)
(** *** Structured-data extraction, declaratively *)

(** [sub] occurs in [text]. *)
Definition occurs (sub text : string) : Prop :=
  exists a b, text = a ++ sub ++ b.

Definition no_char (c : ascii) (s : string) : bool :=
  str_forall (fun x => negb (Ascii.eqb x c)) s.

(** [c] is the part of [text] from its first opening brace to its last
    closing brace, the first one standing before the last one. *)
Definition brace_span (text c : string) : Prop :=
  exists pre mid post,
    text = pre ++ String "{" (mid ++ String "}" post) /\
    no_char "{" pre = true /\ no_char "}" post = true /\
    c = String "{" (mid ++ String "}" EmptyString).

Definition script_text (script : option string) : string :=
  match script with
  | Some t => t
  | None => EmptyString
  end.

(** A script block is accepted with the document [d]: it mentions both
    markers and its brace span decodes to [d]. *)
Definition accepts (json_loads : string -> result pyval) (text : string) (d : pyval) : Prop :=
  occurs "zestimate" text /\ occurs "zpid" text /\
  exists c, brace_span text c /\ json_loads c = Ok d.

(** The candidate substring that [_extract_relevant_json] decodes for one
    script block, if it decodes any. *)
Definition candidate (text : string) : option string :=
  if contains "zestimate" text && contains "zpid" text then
    let start := find "{" text in
    let end_ := rfind "}" text in
    if negb (start =? -1) && negb (end_ =? -1) && (start <? end_)
    then Some (slice text start (end_ + 1))
    else None
  else None.

(** The specification's reading of the candidate: "the first top-level
    brace-delimited substring", the text from the first opening brace to
    the closing brace that balances it. [close_block depth s] is the text
    up to the closing brace that balances [depth] + 1 open ones. *)
Fixpoint close_block (depth : nat) (s : string) : option string :=
  match s with
  | EmptyString => None
  | String c s' =>
      option_map (String c)
        (if Ascii.eqb c "{" then close_block (S depth) s'
         else if Ascii.eqb c "}" then
                match depth with
                | O => Some EmptyString
                | S d => close_block d s'
                end
              else close_block depth s')
  end.

Definition first_brace_block (text : string) : option string :=
  match lstrip_by (fun c => negb (Ascii.eqb c "{")) text with
  | String _ after => option_map (String "{") (close_block 0 after)
  | EmptyString => None
  end.

(** Extraction as the specification words it: like [_extract_relevant_json],
    but decoding the first top-level brace-delimited substring. *)
Fixpoint extract_first_block (json_loads : string -> result pyval)
  (scripts : list (option string)) : option pyval :=
  match scripts with
  | [] => None
  | script :: rest =>
      let text := script_text script in
      if contains "zestimate" text && contains "zpid" text then
        match first_brace_block text with
        | Some block =>
            match json_loads block with
            | Ok data => Some data
            | Raise _ => extract_first_block json_loads rest
            end
        | None => extract_first_block json_loads rest
        end
      else extract_first_block json_loads rest
  end.

(** A script block with two objects, one after the other. *)
Definition two_objects_script : string :=
  quoted "var home = {'zpid': 4455, 'zestimate': 250000}; var ads = {};".

(* ----------------------------------------------------------------- *)
(** *** Field extraction from the payload, declaratively *)

(** The payload that [_parse_from_json_blob] reads: the located map, or
    the empty map when the document has none. *)
Definition located_payload (data : pyval) : pydict :=
  match walk data with
  | Some payload => payload
  | None => []
  end.

(** The value of an [or] chain: the first alternate that is truthy, and
    the last operand when no earlier one is. *)
Fixpoint first_truthy (alternates : list pyval) (last : pyval) : pyval :=
  match alternates with
  | [] => last
  | v :: rest => if truthy v then v else first_truthy rest last
  end.

(** A payload whose living area and estimate are zero and whose first
    address alternate is the empty string. *)
Definition zero_area_payload : pydict :=
  [("zpid", PInt 4455); ("zestimate", PInt 0); ("livingArea", PInt 0);
   ("bedrooms", PInt 0); ("yearBuilt", PInt 0);
   ("address", PStr EmptyString); ("streetAddress", PStr "12 Main St")].

Definition zero_area_document : pyval :=
  PDict [("props", PDict zero_area_payload)].

(* ----------------------------------------------------------------- *)
(** *** Rounding a float, declaratively *)

(** The value of a finite float as a fraction with a positive
    denominator. *)
Definition float_num_den (f : spec_float) : Z * Z :=
  match f with
  | S754_finite s m e =>
      let a := if s then Zneg m else Zpos m in
      if 0 <=? e then (a * 2 ^ e, 1) else (a, 2 ^ (- e))
  | _ => (0, 1)
  end.

(** |f - n| times the denominator of [f]. *)
Definition scaled_distance (f : spec_float) (n : Z) : Z :=
  Z.abs (fst (float_num_den f) - n * snd (float_num_den f)).

(** No integer is closer to [f] than [n]. *)
Definition nearest_integer (f : spec_float) (n : Z) : Prop :=
  forall z, scaled_distance f n <= scaled_distance f z.

(** [f] lies halfway between [n] and a neighbour of [n]. *)
Definition halfway (f : spec_float) (n : Z) : Prop :=
  2 * scaled_distance f n = snd (float_num_den f).

(** The floats nearest to 1500.7, to 2.7 and to 2.5. *)
Definition float_1500_7 : spec_float := S754_finite false 6600148399213773 (-42).
Definition float_2_7 : spec_float := S754_finite false 6079859496950170 (-51).
Definition float_2_5 : spec_float := S754_finite false 5629499534213120 (-51).

(* ----------------------------------------------------------------- *)
(** *** The numeric features of the page text, declaratively *)

Definition is_letter (c : ascii) : bool := is_ascii_upper c || is_ascii_lower c.

(** A unit suffix: one ASCII letter or more, as "bd", "ba" and "sqft". *)
Definition is_unit (suffix : string) : bool :=
  negb (is_empty suffix) && str_forall is_letter suffix.

(** A run of decimal digits that is not empty. *)
Definition digit_run (s : string) : Prop :=
  s <> EmptyString /\ str_forall is_decimal s = true.

(** The interpreter's default limit on the number of digits of a decimal
    literal that [int] converts. *)
Definition max_str_digits : nat := 4300.

(** [number_text raw v]: [raw] is a number as a page writes one, and [v]
    is the value the extraction gives it: digits alone are an int, or None
    when there are more of them than [int] converts; digits with a decimal
    point and digits are the float nearest to that decimal. *)
Inductive number_text : string -> pyval -> Prop :=
| number_int (ip : string) :
    digit_run ip -> (String.length ip <= max_str_digits)%nat ->
    number_text ip (PInt (digits_value ip))
| number_long (ip : string) :
    digit_run ip -> (max_str_digits < String.length ip)%nat ->
    number_text ip PNone
| number_float (ip fp : string) :
    digit_run ip -> digit_run fp ->
    number_text (ip ++ String "." fp)
      (PFloat (float_of_decimal false (digits_value (ip ++ fp))
                 (- Z.of_nat (String.length fp)))).

(** [feature_at suffix text i raw]: at index [i] of [text] stands the
    number [raw], immediately followed (white space apart) by the unit
    [suffix] in any letter case, after which no word goes on. *)
Definition feature_at (suffix text : string) (i : nat) (raw : string) : Prop :=
  exists pre ws suf post,
    text = pre ++ raw ++ ws ++ suf ++ post /\
    String.length pre = i /\
    (exists v, number_text raw v) /\
    str_forall is_space ws = true /\
    same_nocase suf suffix /\
    opt_word (next_char post) = false.

(* ----------------------------------------------------------------- *)
(** *** The pattern of a numeric feature, read directly *)

Fixpoint span_by (p : ascii -> bool) (s : string) : string * string :=
  match s with
  | String c s' =>
      if p c then let '(run, rest) := span_by p s' in (String c run, rest)
      else (EmptyString, s)
  | EmptyString => (EmptyString, s)
  end.

(** The number at the start of a text and what follows it. *)
Definition read_number (s : string) : option (string * string) :=
  let '(ip, r1) := span_by is_decimal s in
  if is_empty ip then None
  else
    match r1 with
    | String d r =>
        if Ascii.eqb d "." then
          let '(fp, r2) := span_by is_decimal r in
          if is_empty fp then Some (ip, r1) else Some (ip ++ String "." fp, r2)
        else Some (ip, r1)
    | EmptyString => Some (ip, r1)
    end.

(** The text left when [q] starts [s] in any letter case. *)
Fixpoint fold_prefix (q s : string) : option string :=
  match q, s with
  | EmptyString, _ => Some s
  | String c q', String x s' => if eq_nocase c x then fold_prefix q' s' else None
  | String _ _, EmptyString => None
  end.

(** White space, then the unit, then no further word character. *)
Definition unit_follows (suffix r : string) : bool :=
  match fold_prefix suffix (lstrip_by is_space r) with
  | Some post => negb (opt_word (next_char post))
  | None => false
  end.

Definition feature_here (suffix s : string) : option string :=
  match read_number s with
  | Some (raw, r) => if unit_follows suffix r then Some raw else None
  | None => None
  end.

(** The leftmost index where a feature stands, with its number. *)
Fixpoint first_feature (suffix s : string) : option (nat * string) :=
  match feature_here suffix s with
  | Some raw => Some (O, raw)
  | None =>
      match s with
      | EmptyString => None
      | String _ s' =>
          match first_feature suffix s' with
          | Some (i, raw) => Some (S i, raw)
          | None => None
          end
      end
  end.

(** The value of the text of a number. *)
Definition number_value (raw : string) : pyval :=
  if contains "." raw then
    match float_of_string raw with
    | Ok f => PFloat f
    | Raise _ => PNone
    end
  else
    match int_of_string raw with
    | Ok n => PInt n
    | Raise _ => PNone
    end.

(* ----------------------------------------------------------------- *)
(** *** Checks over all characters *)

Definition all_chars : list ascii := map ascii_of_nat (seq 0 256).

Definition for_all_chars (p : ascii -> bool) : bool := forallb p all_chars.

(** The flattened text of the specification's example page. *)
Definition example_text : string := "... 3 bd ... 2.5 ba ... 1800 sqft ...".

(** [n] times the character [c]. *)
Fixpoint str_repeat (c : ascii) (n : nat) : string :=
  match n with
  | O => EmptyString
  | S n' => String c (str_repeat c n')
  end.

(** A number of 4301 digits. *)
Definition long_number : string := str_repeat "7" 4301.


(** The character before the position reached after the run [run], when
    [prev] was the character before the run. *)
Definition run_prev (prev : option ascii) (run : string) : option ascii :=
  match last_char run with
  | Some c => Some c
  | None => prev
  end.

(** What follows group 1 in the pattern of a numeric feature: white space,
    the unit, a word boundary. *)
Definition unit_tail (suffix : string) : regex :=
  RSeq (RStar space_class) (RSeq (RLitI suffix) RWordB).


(** [first_feature_value suffix text v]: [v] is the value of the first
    number of [text] that immediately precedes the unit [suffix], and None
    when no number does. *)
Definition first_feature_value (suffix text : string) (v : pyval) : Prop :=
  (v = PNone /\ forall i raw, ~ feature_at suffix text i raw) \/
  (exists i raw,
      feature_at suffix text i raw /\
      (forall j raw', feature_at suffix text j raw' -> (i <= j)%nat /\ (j = i -> raw' = raw)) /\
      number_text raw v).


(* ----------------------------------------------------------------- *)
(** *** The values that make a coercion raise *)

(** An infinite float, on which [round] raises OverflowError, or an int
    too large to be converted to a float. *)
Definition escapes_coercion (v : pyval) : Prop :=
  (exists sign, v = PFloat (S754_infinity sign)) \/
  (exists z, v = PInt z /\ float_of_Z z = Raise OverflowError).


(* ----------------------------------------------------------------- *)
(** *** An input file *)

Definition newline : string := String (ascii_of_N 10) EmptyString.

(** The lines of the specification's example file: an address, a comment,
    a blank line and a URL. *)
Definition example_lines : list string :=
  ["1234 Example St" ++ newline; "# comment" ++ newline; newline;
   "https://example.com/listing/99" ++ newline].

(** A line is kept when, trimmed, it is neither empty nor a comment. *)
Definition kept_line (trimmed : string) : bool :=
  negb (is_empty trimmed) && negb (startswith "#" trimmed).

(** The keys of a normalized record, in order. *)
Definition normalized_keys : list string :=
  ["address"; "zpid"; "url"; "zestimate"; "rentZestimate"; "bedrooms"; "bathrooms";
   "livingArea"; "lotSize"; "homeType"; "yearBuilt"; "price"; "status"; "sourceInput"].


(* ----------------------------------------------------------------- *)
(** *** Text with collapsed white space *)

(** White space in [t] is only the space character. *)
Definition plain_spaced (t : string) : bool :=
  str_forall (fun c => negb (is_space c) || Ascii.eqb c " ") t.

(** No white space follows white space in [t], nor starts it when
    [after_space] is set. *)
Fixpoint single_spaced (after_space : bool) (t : string) : bool :=
  match t with
  | EmptyString => true
  | String c t' =>
      if is_space c then negb after_space && single_spaced true t'
      else single_spaced false t'
  end.

(** The characters of [s] that are not white space, in order. *)
Definition visible (s : string) : string := str_filter (fun c => negb (is_space c)) s.

(* ----------------------------------------------------------------- *)
(** *** Slugs and prices *)

(** An ASCII letter or digit. *)
Definition is_alnum (c : ascii) : bool := is_decimal c || is_ascii_lower c || is_ascii_upper c.

(** The characters of a slug: ASCII letters, digits and the hyphen. *)
Definition is_slug_char (c : ascii) : bool := is_alnum c || Ascii.eqb c "-".

Definition is_hyphen (c : ascii) : bool := Ascii.eqb "-" c.

(* ----------------------------------------------------------------- *)
(** *** Numbers in text that was stripped of its other characters *)

(** A run of decimal digits that is not empty, as a test. *)
Definition is_digit_text (s : string) : bool := negb (is_empty s) && str_forall is_decimal s.

(** The integer that digits and hyphens spell: digits alone, or one hyphen
    followed by digits; nothing else is an integer. *)
Definition signed_digits (kept : string) : option Z :=
  match kept with
  | String c body =>
      if Ascii.eqb c "-"
      then if is_digit_text body then Some (- digits_value body) else None
      else if is_digit_text kept then Some (digits_value kept) else None
  | EmptyString => None
  end.

(** The characters that [parse_float] keeps of a text. *)
Definition is_float_text (c : ascii) : bool :=
  is_decimal c || Ascii.eqb c "." || Ascii.eqb c "-".

(** The decimal that digits, points and hyphens spell: an optional hyphen,
    digits, and optionally a point and digits, with a digit on one side of
    the point at least; its value is the float nearest to it. *)
Definition signed_decimal (kept : string) : option spec_float :=
  let '(neg, body) :=
    match kept with
    | String c r => if Ascii.eqb c "-" then (true, r) else (false, kept)
    | EmptyString => (false, kept)
    end in
  let '(ip, r1) := span_by is_decimal body in
  let '(fp, r2) :=
    match r1 with
    | String d r => if Ascii.eqb d "." then span_by is_decimal r else (EmptyString, r1)
    | EmptyString => (EmptyString, r1)
    end in
  if is_empty r2 && negb (is_empty ip && is_empty fp)
  then Some (float_of_decimal neg (digits_value (ip ++ fp)) (- Z.of_nat (String.length fp)))
  else None.

Definition opt_val {A : Type} (wrap : A -> pyval) (o : option A) : pyval :=
  match o with
  | Some a => wrap a
  | None => PNone
  end.

(* ----------------------------------------------------------------- *)
(** *** The types of a normalized record *)

Definition is_int_value (v : pyval) : bool :=
  match v with
  | PInt _ => true
  | _ => false
  end.

Definition is_float_value (v : pyval) : bool :=
  match v with
  | PFloat _ => true
  | _ => false
  end.

(** A text that [clean_text] leaves as it is. *)
Definition is_clean_value (v : pyval) : bool :=
  match v with
  | PStr s => String.eqb (clean_text s) s
  | _ => false
  end.

(** A clean text that is not empty. *)
Definition is_label_value (v : pyval) : bool :=
  match v with
  | PStr s => negb (is_empty s) && String.eqb (clean_text s) s
  | _ => false
  end.

Definition none_or (p : pyval -> bool) (v : pyval) : bool := is_none v || p v.

Definition opt_text (o : option string) : string :=
  match o with
  | Some s => s
  | None => EmptyString
  end.

(** The URL of a normalized record: the cleaned one, or the cleaned
    fallback when there is none and the fallback is not empty. *)
Definition with_fallback (u : pyval) (fallback_url : option string) : pyval :=
  match fallback_url with
  | Some f => if negb (truthy u) && negb (is_empty f) then PStr (clean_text f) else u
  | None => u
  end.

(* ----------------------------------------------------------------- *)
(** *** The rows of an exported table *)











(* ----------------------------------------------------------------- *)
(** *** Price events *)

(** An event that says something: a date, a name or a price. *)
Definition is_informative (e : PriceEvent) : Prop :=
  date e <> EmptyString \/ event e <> EmptyString \/ price e <> PNone.


(* ----------------------------------------------------------------- *)
(** *** The year of construction in the page text *)


(** The text of a year from 1950 to 2049: "19" and a digit from 5 to 9, or
    "20" and a digit from 0 to 4, then one more digit. *)
Definition is_year_text (raw : string) : bool :=
  match raw with
  | String a (String b (String c (String d EmptyString))) =>
      (Ascii.eqb "1" a && Ascii.eqb "9" b && in_range 53 57 c && is_decimal d)
      || (Ascii.eqb "2" a && Ascii.eqb "0" b && in_range 48 52 c && is_decimal d)
  | _ => false
  end.

(** [year_at text i raw]: at index [i] of [text] stands the year [raw],
    with no word character right before it or right after it. *)
Definition year_at (text : string) (i : nat) (raw : string) : Prop :=
  exists pre post,
    text = pre ++ raw ++ post /\ String.length pre = i /\ is_year_text raw = true /\
    opt_word (last_char pre) = false /\ opt_word (next_char post) = false.

(** The same in a text that follows the character [prev]. *)
Definition year_after (prev : option ascii) (s : string) (i : nat) (raw : string) : Prop :=
  exists pre post,
    s = pre ++ raw ++ post /\ String.length pre = i /\ is_year_text raw = true /\
    opt_word (run_prev prev pre) = false /\ opt_word (next_char post) = false.

Definition year_here (prev : option ascii) (s : string) : option string :=
  match s with
  | String a (String b (String c (String d r))) =>
      let raw := String a (String b (String c (String d EmptyString))) in
      if negb (opt_word prev) && is_year_text raw && negb (opt_word (next_char r))
      then Some raw else None
  | _ => None
  end.

Fixpoint first_year (prev : option ascii) (s : string) : option (nat * string) :=
  match year_here prev s with
  | Some raw => Some (O, raw)
  | None =>
      match s with
      | EmptyString => None
      | String c s' =>
          match first_year (Some c) s' with
          | Some (i, raw) => Some (S i, raw)
          | None => None
          end
      end
  end.

(** [year_value text v]: [v] is the first year from 1950 to 2049 that
    stands as a word of its own in [text], and None when there is none. *)
Definition year_value (text : string) (v : pyval) : Prop :=
  (v = PNone /\ forall i raw, ~ year_at text i raw) \/
  (exists i raw,
      year_at text i raw /\
      (forall j raw', year_at text j raw' -> (i <= j)%nat) /\
      v = PInt (digits_value raw) /\ 1950 <= digits_value raw <= 2049).

(* ----------------------------------------------------------------- *)
(** *** The property type in the page text *)


(** The property types that the page text is searched for, in the order
    in which they are tried. *)
Definition property_types : list string :=
  ["Single Family"; "Condo"; "Townhouse"; "Multi Family"; "Apartment"].

(** The text mentions the candidate, in any letter case. *)
Definition mentions (candidate text : string) : Prop :=
  occurs (lower candidate) (lower text).

(* ----------------------------------------------------------------- *)
(** *** The first amount after a label *)


(** [reach st st1]: the position [st1] lies in the text of [st], at or
    after it. *)
Definition reach (st st1 : mstate) : Prop :=
  exists consumed,
    m_rest st = consumed ++ m_rest st1 /\
    m_pos st1 = (m_pos st + String.length consumed)%nat.

Definition not_decimal (c : ascii) : bool := negb (is_decimal c).

(** A character of an amount: a decimal digit or a comma. *)
Definition is_amount_char (c : ascii) : bool := is_decimal c || Ascii.eqb c ",".

(** The text after the first place where [label] stands in [s], in any
    letter case. *)
Fixpoint after_label (label s : string) : option string :=
  match fold_prefix label s with
  | Some rest => Some rest
  | None =>
      match s with
      | EmptyString => None
      | String _ s' => after_label label s'
      end
  end.

(** The digits of the first amount of a text: from its first decimal
    digit on, the digits of the longest run of digits and commas. *)
Definition first_amount (rest : string) : option string :=
  match lstrip_by not_decimal rest with
  | EmptyString => None
  | String d r => Some (str_filter is_decimal (fst (span_by is_amount_char (String d r))))
  end.

(* ----------------------------------------------------------------- *)
(** *** The identifier of a page *)

Definition skip_opt (p : ascii -> bool) (s : string) : string :=
  match s with
  | String c s' => if p c then s' else s
  | EmptyString => s
  end.

Definition is_quote (c : ascii) : bool := (code c =? 34)%N || (code c =? 39)%N.

(** The identifier written right at the start of [s]: the marker in any
    letter case, an optional quote, white space, a colon or an equals sign,
    white space, an optional quote, and then the digits. *)
Definition zpid_here (s : string) : option string :=
  match fold_prefix "zpid" s with
  | None => None
  | Some r =>
      match lstrip_by is_space (skip_opt is_quote r) with
      | String c r' =>
          if Ascii.eqb c ":" || Ascii.eqb c "=" then
            let digits :=
              fst (span_by is_decimal (skip_opt is_quote (lstrip_by is_space r'))) in
            if is_empty digits then None else Some digits
          else None
      | EmptyString => None
      end
  end.

(** The identifier at the first position of [s] that has one. *)
Fixpoint first_zpid (s : string) : option string :=
  match zpid_here s with
  | Some digits => Some digits
  | None =>
      match s with
      | EmptyString => None
      | String _ s' => first_zpid s'
      end
  end.

(** The continuation [k] accepts no position before a character of [p]. *)
Definition needs_end (p : ascii -> bool) (k : mstate -> option mstate) : Prop :=
  forall st, opt_is p (next_char (m_rest st)) = true -> k st = None.

(* ----------------------------------------------------------------- *)
(** *** The address of a page *)

(** Five decimal digits in a row somewhere in [text]. *)
Definition has_postal_code (text : string) : Prop :=
  exists pre code post,
    text = pre ++ code ++ post /\
    String.length code = 5%nat /\ str_forall is_decimal code = true.

(** The [content] of the og:title element and the text of the first
    heading, empty when there is none. *)
Definition og_title (soup : Soup) : string :=
  match og_title_content soup with
  | Some (Some content) => content
  | _ => EmptyString
  end.

Definition heading (soup : Soup) : string :=
  match h1_text soup with
  | Some text => text
  | None => EmptyString
  end.

(** [a] is a piece of [text] around five digits in a row, with at most 80
    characters before them and no white space at either end. *)
Definition postal_snippet (text a : string) : Prop :=
  exists x code y,
    a = x ++ code ++ y /\
    String.length code = 5%nat /\ str_forall is_decimal code = true /\
    (String.length x <= 80)%nat /\ occurs a text /\ strip a = a.

Definition springfield_page : Soup :=
  mkSoup [] None (Some EmptyString)
    "Call 555 today: 12 Oak St, Springfield, IL 62704 USA   Beds 3".

(* ----------------------------------------------------------------- *)
(** *** Settings and input values *)

(** The keys of the default settings, in order. *)
Definition default_keys : list string :=
  ["base_url"; "input_file"; "output_file"; "output_format"; "rate_limit_per_second"].


(* ----------------------------------------------------------------- *)
(** *** Values that can be written as text *)

(** [str] writes an int of at most 4300 digits and refuses a longer one
    with ValueError, the interpreter's limit for the conversion between
    int and text. A value is printable when no int in it is that long;
    every document that [json.loads] decodes is, since the decoder reads
    its ints with [int]. *)
Fixpoint printable (v : pyval) : bool :=
  match v with
  | PInt z => Z.abs z <? 10 ^ 4300
  | PList items => forallb printable items
  | PDict entries => forallb (fun kv => printable (snd kv)) entries
  | _ => true
  end.

(* ----------------------------------------------------------------- *)
(** *** Best-effort numbers *)

(** The int that a value is read as, and None when it is none: an int
    is itself, a boolean 0 or 1, a finite float its integer part, a text
    the int that it writes as a literal of at most 4300 digits. (An
    infinite float has no reading: the conversion fails on it.) *)
Definition int_value (v : pyval) : pyval :=
  match v with
  | PBool b => PInt (if b then 1 else 0)
  | PInt z => PInt z
  | PFloat f =>
      match float_trunc f with
      | Ok n => PInt n
      | Raise _ => PNone
      end
  | PStr s =>
      match int_of_string s with
      | Ok n => PInt n
      | Raise _ => PNone
      end
  | PNone | PList _ | PDict _ => PNone
  end.

(** The float that a value is read as, and None when it is none. *)
Definition float_value (v : pyval) : pyval :=
  match v with
  | PBool b => PFloat (if b then S754_finite false 4503599627370496 (-52) else S754_zero false)
  | PInt z =>
      match float_of_Z z with
      | Ok f => PFloat f
      | Raise _ => PNone
      end
  | PFloat f => PFloat f
  | PStr s =>
      match float_of_string s with
      | Ok f => PFloat f
      | Raise _ => PNone
      end
  | PNone | PList _ | PDict _ => PNone
  end.

(* ----------------------------------------------------------------- *)
(** *** The price history, declaratively *)

(** The items of a history that are maps. *)
Definition dict_items (items : list pyval) : list pydict :=
  flat_map (fun item => match item with PDict d => [d] | _ => [] end) items.

Section History.

Variable float_repr : spec_float -> string.
Variable str_repr : string -> string.

(** The event that an item describes: its date and its name are the text
    of the first truthy alternate, or empty, and its price is read as an
    int. *)
Definition event_of (item : pydict) : PriceEvent :=
  mkPriceEvent
    (py_str float_repr str_repr
       (first_truthy [dict_get item "date"; dict_get item "eventDate"] (PStr EmptyString)))
    (py_str float_repr str_repr
       (first_truthy [dict_get item "event"; dict_get item "priceChangeEvent"]
          (PStr EmptyString)))
    (int_value (dict_get item "price")).

(** An event with a date, a name or a price. *)
Definition informative (e : PriceEvent) : bool :=
  negb (is_empty (date e)) || negb (is_empty (event e)) || negb (is_none (price e)).

(** The history that a value holds: the informative events of the maps of
    a list, in order, and none for any other value. *)
Definition history_of (v : pyval) : list PriceEvent :=
  match v with
  | PList items => filter informative (map event_of (dict_items items))
  | _ => []
  end.

End History.

(** A payload with a zero identifier, a living area written with a comma
    and a history of one informative item among three. *)
Definition comma_area_payload : pydict :=
  [("zpid", PInt 0); ("zestimate", PStr "250000"); ("livingArea", PStr "1,800");
   ("lotSizeValue", PFloat (S754_finite false 6600148399213773 (-42)));
   ("bedrooms", PStr "3"); ("bathrooms", PStr "2.5");
   ("priceHistory",
    PList [PDict [("note", PStr "none")]; PStr "sold";
           PDict [("eventDate", PInt 2021); ("priceChangeEvent", PStr "Sold");
                  ("price", PStr "100")]])].

Definition comma_area_document : pyval := PList [PDict comma_area_payload].

(* ================================================================= *)
(** * Part III: proofs *)

(* ================================================================= *)
(** ** Induction over Python values *)

Section PyvalInduction.

Variable P : pyval -> Prop.
Hypothesis case_none : P PNone.
Hypothesis case_bool : forall b, P (PBool b).
Hypothesis case_int : forall z, P (PInt z).
Hypothesis case_float : forall f, P (PFloat f).
Hypothesis case_str : forall s, P (PStr s).
Hypothesis case_list : forall items, Forall P items -> P (PList items).
Hypothesis case_dict :
  forall entries, Forall (fun kv => P (snd kv)) entries -> P (PDict entries).

Fixpoint pyval_nested_ind (v : pyval) : P v :=
  match v with
  | PNone => case_none
  | PBool b => case_bool b
  | PInt z => case_int z
  | PFloat f => case_float f
  | PStr s => case_str s
  | PList items =>
      case_list items
        ((fix all (l : list pyval) : Forall P l :=
            match l with
            | [] => Forall_nil P
            | x :: l' => Forall_cons x (pyval_nested_ind x) (all l')
            end) items)
  | PDict entries =>
      case_dict entries
        ((fix all (l : pydict) : Forall (fun kv => P (snd kv)) l :=
            match l with
            | [] => Forall_nil _
            | kv :: l' => Forall_cons kv (pyval_nested_ind (snd kv)) (all l')
            end) entries)
  end.

End PyvalInduction.

(* ================================================================= *)
(** ** The payload locator *)

Lemma find_app {A : Type} (p : A -> bool) (l1 l2 : list A) :
  List.find p (l1 ++ l2) =
  match List.find p l1 with
  | Some x => Some x
  | None => List.find p l2
  end.
Proof.
  induction l1 as [|x l1 IH]; simpl; [reflexivity|].
  destruct (p x); [reflexivity | exact IH].
Qed.

Lemma first_payload_app (l1 l2 : list pyval) :
  first_payload (l1 ++ l2) =
  match first_payload l1 with
  | Some d => Some d
  | None => first_payload l2
  end.
Proof.
  unfold first_payload. rewrite find_app.
  destruct (List.find qualifies l1) as [node|] eqn:E; [|reflexivity].
  apply find_some in E. destruct E as [_ E].
  destruct node; try discriminate E. reflexivity.
Qed.

Lemma first_payload_cons_skip (node : pyval) (l : list pyval) :
  qualifies node = false -> first_payload (node :: l) = first_payload l.
Proof.
  intros H. unfold first_payload. simpl. rewrite H. reflexivity.
Qed.

Lemma walk_is_first_payload (obj : pyval) : walk obj = first_payload (preorder obj).
Proof.
  induction obj as [ | b | z | f | s | items IH | entries IH ] using pyval_nested_ind;
    try reflexivity.
  - (* an array: never the payload itself *)
    cbn [walk preorder]. rewrite first_payload_cons_skip by reflexivity.
    induction IH as [|item items Hitem _ IHitems]; [reflexivity|].
    cbn [flat_map]. rewrite first_payload_app, <- Hitem.
    destruct (walk item); [reflexivity | exact IHitems].
  - (* a map *)
    cbn [walk preorder].
    destruct (has_key "zpid" entries && has_key "zestimate" entries) eqn:Q.
    + unfold first_payload. cbn [List.find qualifies]. rewrite Q. reflexivity.
    + rewrite first_payload_cons_skip by exact Q. clear Q.
      induction IH as [|kv rest Hkv _ IHrest]; [reflexivity|].
      cbn [flat_map]. rewrite first_payload_app, <- Hkv.
      destruct (walk (snd kv)); [reflexivity | exact IHrest].
Qed.

(** C1. The payload locator [walk] is a pre-order depth-first search: on
    every decoded document it returns the first node, in pre-order, that is
    a map with both the key "zpid" and the key "zestimate" (and nothing when
    no node qualifies). On the document [nested_document], whose only
    qualifying map is at depth 3 inside an array, it returns exactly that
    map, which is neither an ancestor nor the sibling. *)
Theorem walk_preorder_first_match :
  (forall obj : pyval, walk obj = first_payload (preorder obj)) /\
  walk nested_document = Some nested_payload /\
  List.filter qualifies (preorder nested_document) = [PDict nested_payload].
Proof.
  split; [exact walk_is_first_payload|].
  split; reflexivity.
Qed.

(* ================================================================= *)
(** ** Strings *)

Lemma append_empty_r (s : string) : s ++ EmptyString = s.
Proof. induction s as [|c s IH]; simpl; [reflexivity | now rewrite IH]. Qed.

Lemma append_assoc' (a b c : string) : (a ++ b) ++ c = a ++ (b ++ c).
Proof. induction a as [|x a IH]; simpl; [reflexivity | now rewrite IH]. Qed.

Lemma is_empty_true (s : string) : is_empty s = true <-> s = EmptyString.
Proof. destruct s; simpl; split; intro H; try reflexivity; discriminate H. Qed.

Lemma is_empty_false (s : string) : is_empty s = false <-> s <> EmptyString.
Proof.
  destruct s; simpl; split; intro H; try discriminate; try reflexivity.
  now contradiction H.
Qed.

Lemma lstrip_by_split (p : ascii -> bool) (s : string) :
  exists l, s = l ++ lstrip_by p s /\ str_forall p l = true /\
            opt_is p (next_char (lstrip_by p s)) = false.
Proof.
  induction s as [|c s (l & Hs & Hl & Hn)]; simpl.
  - exists EmptyString. repeat split.
  - destruct (p c) eqn:Hc.
    + exists (String c l). simpl. rewrite Hc, Hl. split; [now rewrite <- Hs|]. split; auto.
    + exists EmptyString. simpl. rewrite Hc. repeat split.
Qed.

Lemma rstrip_by_split (p : ascii -> bool) (s : string) :
  exists t, s = rstrip_by p s ++ t /\ str_forall p t = true /\
            opt_is p (last_char (rstrip_by p s)) = false.
Proof.
  induction s as [|c s (t & Hs & Ht & Hn)]; simpl.
  - exists EmptyString. repeat split.
  - destruct (p c && is_empty (rstrip_by p s)) eqn:E.
    + apply andb_true_iff in E. destruct E as [Hc He].
      apply is_empty_true in He. rewrite He in Hs. simpl in Hs. subst t.
      exists (String c s). simpl. rewrite Hc, Ht. repeat split.
    + exists t. simpl. split; [now rewrite <- Hs|]. split; [exact Ht|].
      destruct (rstrip_by p s) as [|d r] eqn:R.
      * simpl. rewrite andb_true_r in E. exact E.
      * exact Hn.
Qed.

Lemma rstrip_by_keeps_first (p : ascii -> bool) (s : string) :
  opt_is p (next_char s) = false ->
  opt_is p (next_char (rstrip_by p s)) = false.
Proof.
  destruct s as [|c s]; simpl; [reflexivity|].
  intros Hc. rewrite Hc. simpl. exact Hc.
Qed.

Lemma strip_trimmed (line : string) : trimmed_of line (strip line).
Proof.
  unfold strip.
  destruct (lstrip_by_split is_space line) as (l & Hl & Hal & Hfirst).
  destruct (rstrip_by_split is_space (lstrip_by is_space line)) as (t & Ht & Hat & Hlast).
  exists l, t. split; [|repeat split; auto using rstrip_by_keeps_first].
  rewrite <- Ht. exact Hl.
Qed.

Lemma prefix_cons (c d : ascii) (p s : string) :
  String.prefix (String c p) (String d s) = Ascii.eqb c d && String.prefix p s.
Proof.
  simpl. destruct (ascii_dec c d) as [->|N].
  - now rewrite Ascii.eqb_refl.
  - apply Ascii.eqb_neq in N. now rewrite N.
Qed.

(** The characters of the two scheme prefixes are matched, after
    [str.lower], by themselves and by their capitals only. *)
Lemma lower_char_scheme (c : ascii) :
  str_forall (fun d => Bool.eqb (Ascii.eqb (lower_char c) d) (same_letter c d)) "htps:/" = true.
Proof. destruct c as [[] [] [] [] [] [] [] []]; vm_compute; reflexivity. Qed.

Lemma lower_char_same_letter (c d : ascii) :
  scheme_char d = true -> Ascii.eqb (lower_char c) d = same_letter c d.
Proof.
  intros Hd. pose proof (lower_char_scheme c) as H.
  unfold scheme_char in Hd. cbn [str_forall] in Hd, H.
  repeat rewrite andb_true_iff in H.
  destruct H as (Hh & Ht & Hp & Hs & Hc & Hl & _).
  repeat rewrite negb_andb in Hd. repeat rewrite negb_involutive in Hd.
  repeat rewrite orb_true_iff in Hd.
  destruct Hd as [Hd|[Hd|[Hd|[Hd|[Hd|[Hd|Hd]]]]]]; try discriminate Hd;
    apply Ascii.eqb_eq in Hd; subst d; now apply Bool.eqb_prop.
Qed.

Lemma startswith_lower (q s : string) :
  str_forall scheme_char q = true ->
  (startswith q (lower s) = true <-> exists p rest, s = p ++ rest /\ same_nocase p q).
Proof.
  unfold startswith, lower. revert s.
  induction q as [|d q IH]; intros s Hq.
  - split; [intros _|].
    + exists EmptyString, s. split; reflexivity.
    + intros _. destruct s; reflexivity.
  - simpl in Hq. apply andb_true_iff in Hq. destruct Hq as [Hd Hq].
    destruct s as [|c s].
    + split; [discriminate|]. intros (p & rest & Hs & Hp).
      destruct p; [exact (False_ind _ Hp) | discriminate Hs].
    + cbn [str_map]. rewrite prefix_cons, Ascii.eqb_sym, lower_char_same_letter by exact Hd.
      rewrite andb_true_iff, (IH s Hq). split.
      * intros (Hc & p & rest & Hs & Hp). exists (String c p), rest.
        split; [simpl; now rewrite Hs | split; assumption].
      * intros (p & rest & Hs & Hp). destruct p as [|c' p]; [exact (False_ind _ Hp)|].
        simpl in Hs. injection Hs as <- Hs. destruct Hp as [Hc Hp].
        split; [exact Hc|]. now exists p, rest.
Qed.

Lemma startswith_scheme (s : string) :
  startswith "http://" (lower s) || startswith "https://" (lower s) = true <-> has_scheme s.
Proof.
  unfold has_scheme. rewrite orb_true_iff.
  rewrite (startswith_lower "http://" s) by reflexivity.
  rewrite (startswith_lower "https://" s) by reflexivity.
  split.
  - intros [(p & rest & Hs & Hp)|(p & rest & Hs & Hp)]; exists p, rest; auto.
  - intros (p & rest & Hs & [Hp|Hp]); [left|right]; exists p, rest; auto.
Qed.

Lemma str_forall_get (p : ascii -> bool) (s : string) :
  str_forall p s = true <-> forall i c, String.get i s = Some c -> p c = true.
Proof.
  induction s as [|d s IH]; simpl.
  - split; [intros _ i c H; destruct i; discriminate H | reflexivity].
  - rewrite andb_true_iff, IH. split.
    + intros [Hd Hs] [|i] c H; [injection H as <-; exact Hd | exact (Hs i c H)].
    + intros H. split; [exact (H O d eq_refl) | intros i c Hi; exact (H (S i) c Hi)].
Qed.

Lemma digit_char_listed (c : ascii) : is_digit_char c = true <-> In c numeric_chars.
Proof.
  assert (is_digit_char c = existsb (Ascii.eqb c) numeric_chars) as ->
      by (destruct c as [[] [] [] [] [] [] [] []]; reflexivity).
  rewrite existsb_exists. split.
  - intros (x & I & E). apply Ascii.eqb_eq in E. now subst x.
  - intros I. exists c. split; [exact I | apply Ascii.eqb_refl].
Qed.

Lemma isdigit_all_numeric (s : string) : isdigit s = true <-> all_numeric s.
Proof.
  unfold isdigit, all_numeric.
  rewrite andb_true_iff, negb_true_iff, is_empty_false, str_forall_get.
  split; intros [N A]; (split; [exact N|]); intros i c G; apply digit_char_listed;
    exact (A i c G).
Qed.

(* ================================================================= *)
(** ** Input classification *)

(** C5. [classify_input] raises (a ValueError, the empty-input error)
    exactly when the trimmed line is empty. Otherwise it returns the record
    of the raw line and the trimmed line, whose kind follows the rule
    order: "url" when the trimmed line begins, in any letter case, with
    http:// or https://; else "zpid" (the identifier kind) when it is
    entirely numeric, that is not empty and made of the digits "0" to "9"
    and the superscript digits; else "address". The trimmed line is the
    line without the white space at its ends. Being a function of the line
    only, the classification is deterministic and has no effect. So
    "12345" is an identifier, also with white space around it, while
    "12a45", "12 45", "-12" and "12.5" are addresses, and a scheme wins
    over digits. *)
Theorem classify_input_rule_order :
  (forall line : string,
      trimmed_of line (strip line) /\
      match classify_input line with
      | Raise e => e = ValueError /\ strip line = EmptyString
      | Ok r =>
          strip line <> EmptyString /\ raw r = line /\ value r = strip line /\
          ((has_scheme (strip line) /\ kind r = "url") \/
           (~ has_scheme (strip line) /\ all_numeric (strip line) /\ kind r = "zpid") \/
           (~ has_scheme (strip line) /\ ~ all_numeric (strip line) /\ kind r = "address"))
      end) /\
  classify_input "12345" = Ok (mkInputRecord "12345" "zpid" "12345") /\
  classify_input "0" = Ok (mkInputRecord "0" "zpid" "0") /\
  classify_input "  12345 " = Ok (mkInputRecord "  12345 " "zpid" "12345") /\
  classify_input (String tab "12345" ++ newline)
  = Ok (mkInputRecord (String tab "12345" ++ newline) "zpid" "12345") /\
  classify_input ("12" ++ String (ascii_of_N 179) EmptyString)
  = Ok (mkInputRecord ("12" ++ String (ascii_of_N 179) EmptyString) "zpid"
          ("12" ++ String (ascii_of_N 179) EmptyString)) /\
  classify_input "12a45" = Ok (mkInputRecord "12a45" "address" "12a45") /\
  classify_input "12 45" = Ok (mkInputRecord "12 45" "address" "12 45") /\
  classify_input "-12" = Ok (mkInputRecord "-12" "address" "-12") /\
  classify_input "12.5" = Ok (mkInputRecord "12.5" "address" "12.5") /\
  classify_input "1234 Example St" = Ok (mkInputRecord "1234 Example St" "address"
                                           "1234 Example St") /\
  classify_input "HTTPS://12345" = Ok (mkInputRecord "HTTPS://12345" "url" "HTTPS://12345") /\
  classify_input "http://zillow.com/1" = Ok (mkInputRecord "http://zillow.com/1" "url"
                                               "http://zillow.com/1") /\
  classify_input "   " = Raise ValueError /\
  classify_input EmptyString = Raise ValueError.
Proof.
  split; [|repeat split; reflexivity].
  intros line. split; [apply strip_trimmed|].
  unfold classify_input.
  destruct (is_empty (strip line)) eqn:E.
  - split; [reflexivity | now apply is_empty_true].
  - apply is_empty_false in E. cbn [raw value kind].
    split; [exact E|]. split; [reflexivity|]. split; [reflexivity|].
    destruct (startswith "http://" (lower (strip line))
              || startswith "https://" (lower (strip line))) eqn:U.
    + left. split; [now apply startswith_scheme | reflexivity].
    + assert (~ has_scheme (strip line)) as NU.
      { intros H. apply startswith_scheme in H. rewrite H in U. discriminate U. }
      right. destruct (isdigit (strip line)) eqn:D.
      * left. split; [exact NU|]. split; [now apply isdigit_all_numeric | reflexivity].
      * right. split; [exact NU|]. split; [|reflexivity].
        intros H. apply isdigit_all_numeric in H. rewrite H in D. discriminate D.
Qed.

(* ================================================================= *)
(** ** URL resolution *)

Lemma str_map_length (f : ascii -> ascii) (s : string) :
  String.length (str_map f s) = String.length s.
Proof. induction s as [|c s IH]; simpl; [reflexivity | now rewrite IH]. Qed.

Lemma str_map_get (f : ascii -> ascii) (s : string) (i : nat) :
  String.get i (str_map f s) = option_map f (String.get i s).
Proof.
  revert i. induction s as [|c s IH]; intros i; simpl; [reflexivity|].
  destruct i; [reflexivity | apply IH].
Qed.

Lemma replace_char_get (old new : ascii) (s : string) (i : nat) :
  String.get i (replace_char old new s) =
  option_map (fun c => if Ascii.eqb c old then new else c) (String.get i s).
Proof. apply str_map_get. Qed.

Lemma replace_char_removes (old new : ascii) (s : string) (i : nat) :
  old <> new -> String.get i (replace_char old new s) <> Some old.
Proof.
  intros Hne. rewrite replace_char_get.
  destruct (String.get i s) as [c|]; simpl; [|discriminate].
  destruct (Ascii.eqb c old) eqn:E.
  - intros H. injection H as H. now apply Hne.
  - apply Ascii.eqb_neq in E. intros H. injection H as H. now apply E.
Qed.

(** The claim as the specification words it fails: a tab inside an address
    line is white space, the line is classified as an address, and the tab
    is still in the URL that is built. *)
Lemma address_tab_is_kept :
  is_space tab = true /\
  classify_input tabbed_line = Ok (mkInputRecord tabbed_line "address" tabbed_line) /\
  _build_url_for_record zillow (mkInputRecord tabbed_line "address" tabbed_line)
  = zillow ++ "/homes/12" ++ String tab "Main-St_rb/" /\
  contains (String tab EmptyString)
    (_build_url_for_record zillow (mkInputRecord tabbed_line "address" tabbed_line)) = true.
Proof. repeat split. Qed.

(** C8 (amended). URL resolution is a function of the record and the base
    URL, so resolving twice gives the same URL. Kind "url" returns the
    record's value unchanged; kind "zpid" returns the detail-page path
    [base/homedetails/<value>_zpid/]; every other kind, so kind "address",
    returns the search-page path [base/homes/<slug>_rb/] where the slug is
    the value with each space character (U+0020) replaced by a hyphen and
    every other character, other white space included, left as it is. *)
Theorem build_url_by_kind :
  forall (base line v : string),
    _build_url_for_record base (mkInputRecord line "url" v) = v /\
    _build_url_for_record base (mkInputRecord line "zpid" v)
    = base ++ "/homedetails/" ++ v ++ "_zpid/" /\
    (forall k, String.eqb k "url" = false -> String.eqb k "zpid" = false ->
       exists slug,
         _build_url_for_record base (mkInputRecord line k v) = base ++ "/homes/" ++ slug ++ "_rb/" /\
         String.length slug = String.length v /\
         (forall i, String.get i slug
                    = option_map (fun c => if Ascii.eqb c " " then "-"%char else c)
                        (String.get i v)) /\
         (forall i, String.get i slug <> Some " "%char)) /\
    (forall base' r r', base = base' -> r = r' ->
       _build_url_for_record base r = _build_url_for_record base' r').
Proof.
  intros base line v. split; [reflexivity|]. split; [reflexivity|]. split.
  - intros k Hu Hz. exists (replace_char " " "-" v).
    unfold _build_url_for_record. cbn [kind value]. rewrite Hu, Hz.
    split; [reflexivity|]. split; [apply str_map_length|].
    split; [intros i; apply replace_char_get|].
    intros i. apply replace_char_removes. discriminate.
  - intros base' r r' -> ->. reflexivity.
Qed.

(* ================================================================= *)
(** ** The batch orchestrator *)

Section BatchProofs.

Variable world : Type.
Variable client_fetch_property : InputRecord -> world -> result PropertyData * world.

Lemma process_records_from_spec (idx total : nat) (records : list InputRecord) (w : world) :
  let '(results, log, w') :=
    process_records_from world client_fetch_property idx total records w in
  let '(outcomes, w_end) := run_in_order client_fetch_property records w in
  results = successes outcomes /\
  logged_failures log = map (fun f => (raw (fst f), snd f)) (failures outcomes) /\
  w' = w_end.
Proof.
  revert idx w. induction records as [|record rest IH]; intros idx w.
  - simpl. repeat split.
  - cbn [process_records_from run_in_order].
    destruct (client_fetch_property record w) as [[data|exc] w1].
    + specialize (IH (S idx) w1).
      destruct (process_records_from world client_fetch_property (S idx) total rest w1)
        as [[results log] w2].
      destruct (run_in_order client_fetch_property rest w1) as [outcomes w3].
      destruct IH as (Hr & Hl & Hw). subst. repeat split. exact Hl.
    + specialize (IH (S idx) w1).
      destruct (process_records_from world client_fetch_property (S idx) total rest w1)
        as [[results log] w2].
      destruct (run_in_order client_fetch_property rest w1) as [outcomes w3].
      destruct IH as (Hr & Hl & Hw). subst. repeat split.
      unfold logged_failures, failures in *. cbn. f_equal. exact Hl.
Qed.

End BatchProofs.

Section MainLoopProofs.

Variable float_repr : spec_float -> string.
Variable str_repr : string -> string.
Variable world : Type.
Variable parser_lookup : string -> world -> result pydict * world.

Lemma main_loop_from_spec (processed total : nat) (base_url : string)
  (values : list string) (w : world) :
  let '(records, log, w') :=
    main_loop_from float_repr str_repr world parser_lookup processed total base_url values w in
  let '(outcomes, w_end) :=
    run_in_order (resolve_one float_repr str_repr world parser_lookup base_url) values w in
  records = successes outcomes /\
  logged_failures log = failures outcomes /\
  w' = w_end.
Proof.
  revert processed w. induction values as [|raw_value rest IH]; intros processed w.
  - simpl. repeat split.
  - cbn [main_loop_from run_in_order]. unfold resolve_one at 1.
    destruct (parser_lookup raw_value w) as [outcome w1].
    specialize (IH (S processed) w1).
    destruct (main_loop_from float_repr str_repr world parser_lookup (S processed) total
                base_url rest w1) as [[records log] w2].
    destruct (run_in_order (resolve_one float_repr str_repr world parser_lookup base_url)
                rest w1) as [outcomes w3].
    destruct IH as (Hr & Hl & Hw). subst.
    destruct (raw_record <- outcome ;;
              normalize_property_record float_repr str_repr raw_record
                (Some raw_value) (Some base_url)) as [normalized|exc];
      repeat split; unfold logged_failures, failures in *; cbn; [|f_equal]; exact Hl.
Qed.

End MainLoopProofs.

(** C7. The batch orchestrator handles the records one after the other.
    [process_records] returns exactly the records that [fetch_property]
    produced, in input order; every failure of one record is caught and
    logged with the record's raw line, and the next record is fetched from
    the world the failed one left. The loop of [main] in src/runner.py does
    the same for lookup followed by normalisation. In the batch of
    [gone_record], answered with status 404, and [listing_record], the
    output is the listing's record alone and the failure is in the log. *)
Theorem batch_keeps_successes_in_order :
  (forall (world : Type) (fetch : InputRecord -> world -> result PropertyData * world)
          (records : list InputRecord) (w : world),
      let '(results, log, w') := process_records world fetch records w in
      let '(outcomes, w_end) := run_in_order fetch records w in
      results = successes outcomes /\
      logged_failures log = map (fun f => (raw (fst f), snd f)) (failures outcomes) /\
      w' = w_end) /\
  (forall (float_repr : spec_float -> string) (str_repr : string -> string) (world : Type)
          (parser_lookup : string -> world -> result pydict * world)
          (base_url : string) (values : list string) (w : world),
      let '(records, log, w') :=
        main_loop float_repr str_repr world parser_lookup base_url values w in
      let '(outcomes, w_end) :=
        run_in_order (resolve_one float_repr str_repr world parser_lookup base_url) values w in
      records = successes outcomes /\
      logged_failures log = failures outcomes /\
      w' = w_end) /\
  (forall (float_repr : spec_float -> string) (str_repr : string -> string),
      process_records nat
        (fetch_property float_repr str_repr json_decode nat site_get site_soup zillow)
        [gone_record; listing_record] O
      = ([listing_data],
         [LogProcessing 1 2 "404404" "zpid";
          LogFetchFailed "404404"
            (RuntimeError ("Zillow responded with status 404 for URL "
                           ++ zillow ++ "/homedetails/404404_zpid/"));
          LogProcessing 2 2 "4455" "zpid"],
         2%nat)).
Proof.
  split; [|split].
  - intros world fetch records w. unfold process_records.
    apply process_records_from_spec.
  - intros float_repr str_repr world parser_lookup base_url values w. unfold main_loop.
    apply main_loop_from_spec.
  - intros float_repr str_repr. vm_compute. reflexivity.
Qed.

(* ================================================================= *)
(** ** What the extraction of a page can raise *)

Lemma try_except_type_value_raises {A : Type} (body : result A) (handler : A) (e : exn) :
  try_except_type_value body handler = Raise e ->
  body = Raise e /\ catches_type_value e = false.
Proof.
  destruct body as [a|e']; simpl; [discriminate|].
  destruct (catches_type_value e') eqn:C; [discriminate|].
  intros H. injection H as <-. split; [reflexivity | exact C].
Qed.

Lemma float_trunc_raises (f : spec_float) (e : exn) :
  float_trunc f = Raise e -> e = ValueError \/ e = OverflowError.
Proof. destruct f; simpl; intros H; inversion H; auto. Qed.

Lemma float_round_raises (f : spec_float) (e : exn) :
  float_round f = Raise e -> e = ValueError \/ e = OverflowError.
Proof. destruct f; simpl; intros H; inversion H; auto. Qed.

Lemma int_of_string_raises (s : string) (e : exn) :
  int_of_string s = Raise e -> e = ValueError.
Proof.
  unfold int_of_string. destruct (read_sign (strip_numeric s)) as [neg body].
  destruct (read_digits body) as [ds rest].
  destruct (negb (is_empty ds) && is_empty rest);
    [destruct (String.length ds <=? int_max_str_digits)%nat|];
    intros H; inversion H; reflexivity.
Qed.

Lemma float_of_string_raises (s : string) (e : exn) :
  float_of_string s = Raise e -> e = ValueError.
Proof.
  unfold float_of_string. destruct (read_sign (strip_numeric s)) as [neg body].
  destruct (String.eqb (lower body) "inf" || String.eqb (lower body) "infinity");
    [discriminate|].
  destruct (String.eqb (lower body) "nan"); [discriminate|].
  destruct (read_digits body) as [ip r1].
  destruct (match r1 with String "."%char r => read_digits r | _ => (EmptyString, r1) end)
    as [fp r2].
  destruct (is_empty ip && is_empty fp); [intros H; inversion H; reflexivity|].
  destruct r2 as [|c r3]; [discriminate|].
  destruct (Ascii.eqb (lower_char c) "e"); [|intros H; inversion H; reflexivity].
  destruct (read_sign r3) as [eneg r4]. destruct (read_digits r4) as [ed r5].
  destruct (negb (is_empty ed) && is_empty r5); intros H; inversion H; reflexivity.
Qed.

Lemma float_of_Z_raises (n : Z) (e : exn) :
  float_of_Z n = Raise e -> e = OverflowError.
Proof.
  unfold float_of_Z. destruct (binary_normalize prec emax n 0 false);
    intros H; inversion H; reflexivity.
Qed.

Lemma py_int_raises (v : pyval) (e : exn) :
  py_int v = Raise e -> e = ValueError \/ e = TypeError \/ e = OverflowError.
Proof.
  destruct v; simpl; intros H; try (inversion H; auto; fail).
  - apply float_trunc_raises in H. tauto.
  - apply int_of_string_raises in H. auto.
Qed.

Lemma py_float_raises (v : pyval) (e : exn) :
  py_float v = Raise e -> e = ValueError \/ e = TypeError \/ e = OverflowError.
Proof.
  destruct v; simpl; intros H; try (inversion H; auto; fail).
  - apply float_of_Z_raises in H. auto.
  - apply float_of_Z_raises in H. auto.
  - apply float_of_string_raises in H. auto.
Qed.

Lemma uncaught_is_overflow (e : exn) :
  e = ValueError \/ e = TypeError \/ e = OverflowError ->
  catches_type_value e = false -> e = OverflowError.
Proof. intros [ -> | [ -> | -> ] ]; simpl; intros H; try discriminate H; reflexivity. Qed.

Lemma bind_raises {A B : Type} (r : result A) (k : A -> result B) (e : exn) :
  (x <- r ;; k x) = Raise e -> r = Raise e \/ exists a, r = Ok a /\ k a = Raise e.
Proof.
  destruct r as [a|e']; simpl; intros H; [right; eauto|].
  left. injection H as ->. reflexivity.
Qed.

Lemma _to_int_safe_raises (v : pyval) (e : exn) :
  _to_int_safe v = Raise e -> e = OverflowError.
Proof.
  unfold _to_int_safe. destruct (is_none v); [discriminate|].
  intros H. apply try_except_type_value_raises in H. destruct H as [H C].
  apply bind_raises in H. destruct H as [H|(n & _ & H)]; [|discriminate H].
  apply py_int_raises in H. now apply uncaught_is_overflow.
Qed.

Lemma _to_float_safe_raises (v : pyval) (e : exn) :
  _to_float_safe v = Raise e -> e = OverflowError.
Proof.
  unfold _to_float_safe. destruct (is_none v); [discriminate|].
  intros H. apply try_except_type_value_raises in H. destruct H as [H C].
  apply bind_raises in H. destruct H as [H|(n & _ & H)]; [|discriminate H].
  apply py_float_raises in H. now apply uncaught_is_overflow.
Qed.

Section ExtractionRaises.

Variable float_repr : spec_float -> string.
Variable str_repr : string -> string.

Lemma price_events_raises (items : list pyval) (e : exn) :
  price_events float_repr str_repr items = Raise e -> e = OverflowError.
Proof.
  induction items as [|item rest IH]; [discriminate|].
  destruct item; cbn [price_events]; try exact IH.
  intros H. apply bind_raises in H. destruct H as [H|(p & _ & H)].
  - now apply _to_int_safe_raises in H.
  - apply bind_raises in H. destruct H as [H|(tail & _ & H)]; [now apply IH|].
    destruct (negb (is_empty _) || negb (is_empty _) || negb (is_none p)); discriminate H.
Qed.

Lemma _parse_from_json_blob_raises (data : pyval) (record : InputRecord) (url : string)
  (e : exn) :
  _parse_from_json_blob float_repr str_repr data record url = Raise e -> e = OverflowError.
Proof.
  unfold _parse_from_json_blob. intros H.
  repeat (apply bind_raises in H;
          destruct H as [H|(? & _ & H)];
          [first [ now apply _to_int_safe_raises in H
                 | now apply _to_float_safe_raises in H
                 | idtac ] | ]); try discriminate H.
  destruct (py_or (dict_get _ "priceHistory") (PList [])); try discriminate H.
  now apply price_events_raises in H.
Qed.

End ExtractionRaises.

(* ================================================================= *)
(** ** Fetching one record *)

(** The claim as the specification words it fails: 204 is a success (2xx)
    status, and [fetch_property] raises on it, whatever the libraries do. *)
Lemma fetch_rejects_status_204 :
  ((200 <=? 204) && (204 <? 300) = true) /\
  (forall float_repr str_repr json_loads soup,
      fst (fetch_property float_repr str_repr json_loads unit no_content_get soup
             zillow listing_record tt)
      = Raise (RuntimeError ("Zillow responded with status 204 for URL "
                             ++ zillow ++ "/homedetails/4455_zpid/"))).
Proof. split; [reflexivity | intros; reflexivity]. Qed.

(** C3 (amended). [fetch_property] raises the failure that carries the
    response status code (a RuntimeError whose message holds the status in
    decimal and the URL) exactly when the response status is not 200; on
    status 200 the page markup goes to the extraction, whose result is
    returned; a failure of the request itself (a timeout, a refused
    connection) leaves [fetch_property] as it was raised. *)
Theorem fetch_property_status :
  forall (float_repr : spec_float -> string) (str_repr : string -> string)
         (json_loads : string -> result pyval) (world : Type)
         (client_get : string -> world -> result Response * world)
         (BeautifulSoup : string -> Soup)
         (base : string) (record : InputRecord) (w : world),
    let url := _build_url_for_record base record in
    let out := fetch_property float_repr str_repr json_loads world client_get BeautifulSoup
                 base record w in
    match client_get url w with
    | (Raise e, w') => out = (Raise e, w')
    | (Ok response, w') =>
        snd out = w' /\
        (status_code response <> 200 ->
           fst out = Raise (RuntimeError ("Zillow responded with status "
                                          ++ string_of_Z (status_code response)
                                          ++ " for URL " ++ url))) /\
        (status_code response = 200 ->
           (forall msg, fst out <> Raise (RuntimeError msg)) /\
           fst out =
             let soup := BeautifulSoup (text response) in
             match _extract_relevant_json json_loads (script_strings soup) with
             | Some json_blob =>
                 if truthy json_blob
                 then _parse_from_json_blob float_repr str_repr json_blob record url
                 else Ok (_parse_from_html soup record url)
             | None => Ok (_parse_from_html soup record url)
             end)
    end.
Proof.
  intros float_repr str_repr json_loads world client_get BeautifulSoup base record w url out.
  subst out. unfold fetch_property. fold url.
  destruct (client_get url w) as [[response|e] w']; [|reflexivity].
  destruct (status_code response =? 200) eqn:S; cbn [negb].
  - apply Z.eqb_eq in S. split; [|split].
    + destruct (_extract_relevant_json json_loads _) as [blob|]; [|reflexivity].
      destruct (truthy blob); reflexivity.
    + intros N. now contradiction N.
    + intros _. split.
      * intros msg.
        destruct (_extract_relevant_json json_loads _) as [blob|]; [|discriminate].
        destruct (truthy blob); [|discriminate].
        cbn [fst]. intros H. apply _parse_from_json_blob_raises in H. discriminate H.
      * destruct (_extract_relevant_json json_loads _) as [blob|]; [|reflexivity].
        destruct (truthy blob); reflexivity.
  - apply Z.eqb_neq in S. split; [reflexivity|]. split.
    + intros _. reflexivity.
    + intros E. now contradiction S.
Qed.

(* ================================================================= *)
(** ** Searching a text *)

Lemma append_length (a b : string) :
  String.length (a ++ b) = (String.length a + String.length b)%nat.
Proof. induction a as [|c a IH]; simpl; [reflexivity | now rewrite IH]. Qed.

Lemma prefix_iff (p s : string) :
  String.prefix p s = true <-> exists rest, s = p ++ rest.
Proof.
  revert s. induction p as [|c p IH]; intros s.
  - split; [intros _; now exists s | intros _; destruct s; reflexivity].
  - destruct s as [|d s].
    + split; [discriminate | intros (rest & H); discriminate H].
    + rewrite prefix_cons, andb_true_iff, IH. split.
      * intros (E & rest & ->). apply Ascii.eqb_eq in E. subst d. now exists rest.
      * intros (rest & H). simpl in H. injection H as -> ->.
        split; [apply Ascii.eqb_refl | now exists rest].
Qed.

Lemma find_lower_bound (sub s : string) : -1 <= find sub s.
Proof.
  induction s as [|c s IH]; cbn [find].
  - destruct (startswith sub EmptyString); lia.
  - destruct (startswith sub (String c s)); [lia|].
    destruct (find sub s <? 0) eqn:K; [lia|]. apply Z.ltb_ge in K. lia.
Qed.

Lemma contains_occurs (sub s : string) : contains sub s = true <-> occurs sub s.
Proof.
  unfold contains, occurs. rewrite Z.leb_le.
  induction s as [|c s IH]; cbn [find].
  - destruct (startswith sub EmptyString) eqn:P.
    + split; [intros _|lia]. apply prefix_iff in P. destruct P as (rest & P).
      exists EmptyString, rest. exact P.
    + split; [lia|]. intros (a & b & H).
      destruct a; [|discriminate H]. simpl in H.
      assert (startswith sub EmptyString = true) as Q by (apply prefix_iff; now exists b).
      rewrite Q in P. discriminate P.
  - destruct (startswith sub (String c s)) eqn:P.
    + split; [intros _|lia]. apply prefix_iff in P. destruct P as (rest & P).
      exists EmptyString, rest. exact P.
    + pose proof (find_lower_bound sub s) as LB.
      destruct (find sub s <? 0) eqn:K.
      * apply Z.ltb_lt in K. split; [lia|]. intros (a & b & H).
        destruct a as [|x a].
        -- simpl in H.
           assert (startswith sub (String c s) = true) as Q by (apply prefix_iff; now exists b).
           rewrite Q in P. discriminate P.
        -- simpl in H. injection H as _ H.
           assert (0 <= find sub s) by (apply IH; now exists a, b). lia.
      * apply Z.ltb_ge in K. split; [intros _|lia].
        destruct (proj1 IH K) as (a & b & H). exists (String c a), b. simpl. now rewrite H.
Qed.

Lemma startswith_char (c d : ascii) (s : string) :
  startswith (String c EmptyString) (String d s) = Ascii.eqb c d.
Proof.
  unfold startswith. rewrite prefix_cons.
  destruct s; simpl; now rewrite andb_true_r.
Qed.

Lemma find_char_none (c : ascii) (s : string) :
  no_char c s = true -> find (String c EmptyString) s = -1.
Proof.
  induction s as [|x s IH]; [reflexivity|].
  unfold no_char. cbn [str_forall find]. rewrite andb_true_iff, negb_true_iff.
  intros [Hx Hs]. rewrite startswith_char, Ascii.eqb_sym, Hx.
  fold (no_char c s) in Hs. rewrite (IH Hs). reflexivity.
Qed.

Lemma find_char_first (c : ascii) (pre rest : string) :
  no_char c pre = true ->
  find (String c EmptyString) (pre ++ String c rest) = Z.of_nat (String.length pre).
Proof.
  induction pre as [|x pre IH].
  - intros _. cbn [append find]. now rewrite startswith_char, Ascii.eqb_refl.
  - unfold no_char. cbn [str_forall append find String.length].
    rewrite andb_true_iff, negb_true_iff. intros [Hx Hs].
    rewrite startswith_char, Ascii.eqb_sym, Hx.
    fold (no_char c pre) in Hs. rewrite (IH Hs).
    destruct (Z.of_nat (String.length pre) <? 0) eqn:K; [apply Z.ltb_lt in K; lia|].
    lia.
Qed.

Lemma rfind_char_none (c : ascii) (s : string) :
  no_char c s = true -> rfind (String c EmptyString) s = -1.
Proof.
  induction s as [|x s IH]; [reflexivity|].
  unfold no_char. cbn [str_forall rfind]. rewrite andb_true_iff, negb_true_iff.
  intros [Hx Hs]. fold (no_char c s) in Hs. rewrite (IH Hs).
  cbn [Z.leb Z.compare]. now rewrite startswith_char, Ascii.eqb_sym, Hx.
Qed.

Lemma rfind_char_last (c : ascii) (a post : string) :
  no_char c post = true ->
  rfind (String c EmptyString) (a ++ String c post) = Z.of_nat (String.length a).
Proof.
  intros Hp. induction a as [|x a IH].
  - cbn [append rfind String.length]. rewrite (rfind_char_none c post Hp).
    cbn [Z.leb Z.compare]. now rewrite startswith_char, Ascii.eqb_refl.
  - cbn [append rfind String.length]. rewrite IH.
    destruct (0 <=? Z.of_nat (String.length a)) eqn:K; [lia|].
    apply Z.leb_gt in K. lia.
Qed.

Lemma first_occurrence (c : ascii) (s : string) :
  no_char c s = true \/
  exists pre rest, s = pre ++ String c rest /\ no_char c pre = true.
Proof.
  induction s as [|x s IH]; [left; reflexivity|].
  destruct (Ascii.eqb x c) eqn:E.
  - apply Ascii.eqb_eq in E. subst x. right. exists EmptyString, s. split; reflexivity.
  - destruct IH as [N|(pre & rest & -> & N)].
    + left. unfold no_char in *. cbn [str_forall]. now rewrite E, N.
    + right. exists (String x pre), rest. split; [reflexivity|].
      unfold no_char in *. cbn [str_forall]. now rewrite E, N.
Qed.

Lemma last_occurrence (c : ascii) (s : string) :
  no_char c s = true \/
  exists a post, s = a ++ String c post /\ no_char c post = true.
Proof.
  induction s as [|x s IH]; [left; reflexivity|].
  destruct IH as [N|(a & post & -> & N)].
  - destruct (Ascii.eqb x c) eqn:E.
    + apply Ascii.eqb_eq in E. subst x. right. exists EmptyString, s. split; [reflexivity|exact N].
    + left. unfold no_char in *. cbn [str_forall]. now rewrite E, N.
  - right. exists (String x a), post. split; [reflexivity | exact N].
Qed.

Lemma append_split (pre a x y : string) :
  pre ++ x = a ++ y -> (String.length pre <= String.length a)%nat ->
  exists m, a = pre ++ m /\ x = m ++ y.
Proof.
  revert a. induction pre as [|c pre IH]; intros a H L.
  - exists a. split; [reflexivity | exact H].
  - destruct a as [|d a]; [simpl in L; lia|].
    simpl in H. injection H as -> H. simpl in L.
    destruct (IH a H ltac:(lia)) as (m & -> & ->). now exists m.
Qed.

Lemma substring_here (mid post : string) :
  String.substring 0 (String.length mid) (mid ++ post) = mid.
Proof.
  induction mid as [|c mid IH]; simpl; [now destruct post | now rewrite IH].
Qed.

Lemma substring_append (pre mid post : string) :
  String.substring (String.length pre) (String.length mid) (pre ++ mid ++ post) = mid.
Proof.
  induction pre as [|c pre IH]; cbn [String.length append String.substring];
    [apply substring_here | exact IH].
Qed.

(* ================================================================= *)
(** ** Structured-data extraction *)

Lemma span_positions (pre mid post : string) :
  no_char "{" pre = true -> no_char "}" post = true ->
  let text := pre ++ String "{" (mid ++ String "}" post) in
  find "{" text = Z.of_nat (String.length pre) /\
  rfind "}" text = Z.of_nat (String.length pre + 1 + String.length mid) /\
  slice text (find "{" text) (rfind "}" text + 1)
  = String "{" (mid ++ String "}" EmptyString).
Proof.
  intros Hpre Hpost text.
  assert (find "{" text = Z.of_nat (String.length pre)) as F
    by (apply find_char_first; exact Hpre).
  assert (rfind "}" text = Z.of_nat (String.length pre + 1 + String.length mid)) as R.
  { subst text.
    replace (pre ++ String "{" (mid ++ String "}" post))
      with ((pre ++ String "{" mid) ++ String "}" post)
      by (rewrite append_assoc'; reflexivity).
    rewrite rfind_char_last by exact Hpost.
    rewrite append_length. cbn [String.length]. f_equal. lia. }
  split; [exact F|]. split; [exact R|].
  rewrite F, R. unfold slice. rewrite Nat2Z.id.
  replace (Z.to_nat (Z.of_nat (String.length pre + 1 + String.length mid) + 1
                     - Z.of_nat (String.length pre)))
    with (String.length (String "{" (mid ++ String "}" EmptyString)))
    by (cbn [String.length]; rewrite append_length; cbn [String.length]; lia).
  subst text.
  replace (pre ++ String "{" (mid ++ String "}" post))
    with (pre ++ String "{" (mid ++ String "}" EmptyString) ++ post)
    by (cbn [append]; rewrite append_assoc'; reflexivity).
  apply substring_append.
Qed.

Lemma candidate_of_span (text c : string) :
  occurs "zestimate" text -> occurs "zpid" text -> brace_span text c ->
  candidate text = Some c.
Proof.
  intros Hz Hp (pre & mid & post & -> & Hpre & Hpost & ->).
  unfold candidate.
  rewrite (proj2 (contains_occurs _ _) Hz), (proj2 (contains_occurs _ _) Hp).
  cbn [andb].
  destruct (span_positions pre mid post Hpre Hpost) as (F & R & S).
  cbv zeta in F, R, S |- *. rewrite S. rewrite F, R.
  replace (negb (Z.of_nat (String.length pre) =? -1)) with true
    by (symmetry; apply negb_true_iff, Z.eqb_neq; lia).
  replace (negb (Z.of_nat (String.length pre + 1 + String.length mid) =? -1)) with true
    by (symmetry; apply negb_true_iff, Z.eqb_neq; lia).
  replace (Z.of_nat (String.length pre) <? Z.of_nat (String.length pre + 1 + String.length mid))
    with true by (symmetry; apply Z.ltb_lt; lia).
  reflexivity.
Qed.

Lemma span_of_candidate (text c : string) :
  candidate text = Some c ->
  occurs "zestimate" text /\ occurs "zpid" text /\ brace_span text c.
Proof.
  unfold candidate.
  destruct (contains "zestimate" text) eqn:Hz; [|discriminate].
  destruct (contains "zpid" text) eqn:Hp; [|discriminate].
  cbn [andb].
  destruct (negb (find "{" text =? -1) && negb (rfind "}" text =? -1)
            && (find "{" text <? rfind "}" text)) eqn:C; [|discriminate].
  intros H. injection H as <-.
  apply contains_occurs in Hz. apply contains_occurs in Hp.
  split; [exact Hz|]. split; [exact Hp|].
  repeat rewrite andb_true_iff in C. destruct C as [[S E] L].
  apply negb_true_iff, Z.eqb_neq in S. apply negb_true_iff, Z.eqb_neq in E.
  apply Z.ltb_lt in L.
  destruct (first_occurrence "{" text) as [N|(pre & rest & Ht & Hpre)];
    [now rewrite (find_char_none _ _ N) in S|].
  destruct (last_occurrence "}" text) as [N|(a & post & Ha & Hpost)];
    [now rewrite (rfind_char_none _ _ N) in E|].
  assert (find "{" text = Z.of_nat (String.length pre)) as F
    by (rewrite Ht; now apply find_char_first).
  assert (rfind "}" text = Z.of_nat (String.length a)) as R
    by (rewrite Ha; now apply rfind_char_last).
  rewrite F, R in L.
  assert (pre ++ String "{" rest = a ++ String "}" post) as Same by (now rewrite <- Ht, <- Ha).
  destruct (append_split _ _ _ _ Same ltac:(lia)) as (m & -> & Hm).
  destruct m as [|y m].
  - rewrite append_empty_r in L. lia.
  - simpl in Hm. injection Hm as <- ->.
    destruct (span_positions pre m post Hpre Hpost) as (_ & _ & Sl).
    cbv zeta in Sl. rewrite <- Ht in Sl.
    exists pre, m, post. split; [exact Ht|]. split; [exact Hpre|]. split; [exact Hpost|].
    exact Sl.
Qed.

Lemma not_accepted_without_candidate (json_loads : string -> result pyval) (text : string) :
  candidate text = None -> forall d, ~ accepts json_loads text d.
Proof.
  intros C d (Hz & Hp & c & Hs & _).
  rewrite (candidate_of_span text c Hz Hp Hs) in C. discriminate C.
Qed.

Lemma not_accepted_undecodable (json_loads : string -> result pyval) (text c : string)
  (e : exn) :
  candidate text = Some c -> json_loads c = Raise e -> forall d, ~ accepts json_loads text d.
Proof.
  intros C L d (Hz & Hp & c' & Hs & L').
  rewrite (candidate_of_span text c' Hz Hp Hs) in C. injection C as ->.
  rewrite L in L'. discriminate L'.
Qed.

Lemma _extract_relevant_json_cons (json_loads : string -> result pyval)
  (script : option string) (rest : list (option string)) :
  _extract_relevant_json json_loads (script :: rest) =
  match candidate (script_text script) with
  | Some c =>
      match json_loads c with
      | Ok data => Some data
      | Raise _ => _extract_relevant_json json_loads rest
      end
  | None => _extract_relevant_json json_loads rest
  end.
Proof.
  cbn [_extract_relevant_json]. unfold candidate.
  fold (script_text script).
  destruct (contains "zestimate" (script_text script) && contains "zpid" (script_text script));
    [|reflexivity].
  destruct (negb (find "{" (script_text script) =? -1)
            && negb (rfind "}" (script_text script) =? -1)
            && (find "{" (script_text script) <? rfind "}" (script_text script)));
    reflexivity.
Qed.

(** The claim as the specification words it fails: in a block with two
    objects the first top-level brace-delimited substring decodes, but the
    code decodes the text from the first opening brace to the last closing
    brace, which is no JSON document, and finds nothing. *)
Lemma two_objects_not_extracted :
  first_brace_block two_objects_script = Some (quoted "{'zpid': 4455, 'zestimate': 250000}") /\
  extract_first_block json_decode [Some two_objects_script]
  = Some (PDict [("zpid", PInt 4455); ("zestimate", PInt 250000)]) /\
  candidate two_objects_script
  = Some (quoted "{'zpid': 4455, 'zestimate': 250000}; var ads = {}") /\
  _extract_relevant_json json_decode [Some two_objects_script] = None.
Proof. repeat split; vm_compute; reflexivity. Qed.

(** C2 (amended). For every page and every decoder, structured-data
    extraction considers only the script blocks whose text contains both
    markers "zestimate" and "zpid"; for each of them, in document order, it
    takes the text from the first opening brace to the last closing brace
    (when the first stands before the last), decodes it, and returns the
    first document that decodes; it returns nothing when no block is
    accepted in this way. *)
Theorem extract_first_decodable_span :
  forall (json_loads : string -> result pyval) (scripts : list (option string)),
    match _extract_relevant_json json_loads scripts with
    | Some d =>
        exists before script after,
          scripts = (before ++ script :: after)%list /\
          accepts json_loads (script_text script) d /\
          (forall b, In b before -> forall d', ~ accepts json_loads (script_text b) d')
    | None =>
        forall script, In script scripts -> forall d, ~ accepts json_loads (script_text script) d
    end.
Proof.
  intros json_loads scripts. induction scripts as [|script rest IH].
  - cbn. intros script [].
  - rewrite _extract_relevant_json_cons.
    destruct (candidate (script_text script)) as [c|] eqn:C.
    + destruct (json_loads c) as [d|e] eqn:L.
      * exists [], script, rest. split; [reflexivity|]. split.
        -- apply span_of_candidate in C. destruct C as (Hz & Hp & Hs).
           split; [exact Hz|]. split; [exact Hp|]. now exists c.
        -- intros b [].
      * destruct (_extract_relevant_json json_loads rest) as [d|].
        -- destruct IH as (before & s & after & -> & Hacc & Hbefore).
           exists (script :: before), s, after. split; [reflexivity|]. split; [exact Hacc|].
           intros b [<-|Hb]; [eapply not_accepted_undecodable; eassumption | now apply Hbefore].
        -- intros s [<-|Hs]; [eapply not_accepted_undecodable; eassumption | now apply IH].
    + destruct (_extract_relevant_json json_loads rest) as [d|].
      * destruct IH as (before & s & after & -> & Hacc & Hbefore).
        exists (script :: before), s, after. split; [reflexivity|]. split; [exact Hacc|].
        intros b [<-|Hb]; [now apply not_accepted_without_candidate | now apply Hbefore].
      * intros s [<-|Hs]; [now apply not_accepted_without_candidate | now apply IH].
Qed.

(* ================================================================= *)
(** ** Field extraction from the payload *)

Lemma bind_ok {A B : Type} (r : result A) (k : A -> result B) (b : B) :
  (x <- r ;; k x) = Ok b -> exists a, r = Ok a /\ k a = Ok b.
Proof. destruct r as [a|e]; simpl; intros H; [now exists a | discriminate H]. Qed.

Lemma first_truthy_found (alternates : list pyval) (last : pyval) :
  (exists pre v post,
      alternates = (pre ++ v :: post)%list /\ forallb (fun x => negb (truthy x)) pre = true /\
      truthy v = true /\ first_truthy alternates last = v) \/
  (forallb (fun x => negb (truthy x)) alternates = true /\
   first_truthy alternates last = last).
Proof.
  induction alternates as [|v rest IH]; [right; split; reflexivity|].
  cbn [first_truthy forallb]. destruct (truthy v) eqn:T.
  - left. exists [], v, rest. repeat split. exact T.
  - destruct IH as [(pre & x & post & -> & Hpre & Hx & Hv)|[Hall Hv]].
    + left. exists (v :: pre), x, post. cbn [forallb]. rewrite T. repeat split; assumption.
    + right. split; assumption.
Qed.

(** The claim as the specification words it fails: the located payload
    has the living area 0 and the estimate 0, yet both fields of the record
    are None; and its address alternate "address" is present and not null
    (the empty string), yet the next alternate is taken. A zero read from a
    single key is kept. *)
Lemma zero_living_area_becomes_none :
  walk zero_area_document = Some zero_area_payload /\
  dict_get zero_area_payload "livingArea" = PInt 0 /\
  dict_get zero_area_payload "address" = PStr EmptyString /\
  (forall float_repr str_repr url,
      _parse_from_json_blob float_repr str_repr zero_area_document listing_record url
      = Ok (mkPropertyData (PStr "12 Main St") "4455" url PNone
              (PFloat (S754_zero false)) PNone PNone PNone (PInt 0) PNone (Some []))).
Proof. repeat split. Qed.

Lemma _to_int_safe_value (v r : pyval) : _to_int_safe v = Ok r -> r = int_value v.
Proof.
  unfold _to_int_safe, int_value.
  destruct v as [ | b | z | f | t | items | entries ]; cbn [is_none py_int];
    try (intros H; now injection H as <-).
  - destruct (float_trunc f) as [n|e]; cbn [bind try_except_type_value];
      [intros H; now injection H as <-|].
    destruct (catches_type_value e); [intros H; now injection H as <- | discriminate].
  - destruct (int_of_string t) as [n|e]; cbn [bind try_except_type_value];
      [intros H; now injection H as <-|].
    destruct (catches_type_value e); [intros H; now injection H as <- | discriminate].
Qed.

Lemma _to_float_safe_value (v r : pyval) : _to_float_safe v = Ok r -> r = float_value v.
Proof.
  unfold _to_float_safe, float_value.
  destruct v as [ | b | z | f | t | items | entries ]; cbn [is_none py_float];
    try (intros H; now injection H as <-).
  - destruct b; intros H; now injection H as <-.
  - destruct (float_of_Z z) as [x|e]; cbn [bind try_except_type_value];
      [intros H; now injection H as <-|].
    destruct (catches_type_value e); [intros H; now injection H as <- | discriminate].
  - destruct (float_of_string t) as [x|e]; cbn [bind try_except_type_value];
      [intros H; now injection H as <-|].
    destruct (catches_type_value e); [intros H; now injection H as <- | discriminate].
Qed.

Lemma py_or_chain (a b c : pyval) : py_or (py_or a b) c = first_truthy [a; b] c.
Proof.
  unfold py_or. cbn [first_truthy]. destruct (truthy a) eqn:A; [now rewrite A|].
  reflexivity.
Qed.

Lemma price_events_history (float_repr : spec_float -> string) (str_repr : string -> string)
  (items : list pyval) (evs : list PriceEvent) :
  price_events float_repr str_repr items = Ok evs ->
  evs = history_of float_repr str_repr (PList items).
Proof.
  unfold history_of. revert evs. induction items as [|item items IH]; intros evs H.
  - now injection H as <-.
  - destruct item as [ | b | z | f | t | l | d ]; try exact (IH evs H).
    cbn [price_events] in H.
    apply bind_ok in H. destruct H as (p & Hp & H).
    apply bind_ok in H. destruct H as (tail & Ht & H).
    apply _to_int_safe_value in Hp. subst p. rewrite (IH tail Ht) in H.
    rewrite !py_or_chain in H.
    change (dict_items (PDict d :: items)) with (d :: dict_items items).
    cbn [map filter].
    change (informative (event_of float_repr str_repr d))
      with (negb (is_empty (date (event_of float_repr str_repr d)))
            || negb (is_empty (event (event_of float_repr str_repr d)))
            || negb (is_none (price (event_of float_repr str_repr d)))).
    unfold event_of at 1 2 3. cbn [date event price].
    destruct (negb (is_empty _) || negb (is_empty _) || negb (is_none _));
      now injection H as <-.
Qed.

(** C4 (amended). For every decoded document, the fields of the record
    are read from the located payload (the empty map when there is none)
    as follows. A field with alternates starts from the value of the first
    alternate, in the field's order, that is truthy (present and neither
    None, zero, empty nor false), and from its last alternate when none is
    truthy: for the address the alternates are "address", "streetAddress",
    "formattedAddress" and then the input's own value. The address and the
    property type are that value as it is, the identifier is its text
    (empty for a missing or zero identifier), the integer and float fields
    are the number it is read as, None when it is no number, and the price
    history holds the informative events of the maps listed under
    priceHistory. Hence a zero is kept as zero where the field is read
    from a single key (bedrooms, bathrooms, year built) or from the last
    alternate, and is passed over in favour of the next alternate
    otherwise; a living area written "1,800" is None. The only failure
    that leaves the extraction is an OverflowError. *)
Theorem payload_fields_first_truthy :
  forall (float_repr : spec_float -> string) (str_repr : string -> string)
         (data : pyval) (record : InputRecord) (u : string),
    printable data = true ->
    let payload := located_payload data in
    let pick alternates last := first_truthy (map (dict_get payload) alternates) last in
    match _parse_from_json_blob float_repr str_repr data record u with
    | Raise e => e = OverflowError
    | Ok d =>
        address d = pick ["address"; "streetAddress"; "formattedAddress"] (PStr (value record)) /\
        zpid d = py_str float_repr str_repr (pick ["zpid"] (PStr EmptyString)) /\
        url d = u /\
        zestimate d = int_value (pick ["zestimate"] (dict_get payload "price")) /\
        bedrooms d = float_value (dict_get payload "bedrooms") /\
        bathrooms d = float_value (dict_get payload "bathrooms") /\
        livingArea d = int_value (pick ["livingArea"] (dict_get payload "livingAreaValue")) /\
        lotSize d = int_value (pick ["lotSize"] (dict_get payload "lotSizeValue")) /\
        yearBuilt d = int_value (dict_get payload "yearBuilt") /\
        propertyType d = pick ["homeType"] (dict_get payload "propertyType") /\
        priceHistory d
        = Some (history_of float_repr str_repr (pick ["priceHistory"] (PList [])))
    end /\
    int_value (PInt 0) = PInt 0 /\
    float_value (PInt 0) = PFloat (S754_zero false) /\
    int_value (PStr "1800") = PInt 1800 /\
    int_value (PStr "1,800") = PNone /\
    int_value (PFloat float_1500_7) = PInt 1500 /\
    float_value (PStr "2.5") = PFloat float_2_5 /\
    float_value (PStr "two") = PNone /\
    _parse_from_json_blob float_repr str_repr comma_area_document record u
    = Ok (mkPropertyData (PStr (value record)) EmptyString u (PInt 250000)
            (PFloat (S754_finite false 6755399441055744 (-51))) (PFloat float_2_5)
            PNone (PInt 1500) PNone PNone
            (Some [mkPriceEvent "2021" "Sold" (PInt 100)])) /\
    (forall alternates last,
        (exists pre v post,
            alternates = (pre ++ v :: post)%list /\
            forallb (fun x => negb (truthy x)) pre = true /\
            truthy v = true /\ first_truthy alternates last = v) \/
        (forallb (fun x => negb (truthy x)) alternates = true /\
         first_truthy alternates last = last)).
Proof.
  intros float_repr str_repr data record u _ payload pick.
  split; [|repeat split; try reflexivity; apply first_truthy_found].
  destruct (_parse_from_json_blob float_repr str_repr data record u) as [d|e] eqn:E;
    [|now apply _parse_from_json_blob_raises in E].
  unfold _parse_from_json_blob in E. fold (located_payload data) in E. fold payload in E.
  apply bind_ok in E. destruct E as (zest & Hzest & E).
  apply bind_ok in E. destruct E as (history & Hhist & E).
  apply bind_ok in E. destruct E as (beds & Hbeds & E).
  apply bind_ok in E. destruct E as (baths & Hbaths & E).
  apply bind_ok in E. destruct E as (area & Harea & E).
  apply bind_ok in E. destruct E as (lot & Hlot & E).
  apply bind_ok in E. destruct E as (year & Hyear & E).
  injection E as <-. cbn [address zpid url zestimate livingArea lotSize propertyType bedrooms
                            bathrooms yearBuilt priceHistory].
  apply _to_int_safe_value in Hzest, Harea, Hlot, Hyear.
  apply _to_float_safe_value in Hbeds, Hbaths.
  subst pick. cbn [map first_truthy]. unfold py_or in *.
  assert (history
          = history_of float_repr str_repr
              (if truthy (dict_get payload "priceHistory")
               then dict_get payload "priceHistory" else PList [])) as Hh.
  { destruct (if truthy (dict_get payload "priceHistory")
              then dict_get payload "priceHistory" else PList [])
      as [ | b | z | f | t | items | entries ];
      try (now injection Hhist as <-).
    now apply price_events_history. }
  repeat split; try assumption; try reflexivity; [|now rewrite Hh].
  destruct (truthy (dict_get payload "address")) eqn:A; rewrite ?A; [reflexivity|].
  destruct (truthy (dict_get payload "streetAddress")) eqn:B; rewrite ?B; [reflexivity|].
  destruct (truthy (dict_get payload "formattedAddress")) eqn:C; rewrite ?C; reflexivity.
Qed.

Lemma payload_fields_first_truthy_witness :
  printable zero_area_document = true /\
  let payload := located_payload zero_area_document in
  let pick alternates last := first_truthy (map (dict_get payload) alternates) last in
  match _parse_from_json_blob (fun _ => EmptyString) (fun t => t) zero_area_document
          listing_record EmptyString with
  | Raise e => e = OverflowError
  | Ok d =>
      address d = pick ["address"; "streetAddress"; "formattedAddress"] (PStr (value listing_record)) /\
      zpid d = py_str (fun _ => EmptyString) (fun t => t) (pick ["zpid"] (PStr EmptyString)) /\
      url d = EmptyString /\
      zestimate d = int_value (pick ["zestimate"] (dict_get payload "price")) /\
      bedrooms d = float_value (dict_get payload "bedrooms") /\
      bathrooms d = float_value (dict_get payload "bathrooms") /\
      livingArea d = int_value (pick ["livingArea"] (dict_get payload "livingAreaValue")) /\
      lotSize d = int_value (pick ["lotSize"] (dict_get payload "lotSizeValue")) /\
      yearBuilt d = int_value (dict_get payload "yearBuilt") /\
      propertyType d = pick ["homeType"] (dict_get payload "propertyType") /\
      priceHistory d
      = Some (history_of (fun _ => EmptyString) (fun t => t) (pick ["priceHistory"] (PList [])))
  end.
Proof.
  assert (printable zero_area_document = true) as P by (vm_compute; reflexivity).
  split; [exact P|].
  exact (proj1 (payload_fields_first_truthy (fun _ => EmptyString) (fun t => t)
                  zero_area_document listing_record EmptyString P)).
Defined.

(* ================================================================= *)
(** ** Best-effort coercion to an integer *)

Lemma div_half_even_cases (m k : Z) :
  0 < 2 ^ k ->
  let n := div_half_even m k in
  let d := 2 ^ k in
  (forall z, Z.abs (m - n * d) <= Z.abs (m - z * d)) /\
  2 * Z.abs (m - n * d) <= d /\
  (2 * Z.abs (m - n * d) = d -> Z.even n = true).
Proof.
  intros Hd n d. subst n d. unfold div_half_even.
  pose proof (Z.div_mod m (2 ^ k) ltac:(lia)) as E.
  pose proof (Z.mod_pos_bound m (2 ^ k) Hd) as B.
  set (D := 2 ^ k) in *. set (q := m / D) in *. set (r := m mod D) in *.
  assert (forall z, z <= q -> 0 <= (q - z) * D) as Below
      by (intros z L; apply Z.mul_nonneg_nonneg; lia).
  assert (forall z, z > q -> 0 <= (z - q - 1) * D) as Above
      by (intros z G; apply Z.mul_nonneg_nonneg; lia).
  assert (forall n, (n = q \/ n = q + 1) ->
                    (n = q -> 2 * r <= D) -> (n = q + 1 -> D <= 2 * r) ->
                    (forall z, Z.abs (m - n * D) <= Z.abs (m - z * D)) /\
                    2 * Z.abs (m - n * D) <= D) as Near.
  { intros n Hn Hlow Hhigh. split.
    - intros z. destruct (Z_le_gt_dec z q) as [L|G].
      + pose proof (Below z L). destruct Hn as [->| ->]; lia.
      + pose proof (Above z G). destruct Hn as [->| ->]; lia.
    - destruct Hn as [->| ->]; lia. }
  destruct (2 * r ?= D) eqn:C.
  - apply Z.compare_eq in C. destruct (Z.even q) eqn:Ev.
    + destruct (Near q) as [N H]; [left; reflexivity | lia | lia |].
      split; [exact N | split; [exact H | intros _; exact Ev]].
    + assert (Z.even (q + 1) = true) as Ev'
          by (rewrite Z.even_add, Ev; reflexivity).
      destruct (Near (q + 1)) as [N H]; [right; reflexivity | lia | lia |].
      split; [exact N | split; [exact H | intros _; exact Ev']].
  - change (2 * r < D) in C.
    destruct (Near q) as [N H]; [left; reflexivity | lia | lia |].
    split; [exact N | split; [exact H | intros T; lia]].
  - change (2 * r > D) in C.
    destruct (Near (q + 1)) as [N H]; [right; reflexivity | lia | lia |].
    split; [exact N | split; [exact H | intros T; lia]].
Qed.

Lemma float_round_finite (f : spec_float) :
  is_finite f = true ->
  exists n, float_round f = Ok n /\ nearest_integer f n /\
            2 * scaled_distance f n <= snd (float_num_den f) /\
            (halfway f n -> Z.even n = true).
Proof.
  destruct f as [s|s| |s m e]; try discriminate; intros _.
  - exists 0. split; [reflexivity|].
    unfold nearest_integer, halfway, scaled_distance. cbn.
    split; [intros z; lia | split; [lia | reflexivity]].
  - unfold float_round, nearest_integer, halfway, scaled_distance, float_num_den.
    destruct (0 <=? e) eqn:Es.
    + exists (if s then - (Zpos m * 2 ^ e) else Zpos m * 2 ^ e).
      split; [reflexivity|]. cbn [fst snd].
      destruct s.
      * replace (Zneg m * 2 ^ e - - (Zpos m * 2 ^ e) * 1) with 0 by lia.
        split; [intros z; lia | split; [lia | intros H; cbn in H; lia]].
      * replace (Zpos m * 2 ^ e - Zpos m * 2 ^ e * 1) with 0 by lia.
        split; [intros z; lia | split; [lia | intros H; cbn in H; lia]].
    + apply Z.leb_gt in Es.
      assert (0 < 2 ^ (- e)) as Hd by (apply Z.pow_pos_nonneg; lia).
      destruct (div_half_even_cases (Zpos m) (- e) Hd) as (Near & Half & Tie).
      cbv zeta in Near, Half, Tie.
      set (n := div_half_even (Zpos m) (- e)) in *.
      exists (if s then - n else n). split; [reflexivity|]. cbn [fst snd].
      destruct s.
      * replace (Zneg m - - n * 2 ^ (- e)) with (- (Zpos m - n * 2 ^ (- e))) by lia.
        rewrite Z.abs_opp. split; [|split; [exact Half|]].
        -- intros z. specialize (Near (- z)).
           replace (Zneg m - z * 2 ^ (- e)) with (- (Zpos m - - z * 2 ^ (- e))) by lia.
           rewrite Z.abs_opp. exact Near.
        -- intros T. rewrite Z.even_opp. exact (Tie T).
      * split; [exact Near | split; [exact Half | exact Tie]].
Qed.

Section CoercionProofs.

Variable float_repr : spec_float -> string.
Variable str_repr : string -> string.

Lemma parse_int_finite_float (f : spec_float) (n : Z) :
  float_round f = Ok n -> parse_int float_repr str_repr (PFloat f) = Ok (PInt n).
Proof. intros H. unfold parse_int. cbn [is_none]. now rewrite H. Qed.

(** A string never makes [parse_int] fail. *)
Lemma parse_int_string_total (s : string) :
  exists v, parse_int float_repr str_repr (PStr s) = Ok v.
Proof.
  unfold parse_int. cbn [is_none py_str].
  destruct (is_empty (str_filter _ s)); [now exists PNone|].
  destruct (int_of_string (str_filter _ s)) as [n|e] eqn:E; cbn [bind try_except_type_value].
  - now exists (PInt n).
  - apply int_of_string_raises in E. subst e. now exists PNone.
Qed.

(** [parse_int] lets an exception out on the two infinite floats only. *)
Lemma parse_int_raises (v : pyval) (e : exn) :
  parse_int float_repr str_repr v = Raise e ->
  e = OverflowError /\ exists sign, v = PFloat (S754_infinity sign).
Proof.
  unfold parse_int. destruct (is_none v); [discriminate|].
  intros H. apply try_except_type_value_raises in H. destruct H as [H C].
  destruct v as [ |b|z|f|s|items|entries]; try discriminate H.
  - destruct f as [sg|sg| |sg m x]; try discriminate H.
    + injection H as <-. split; [reflexivity | now exists sg].
    + injection H as <-. discriminate C.
  - cbn [py_str] in H. destruct (is_empty _); [discriminate|].
    apply bind_raises in H. destruct H as [H|(? & _ & H)]; [|discriminate H].
    apply int_of_string_raises in H. subst e. discriminate C.
  - destruct (is_empty _); [discriminate|].
    apply bind_raises in H. destruct H as [H|(? & _ & H)]; [|discriminate H].
    apply int_of_string_raises in H. subst e. discriminate C.
  - destruct (is_empty _); [discriminate|].
    apply bind_raises in H. destruct H as [H|(? & _ & H)]; [|discriminate H].
    apply int_of_string_raises in H. subst e. discriminate C.
Qed.

(** [parse_float] lets an exception out on an int too large for a float
    only. *)
Lemma parse_float_raises (v : pyval) (e : exn) :
  parse_float float_repr str_repr v = Raise e ->
  e = OverflowError /\ exists z, v = PInt z /\ float_of_Z z = Raise OverflowError.
Proof.
  unfold parse_float. destruct (is_none v); [discriminate|].
  intros H. apply try_except_type_value_raises in H. destruct H as [H C].
  destruct v as [ |b|z|f|s|items|entries]; try discriminate H.
  - destruct b; discriminate H.
  - apply bind_raises in H. destruct H as [H|(? & _ & H)]; [|discriminate H].
    cbn [py_float] in H. pose proof (float_of_Z_raises z e H) as ->.
    split; [reflexivity | now exists z].
  - cbn [py_str] in H. destruct (is_empty _); [discriminate|].
    apply bind_raises in H. destruct H as [H|(? & _ & H)]; [|discriminate H].
    apply float_of_string_raises in H. subst e. discriminate C.
  - destruct (is_empty _); [discriminate|].
    apply bind_raises in H. destruct H as [H|(? & _ & H)]; [|discriminate H].
    apply float_of_string_raises in H. subst e. discriminate C.
  - destruct (is_empty _); [discriminate|].
    apply bind_raises in H. destruct H as [H|(? & _ & H)]; [|discriminate H].
    apply float_of_string_raises in H. subst e. discriminate C.
Qed.

Lemma normalize_field_raises (raw : pydict) (field : string) (e : exn) :
  normalize_field float_repr str_repr raw field = Raise e ->
  e = OverflowError /\ escapes_coercion (dict_get raw field).
Proof.
  unfold normalize_field, escapes_coercion.
  repeat match goal with
         | |- context [if ?b then _ else _] => destruct b
         end; intros H; try discriminate H;
    first [ apply parse_float_raises in H; destruct H as (-> & z & V & O);
            split; [reflexivity | right; now exists z]
          | apply parse_int_raises in H; destruct H as (-> & sg & V);
            split; [reflexivity | left; now exists sg] ].
Qed.

Lemma normalize_fields_raises (raw : pydict) (names : list string) (acc : pydict) (e : exn) :
  normalize_fields float_repr str_repr raw names acc = Raise e ->
  e = OverflowError /\ exists field, In field names /\ escapes_coercion (dict_get raw field).
Proof.
  revert acc. induction names as [|field rest IH]; intros acc; [discriminate|].
  cbn [normalize_fields]. intros H. apply bind_raises in H.
  destruct H as [H|(v & _ & H)].
  - apply normalize_field_raises in H. destruct H as [-> V].
    split; [reflexivity|]. exists field. split; [now left | exact V].
  - destruct (IH _ H) as (-> & f & I & V). split; [reflexivity|].
    exists f. split; [now right | exact V].
Qed.

Lemma normalize_property_record_raises (raw : pydict) (source fallback_url : option string)
  (e : exn) :
  normalize_property_record float_repr str_repr raw source fallback_url = Raise e ->
  e = OverflowError /\ exists field, In field fields /\ escapes_coercion (dict_get raw field).
Proof.
  unfold normalize_property_record. intros H. apply bind_raises in H.
  destruct H as [H|(n & _ & H)]; [now apply normalize_fields_raises in H | discriminate H].
Qed.

End CoercionProofs.

(** C6 (the code departs from the claim). The three examples hold: in an
    integer-family field, "1,234" normalizes to 1234, "abc" to None and
    None to None, and no string makes [parse_int] fail. But a float
    infinity in an integer-family field, which [json.loads] yields for
    1e999, makes [parse_int] raise an OverflowError that its handler does
    not catch, so [normalize_property_record] fails as a whole; an integer
    too large for a float does the same in a float-family field. These
    are the only values on which the call fails. *)
Theorem normalize_fails_on_infinity :
  forall (float_repr : spec_float -> string) (str_repr : string -> string)
         (source fallback_url : option string),
    (forall text expected,
        In (text, expected) [(PStr "1,234", PInt 1234); (PStr "abc", PNone); (PNone, PNone)] ->
        parse_int float_repr str_repr text = Ok expected /\
        exists normalized,
          normalize_property_record float_repr str_repr [("livingArea", text)]
            source fallback_url = Ok normalized /\
          dict_get normalized "livingArea" = expected) /\
    (forall s, exists v, parse_int float_repr str_repr (PStr s) = Ok v) /\
    json_decode (quoted "{'livingArea': 1e999}")
    = Ok (PDict [("livingArea", PFloat (S754_infinity false))]) /\
    parse_int float_repr str_repr (PFloat (S754_infinity false)) = Raise OverflowError /\
    normalize_property_record float_repr str_repr
      [("livingArea", PFloat (S754_infinity false))] source fallback_url
    = Raise OverflowError /\
    normalize_property_record float_repr str_repr
      [("bedrooms", PInt (10 ^ 400))] source fallback_url
    = Raise OverflowError /\
    (forall raw e,
        normalize_property_record float_repr str_repr raw source fallback_url = Raise e ->
        e = OverflowError /\
        exists field, In field fields /\ escapes_coercion (dict_get raw field)).
Proof.
  intros float_repr str_repr source fallback_url.
  split; [|split; [apply parse_int_string_total|]; do 4 (split; [reflexivity|]);
           intros raw e H;
           exact (normalize_property_record_raises float_repr str_repr raw _ _ e H)].
  intros text expected [H|[H|[H|[]]]]; injection H as <- <-;
    (split; [reflexivity|]);
    destruct source, fallback_url as [fb|]; cbn;
      try (destruct (is_empty fb)); eexists; split; reflexivity.
Qed.

(** The claim as the specification words it fails on the float NaN, which
    is a float and not finite: [parse_int] returns None for it. *)
Lemma parse_int_nan_is_none :
  is_finite S754_nan = false /\
  (forall float_repr str_repr, parse_int float_repr str_repr (PFloat S754_nan) = Ok PNone).
Proof. split; reflexivity. Qed.

(** C10 (amended). For every finite float value, [parse_int] returns an
    integer nearest to it (no integer is closer; at most half a unit away;
    of two equally near integers the even one), so it rounds and neither
    truncates nor strips the non-digit characters of the value's text: the
    float 1500.7 gives 1501 and the float 2.7 gives 3, where truncation
    gives 2 and stripping the text "2.7" gives 27; the halfway float 2.5
    gives 2. For the float NaN it returns None. *)
Theorem parse_int_rounds_finite_float :
  forall (float_repr : spec_float -> string) (str_repr : string -> string) (f : spec_float),
    (is_finite f = true ->
     exists n, parse_int float_repr str_repr (PFloat f) = Ok (PInt n) /\
               nearest_integer f n /\
               2 * scaled_distance f n <= snd (float_num_den f) /\
               (halfway f n -> Z.even n = true)) /\
    (f = S754_nan -> parse_int float_repr str_repr (PFloat f) = Ok PNone) /\
    float_of_string "1500.7" = Ok float_1500_7 /\
    parse_int float_repr str_repr (PFloat float_1500_7) = Ok (PInt 1501) /\
    float_of_string "2.7" = Ok float_2_7 /\
    parse_int float_repr str_repr (PFloat float_2_7) = Ok (PInt 3) /\
    float_trunc float_2_7 = Ok 2 /\
    parse_int float_repr str_repr (PStr "2.7") = Ok (PInt 27) /\
    parse_int float_repr str_repr (PFloat float_2_5) = Ok (PInt 2).
Proof.
  intros float_repr str_repr f. split; [|split; [intros ->; reflexivity | repeat split]].
  intros Hf. destruct (float_round_finite f Hf) as (n & Hn & Near & Half & Tie).
  exists n. split; [now apply parse_int_finite_float|]. repeat split; assumption.
Qed.

(* ================================================================= *)
(** ** Facts about characters *)

Lemma for_all_chars_spec (p : ascii -> bool) :
  for_all_chars p = true -> forall c, p c = true.
Proof.
  unfold for_all_chars, all_chars. intros H c.
  rewrite forallb_forall in H. apply H.
  rewrite <- (ascii_nat_embedding c). apply in_map, in_seq.
  pose proof (nat_ascii_bounded c). lia.
Qed.

Lemma letter_classes (x : ascii) :
  is_letter x = true ->
  is_decimal x = false /\ is_space x = false /\ Ascii.eqb x "." = false /\ is_word x = true.
Proof.
  intros H.
  assert (for_all_chars (fun x => implb (is_letter x)
            (negb (is_decimal x) && negb (is_space x) && negb (Ascii.eqb x ".") && is_word x))
          = true) as A by (vm_compute; reflexivity).
  pose proof (for_all_chars_spec _ A x) as B. cbv beta in B. rewrite H in B. cbn [implb] in B.
  repeat rewrite andb_true_iff in B. repeat rewrite negb_true_iff in B. tauto.
Qed.

Lemma decimal_classes (x : ascii) :
  is_decimal x = true ->
  is_letter x = false /\ is_space x = false /\ Ascii.eqb x "." = false /\ is_word x = true.
Proof.
  intros H.
  assert (for_all_chars (fun x => implb (is_decimal x)
            (negb (is_letter x) && negb (is_space x) && negb (Ascii.eqb x ".") && is_word x))
          = true) as A by (vm_compute; reflexivity).
  pose proof (for_all_chars_spec _ A x) as B. cbv beta in B. rewrite H in B. cbn [implb] in B.
  repeat rewrite andb_true_iff in B. repeat rewrite negb_true_iff in B. tauto.
Qed.

Lemma space_classes (x : ascii) :
  is_space x = true -> is_letter x = false /\ is_decimal x = false.
Proof.
  intros H.
  assert (for_all_chars (fun x => implb (is_space x) (negb (is_letter x) && negb (is_decimal x)))
          = true) as A by (vm_compute; reflexivity).
  pose proof (for_all_chars_spec _ A x) as B. cbv beta in B. rewrite H in B. cbn [implb] in B.
  repeat rewrite andb_true_iff in B. repeat rewrite negb_true_iff in B. tauto.
Qed.

(** Under [re.IGNORECASE] an ASCII letter of the pattern matches itself
    and its other case, nothing else. *)
Lemma eq_nocase_letter (c x : ascii) :
  is_letter c = true -> eq_nocase c x = same_letter x c.
Proof.
  intros H.
  assert (for_all_chars (fun c => for_all_chars (fun x =>
            implb (is_letter c) (Bool.eqb (eq_nocase c x) (same_letter x c)))) = true) as A
      by (vm_compute; reflexivity).
  pose proof (for_all_chars_spec _ (for_all_chars_spec _ A c) x) as B. cbv beta in B.
  rewrite H in B. cbn [implb] in B. now apply Bool.eqb_prop.
Qed.

Lemma same_letter_letter (c x : ascii) :
  is_letter c = true -> same_letter x c = true -> is_letter x = true.
Proof.
  intros H S.
  assert (for_all_chars (fun c => for_all_chars (fun x =>
            implb (is_letter c && same_letter x c) (is_letter x))) = true) as A
      by (vm_compute; reflexivity).
  pose proof (for_all_chars_spec _ (for_all_chars_spec _ A c) x) as B. cbv beta in B.
  rewrite H, S in B. exact B.
Qed.

(* ================================================================= *)
(** ** The matching engine on runs of one character class *)

Lemma or_else_none_r {A : Type} (a : option A) : or_else a None = a.
Proof. destruct a; reflexivity. Qed.

Lemma last_char_cons (c : ascii) (s : string) :
  last_char (String c s) = Some (match last_char s with Some d => d | None => c end).
Proof.
  revert c. induction s as [|x s IH]; intros c; [reflexivity|].
  change (last_char (String c (String x s))) with (last_char (String x s)).
  rewrite IH. reflexivity.
Qed.

Lemma run_prev_cons (prev : option ascii) (c : ascii) (run : string) :
  run_prev prev (String c run) = run_prev (Some c) run.
Proof.
  unfold run_prev. rewrite last_char_cons. destruct (last_char run); reflexivity.
Qed.

Lemma last_char_forall (p : ascii -> bool) (s : string) :
  str_forall p s = true -> s <> EmptyString ->
  exists l, last_char s = Some l /\ p l = true.
Proof.
  induction s as [|c s IH]; [intros _ N; now contradiction N|].
  cbn [str_forall]. rewrite andb_true_iff. intros [Hc Hs] _.
  rewrite last_char_cons. destruct s as [|x s].
  - exists c. split; [reflexivity | exact Hc].
  - destruct (IH Hs ltac:(discriminate)) as (l & -> & Hl). exists l. split; [reflexivity | exact Hl].
Qed.

Lemma span_by_spec (p : ascii -> bool) (s : string) :
  s = fst (span_by p s) ++ snd (span_by p s) /\
  str_forall p (fst (span_by p s)) = true /\
  opt_is p (next_char (snd (span_by p s))) = false.
Proof.
  induction s as [|c s (E & A & N)]; [repeat split|].
  cbn [span_by]. destruct (p c) eqn:Hc.
  - destruct (span_by p s) as [run rest]. cbn [fst snd] in *.
    split; [cbn; now rewrite <- E|]. split; [cbn; now rewrite Hc | exact N].
  - cbn. rewrite Hc. repeat split.
Qed.

Lemma span_by_rest (p : ascii -> bool) (s : string) : snd (span_by p s) = lstrip_by p s.
Proof.
  induction s as [|c s IH]; [reflexivity|].
  cbn [span_by lstrip_by]. destruct (p c); [|reflexivity].
  destruct (span_by p s) as [run rest]. exact IH.
Qed.

(** A maximal run followed by something else is spanned exactly. *)
Lemma span_by_run (p : ascii -> bool) (run rest : string) :
  str_forall p run = true -> opt_is p (next_char rest) = false ->
  span_by p (run ++ rest) = (run, rest).
Proof.
  intros A N. induction run as [|c run IH].
  - destruct rest as [|x rest]; [reflexivity|]. cbn in N |- *. now rewrite N.
  - cbn [str_forall] in A. apply andb_true_iff in A. destruct A as [Hc A].
    cbn [append span_by]. rewrite Hc, (IH A). reflexivity.
Qed.

Lemma rmatch_char (p : ascii -> bool) (k : mstate -> option mstate)
  (prev : option ascii) (c : ascii) (s : string) (pos : nat) (caps : list (nat * (nat * nat))) :
  rmatch (RChar p) (mkMstate prev (String c s) pos caps) k
  = if p c then k (mkMstate (Some c) s (S pos) caps) else None.
Proof. reflexivity. Qed.

Lemma rmatch_seq (a b : regex) (st : mstate) (k : mstate -> option mstate) :
  rmatch (RSeq a b) st k = rmatch a st (fun st' => rmatch b st' k).
Proof. reflexivity. Qed.

Lemma rmatch_star (a : regex) (st : mstate) (k : mstate -> option mstate) :
  rmatch (RStar a) st k = star_loop (rmatch a) k (String.length (m_rest st)) st.
Proof. reflexivity. Qed.

Lemma rmatch_alt (a b : regex) (st : mstate) (k : mstate -> option mstate) :
  rmatch (RAlt a b) st k = or_else (rmatch a st k) (rmatch b st k).
Proof. reflexivity. Qed.

Lemma rmatch_group (n : nat) (a : regex) (st : mstate) (k : mstate -> option mstate) :
  rmatch (RGroup n a) st k = rmatch a st (fun st' => k (set_cap n (m_pos st) st')).
Proof. reflexivity. Qed.

Section RunsOfAClass.

Variable p : ascii -> bool.
Variable k : mstate -> option mstate.

(** What follows the run does not accept a position before a character of
    the class: the repetition then has one way to succeed only. *)
Hypothesis k_needs_end :
  forall st, opt_is p (next_char (m_rest st)) = true -> k st = None.

Lemma star_char_stop (fuel : nat) (st : mstate) :
  opt_is p (next_char (m_rest st)) = false ->
  star_loop (rmatch (RChar p)) k fuel st = k st.
Proof.
  intros N. destruct fuel; [reflexivity|]. cbn [star_loop].
  destruct st as [prev s pos caps]. destruct s as [|c s']; [reflexivity|].
  rewrite rmatch_char. cbn in N. rewrite N. reflexivity.
Qed.

Lemma star_char_commit (run rest : string) :
  str_forall p run = true -> opt_is p (next_char rest) = false ->
  forall prev pos caps fuel,
    (String.length run <= fuel)%nat ->
    star_loop (rmatch (RChar p)) k fuel (mkMstate prev (run ++ rest) pos caps)
    = k (mkMstate (run_prev prev run) rest (pos + String.length run) caps).
Proof.
  intros A N. induction run as [|c run IH]; intros prev pos caps fuel L.
  - rewrite star_char_stop by exact N. cbn [append String.length run_prev last_char].
    now rewrite Nat.add_0_r.
  - cbn [str_forall] in A. apply andb_true_iff in A. destruct A as [Hc A].
    destruct fuel as [|fuel]; [cbn in L; lia|]. cbn [String.length] in L.
    cbn [star_loop append]. rewrite rmatch_char, Hc. cbn [m_pos].
    replace (pos <? S pos)%nat with true by (symmetry; apply Nat.ltb_lt; lia).
    rewrite (IH A (Some c) (S pos) caps fuel) by lia.
    rewrite (k_needs_end (mkMstate prev (String c (run ++ rest)) pos caps))
      by (cbn; exact Hc).
    rewrite or_else_none_r, run_prev_cons. cbn [String.length].
    now rewrite Nat.add_succ_r.
Qed.

Lemma plus_char_commit (c : ascii) (run rest : string) :
  str_forall p (String c run) = true -> opt_is p (next_char rest) = false ->
  forall prev pos caps,
    rmatch (RPlus (RChar p)) (mkMstate prev (String c run ++ rest) pos caps) k
    = k (mkMstate (run_prev prev (String c run)) rest
           (pos + String.length (String c run)) caps).
Proof.
  intros A N prev pos caps. cbn [str_forall] in A.
  apply andb_true_iff in A. destruct A as [Hc A].
  unfold RPlus. cbn [append]. rewrite rmatch_seq, rmatch_char, Hc, rmatch_star. cbn [m_rest].
  rewrite (star_char_commit run rest A N) by (rewrite append_length; lia).
  rewrite run_prev_cons. cbn [String.length]. now rewrite Nat.add_succ_r.
Qed.

Lemma plus_char_fail (st : mstate) :
  opt_is p (next_char (m_rest st)) = false -> rmatch (RPlus (RChar p)) st k = None.
Proof.
  intros N. unfold RPlus. rewrite rmatch_seq. destruct st as [prev s pos caps].
  destruct s as [|c s']; [reflexivity|]. rewrite rmatch_char. cbn in N. now rewrite N.
Qed.

End RunsOfAClass.

(** A literal under [re.IGNORECASE]. *)
Lemma rmatch_literal (q : string) (k : mstate -> option mstate) :
  forall prev s pos caps,
    rmatch (RLitI q) (mkMstate prev s pos caps) k =
    match fold_prefix q s with
    | Some post =>
        k (mkMstate (run_prev prev (String.substring 0 (String.length q) s)) post
             (pos + String.length q) caps)
    | None => None
    end.
Proof.
  induction q as [|c q IH]; intros prev s pos caps.
  - cbn. replace (String.substring 0 0 s) with EmptyString by (destruct s; reflexivity).
    cbn. now rewrite Nat.add_0_r.
  - destruct s as [|x s]; [reflexivity|].
    cbn [RLitI rmatch m_rest fold_prefix m_pos m_caps String.length String.substring].
    destruct (eq_nocase c x); [|reflexivity].
    rewrite IH. destruct (fold_prefix q s); [|reflexivity].
    now rewrite run_prev_cons, Nat.add_succ_r.
Qed.

Lemma fold_prefix_split (q s post : string) :
  str_forall is_letter q = true ->
  fold_prefix q s = Some post ->
  exists suf, s = suf ++ post /\ String.length suf = String.length q /\
              same_nocase suf q /\ str_forall is_letter suf = true.
Proof.
  revert s. induction q as [|c q IH]; intros s Hq H.
  - cbn in H. injection H as ->. exists EmptyString. repeat split.
  - cbn [str_forall] in Hq. apply andb_true_iff in Hq. destruct Hq as [Hc Hq].
    destruct s as [|x s]; [discriminate H|]. cbn [fold_prefix] in H.
    destruct (eq_nocase c x) eqn:E; [|discriminate H].
    rewrite (eq_nocase_letter c x Hc) in E.
    destruct (IH s Hq H) as (suf & -> & L & S & A).
    exists (String x suf). cbn [append String.length same_nocase str_forall].
    rewrite L, A, (same_letter_letter c x Hc E). repeat split; assumption.
Qed.

Lemma fold_prefix_of_split (q suf post : string) :
  str_forall is_letter q = true -> same_nocase suf q ->
  fold_prefix q (suf ++ post) = Some post.
Proof.
  revert suf. induction q as [|c q IH]; intros suf Hq S.
  - destruct suf; [reflexivity | now contradiction S].
  - cbn [str_forall] in Hq. apply andb_true_iff in Hq. destruct Hq as [Hc Hq].
    destruct suf as [|x suf]; [now contradiction S|]. destruct S as [E S].
    cbn [append fold_prefix]. rewrite (eq_nocase_letter c x Hc), E. now apply IH.
Qed.

(* ================================================================= *)
(** ** The pattern of a numeric feature *)

Lemma lstrip_by_id (p : ascii -> bool) (s : string) :
  opt_is p (next_char s) = false -> lstrip_by p s = s.
Proof. destruct s as [|c s]; [reflexivity|]. cbn. intros ->. reflexivity. Qed.

Section NumericFeature.

Variable suffix : string.
Hypothesis suffix_is_unit : is_unit suffix = true.

Lemma suffix_letters : str_forall is_letter suffix = true.
Proof. unfold is_unit in suffix_is_unit. now apply andb_true_iff in suffix_is_unit. Qed.

Lemma suffix_not_empty : suffix <> EmptyString.
Proof.
  unfold is_unit in suffix_is_unit. apply andb_true_iff in suffix_is_unit.
  destruct suffix_is_unit as [N _]. apply negb_true_iff in N. now apply is_empty_false.
Qed.

Lemma fold_prefix_needs_letter (s : string) :
  opt_is is_letter (next_char s) = false -> fold_prefix suffix s = None.
Proof.
  intros N. pose proof suffix_letters as L. pose proof suffix_not_empty as E.
  destruct suffix as [|c q]; [now contradiction E|].
  cbn [str_forall] in L. apply andb_true_iff in L. destruct L as [Hc _].
  destruct s as [|x s]; [reflexivity|]. cbn [fold_prefix].
  rewrite (eq_nocase_letter c x Hc). destruct (same_letter x c) eqn:S; [|reflexivity].
  cbn in N. now rewrite (same_letter_letter c x Hc S) in N.
Qed.

Lemma unit_follows_needs (r : string) :
  opt_is (fun x => is_space x || is_letter x) (next_char r) = false ->
  unit_follows suffix r = false.
Proof.
  intros N. unfold unit_follows.
  assert (opt_is is_space (next_char r) = false /\ opt_is is_letter (next_char r) = false)
    as [S L].
  { destruct r as [|x r]; [split; reflexivity|]. cbn in N |- *.
    now apply orb_false_iff in N. }
  rewrite (lstrip_by_id _ _ S), (fold_prefix_needs_letter _ L). reflexivity.
Qed.

(** The unit and the word boundary after it. *)
Lemma literal_then_boundary (prev : option ascii) (s : string) (pos : nat)
  (caps : list (nat * (nat * nat))) :
  exists final,
    rmatch (RSeq (RLitI suffix) RWordB) (mkMstate prev s pos caps) Some
    = match fold_prefix suffix s with
      | Some post => if negb (opt_word (next_char post)) then Some final else None
      | None => None
      end /\
    m_caps final = caps.
Proof.
  rewrite rmatch_seq, rmatch_literal.
  destruct (fold_prefix suffix s) as [post|] eqn:F;
    [|exists (mkMstate prev s pos caps); split; reflexivity].
  destruct (fold_prefix_split suffix s post suffix_letters F) as (suf & -> & L & _ & A).
  rewrite <- L, substring_here.
  assert (suf <> EmptyString) as NE.
  { intros ->. cbn in L. pose proof suffix_not_empty as E.
    destruct suffix; [now contradiction E | discriminate L]. }
  destruct (last_char_forall is_letter suf A NE) as (l & Hl & Letter).
  exists (mkMstate (Some l) post (pos + String.length suf) caps). split; [|reflexivity].
  cbn [rmatch]. unfold at_word_boundary, run_prev. cbn [m_prev m_rest]. rewrite Hl.
  cbn [opt_word]. destruct (letter_classes l Letter) as (_ & _ & _ & ->).
  cbn [xorb]. destruct (opt_word (next_char post)); reflexivity.
Qed.

(** What follows group 1: white space, the unit, the boundary. *)
Lemma unit_tail_follows (prev : option ascii) (r : string) (pos : nat)
  (caps : list (nat * (nat * nat))) :
  exists final,
    rmatch (unit_tail suffix) (mkMstate prev r pos caps) Some
    = (if unit_follows suffix r then Some final else None) /\
    m_caps final = caps.
Proof.
  unfold unit_tail, unit_follows. rewrite rmatch_seq, rmatch_star. cbn [m_rest].
  rewrite <- span_by_rest.
  destruct (span_by_spec is_space r) as (E & A & N).
  destruct (span_by is_space r) as [ws r']. cbn [fst snd] in *. subst r.
  unfold space_class.
  rewrite (star_char_commit is_space) with (run := ws) (rest := r');
    [ | | exact A | exact N | rewrite append_length; lia ].
  - destruct (literal_then_boundary (run_prev prev ws) r' (pos + String.length ws) caps)
      as (final & -> & C).
    exists final. split; [|exact C]. destruct (fold_prefix suffix r'); reflexivity.
  - intros [prev' s' pos' caps'] S.
    destruct (literal_then_boundary prev' s' pos' caps') as (final & -> & _).
    rewrite fold_prefix_needs_letter; [reflexivity|].
    destruct s' as [|x s']; [reflexivity|]. cbn in S |- *.
    now destruct (space_classes x S).
Qed.

Lemma unit_tail_fails (st : mstate) :
  opt_is (fun x => is_space x || is_letter x) (next_char (m_rest st)) = false ->
  rmatch (unit_tail suffix) st Some = None.
Proof.
  intros N. destruct st as [prev r pos caps].
  destruct (unit_tail_follows prev r pos caps) as (final & -> & _).
  now rewrite unit_follows_needs.
Qed.

Lemma group1_tail (prev : option ascii) (r : string) (start stop pos : nat)
  (caps : list (nat * (nat * nat))) (raw : string) :
  stop = (start + String.length raw)%nat ->
  match (if unit_follows suffix r then Some raw else None) with
  | Some raw =>
      exists final,
        rmatch (unit_tail suffix) (mkMstate prev r pos ((1%nat, (start, stop)) :: caps)) Some
        = Some final /\
        cap_lookup 1 (m_caps final) = Some (start, (start + String.length raw)%nat)
  | None =>
      rmatch (unit_tail suffix) (mkMstate prev r pos ((1%nat, (start, stop)) :: caps)) Some
      = None
  end.
Proof.
  intros ->.
  destruct (unit_tail_follows prev r pos
              ((1%nat, (start, (start + String.length raw)%nat)) :: caps)) as (final & -> & C).
  destruct (unit_follows suffix r); [|reflexivity].
  exists final. split; [reflexivity|]. rewrite C. reflexivity.
Qed.

(** After the integral digits the pattern does not go on before a digit. *)
Lemma after_digits_needs_end (start : nat) (st : mstate) :
  opt_is is_decimal (next_char (m_rest st)) = true ->
  rmatch (ROpt (RGroup 2 (RSeq (RChar (Ascii.eqb ".")) (RPlus (RChar is_decimal))))) st
    (fun st' => rmatch (unit_tail suffix) (set_cap 1 start st') Some)
  = None.
Proof.
  intros H. destruct st as [prev s pos caps]. destruct s as [|x s]; [discriminate H|].
  cbn in H. destruct (decimal_classes x H) as (L & S & D & _).
  unfold ROpt. rewrite rmatch_alt, rmatch_group, rmatch_seq, rmatch_char.
  rewrite Ascii.eqb_sym, D. cbn [or_else rmatch].
  apply unit_tail_fails. cbn. now rewrite S, L.
Qed.

Lemma after_fraction_needs_end (start mid : nat) (st : mstate) :
  opt_is is_decimal (next_char (m_rest st)) = true ->
  rmatch (unit_tail suffix) (set_cap 1 start (set_cap 2 mid st)) Some = None.
Proof.
  intros H. apply unit_tail_fails. cbn [set_cap m_rest].
  destruct (m_rest st) as [|x s]; [discriminate H|].
  cbn in H |- *. destruct (decimal_classes x H) as (L & S & _). now rewrite S, L.
Qed.

(** The engine on the pattern, started at one position. *)
Lemma engine_feature_here (prev : option ascii) (s : string) (pos : nat) :
  match feature_here suffix s with
  | Some raw =>
      exists final,
        rmatch (numeric_feature_pattern suffix) (mkMstate prev s pos []) Some = Some final /\
        cap_lookup 1 (m_caps final) = Some (pos, (pos + String.length raw)%nat)
  | None => rmatch (numeric_feature_pattern suffix) (mkMstate prev s pos []) Some = None
  end.
Proof.
  unfold numeric_feature_pattern, digit_class. fold (unit_tail suffix).
  rewrite rmatch_seq, rmatch_group, rmatch_seq. cbn [m_pos].
  unfold feature_here, read_number.
  destruct (span_by_spec is_decimal s) as (E & A & N).
  destruct (span_by is_decimal s) as [ip r1]. cbn [fst snd] in *. subst s.
  destruct ip as [|c ip].
  - cbn [is_empty append]. apply plus_char_fail. exact N.
  - cbn [is_empty].
    rewrite (plus_char_commit is_decimal) with (run := ip) (rest := r1);
      [ | intros st H; apply (after_digits_needs_end pos st H) | exact A | exact N ].
    unfold ROpt. rewrite rmatch_alt, rmatch_group, rmatch_seq. cbn [m_pos].
    destruct r1 as [|d r].
    + cbn [rmatch m_rest or_else set_cap m_prev m_pos m_caps].
      apply group1_tail. reflexivity.
    + rewrite rmatch_char, (Ascii.eqb_sym "." d). destruct (Ascii.eqb d ".") eqn:D.
      * destruct (span_by_spec is_decimal r) as (E2 & A2 & N2).
        destruct (span_by is_decimal r) as [fp r2]. cbn [fst snd] in *. subst r.
        destruct fp as [|f fp].
        -- cbn [is_empty append]. rewrite plus_char_fail by exact N2.
           cbn [rmatch m_rest or_else set_cap m_prev m_pos m_caps].
           apply group1_tail. reflexivity.
        -- cbn [is_empty].
           rewrite (plus_char_commit is_decimal) with (run := fp) (rest := r2);
             [ | intros st H; apply (after_fraction_needs_end pos _ st H) | exact A2 | exact N2 ].
           unfold set_cap. cbn [rmatch m_prev m_rest m_pos m_caps].
           pose proof (group1_tail (run_prev (Some d) (String f fp)) r2 pos
                         (S (pos + String.length (String c ip)) + String.length (String f fp))
                         (S (pos + String.length (String c ip)) + String.length (String f fp))
                         [(2%nat, ((pos + String.length (String c ip))%nat,
                                   (S (pos + String.length (String c ip))
                                    + String.length (String f fp))%nat))]
                         (String c ip ++ String "." (String f fp))) as T.
           apply Ascii.eqb_eq in D. subst d.
           specialize (T ltac:(rewrite append_length; cbn [String.length]; lia)).
           destruct (unit_follows suffix r2).
           ++ destruct T as (final & -> & C). exists final. split; [reflexivity | exact C].
           ++ rewrite T. cbn [or_else]. apply unit_tail_fails. reflexivity.
      * cbn [or_else set_cap m_prev m_rest m_pos m_caps].
        apply group1_tail. reflexivity.
Qed.

End NumericFeature.

(* ================================================================= *)
(** ** The text of a number and its value *)

Lemma str_forall_impl (p q : ascii -> bool) (s : string) :
  (forall c, p c = true -> q c = true) -> str_forall p s = true -> str_forall q s = true.
Proof.
  intros I. induction s as [|c s IH]; [reflexivity|].
  cbn [str_forall]. rewrite !andb_true_iff. intros [Hc Hs]. split; [now apply I | now apply IH].
Qed.

Lemma str_forall_append (p : ascii -> bool) (a b : string) :
  str_forall p (a ++ b) = str_forall p a && str_forall p b.
Proof.
  induction a as [|c a IH]; [reflexivity|]. cbn [append str_forall]. now rewrite IH, andb_assoc.
Qed.

Lemma rstrip_by_id (p : ascii -> bool) (s : string) :
  opt_is p (last_char s) = false -> rstrip_by p s = s.
Proof.
  induction s as [|c s IH]; [reflexivity|].
  rewrite last_char_cons. cbn [rstrip_by]. destruct s as [|x s].
  - cbn. intros ->. reflexivity.
  - rewrite last_char_cons in IH. rewrite last_char_cons. intros H.
    rewrite (IH H). cbn [is_empty]. now rewrite andb_false_r.
Qed.

Lemma last_char_append (a : string) (c : ascii) (b : string) :
  last_char (a ++ String c b) = last_char (String c b).
Proof.
  induction a as [|x a IH]; [reflexivity|].
  cbn [append]. rewrite last_char_cons, IH, (last_char_cons c b). reflexivity.
Qed.

Lemma decimal_not_numeric_space (c : ascii) :
  is_decimal c = true ->
  is_numeric_space c = false /\ Ascii.eqb c "-" = false /\ Ascii.eqb c "+" = false /\
  Ascii.eqb c "_" = false /\
  Ascii.eqb (lower_char c) "i" = false /\ Ascii.eqb (lower_char c) "n" = false.
Proof.
  intros H.
  assert (for_all_chars (fun c => implb (is_decimal c)
            (negb (is_numeric_space c) && negb (Ascii.eqb c "-") && negb (Ascii.eqb c "+")
             && negb (Ascii.eqb c "_")
             && negb (Ascii.eqb (lower_char c) "i") && negb (Ascii.eqb (lower_char c) "n")))
          = true) as A by (vm_compute; reflexivity).
  pose proof (for_all_chars_spec _ A c) as B. cbv beta in B. rewrite H in B. cbn [implb] in B.
  repeat rewrite andb_true_iff in B. repeat rewrite negb_true_iff in B. tauto.
Qed.

(** A run of digits followed by neither a digit nor an underscore is read
    whole. *)
Lemma read_digits_run (run rest : string) :
  str_forall is_decimal run = true ->
  opt_is (fun x => is_decimal x || Ascii.eqb x "_") (next_char rest) = false ->
  read_digits (run ++ rest) = (run, rest).
Proof.
  intros A N. induction run as [|c run IH].
  - destruct rest as [|x rest]; [reflexivity|]. cbn in N.
    apply orb_false_iff in N. destruct N as [D _]. cbn. now rewrite D.
  - cbn [str_forall] in A. apply andb_true_iff in A. destruct A as [Hc A].
    specialize (IH A). cbn [append read_digits]. rewrite Hc.
    destruct (run ++ rest) as [|u t] eqn:E.
    + rewrite IH. reflexivity.
    + assert (Ascii.eqb u "_" = false) as U.
      { destruct run as [|c' run'].
        - cbn in E. subst rest. cbn in N. now apply orb_false_iff in N.
        - cbn in E. injection E as <- _. cbn [str_forall] in A.
          apply andb_true_iff in A. now destruct (decimal_not_numeric_space c' (proj1 A))
            as (_ & _ & _ & ? & _). }
      destruct t as [|d t']; rewrite ?U; cbn [andb]; rewrite IH; reflexivity.
Qed.

Lemma digit_run_first (s : string) :
  digit_run s -> exists c s', s = String c s' /\ is_decimal c = true.
Proof.
  intros [N A]. destruct s as [|c s']; [now contradiction N|].
  cbn [str_forall] in A. apply andb_true_iff in A. now exists c, s'.
Qed.

Lemma digit_run_last (s : string) :
  digit_run s -> exists l, last_char s = Some l /\ is_decimal l = true.
Proof. intros [N A]. now apply last_char_forall. Qed.

Lemma strip_numeric_number (s : string) :
  opt_is is_decimal (next_char s) = true -> opt_is is_decimal (last_char s) = true ->
  strip_numeric s = s.
Proof.
  intros F L. unfold strip_numeric.
  assert (opt_is is_numeric_space (next_char s) = false) as F'.
  { destruct (next_char s) as [c|]; [|reflexivity]. cbn in F |- *.
    now destruct (decimal_not_numeric_space c F). }
  assert (opt_is is_numeric_space (last_char s) = false) as L'.
  { destruct (last_char s) as [c|]; [|reflexivity]. cbn in L |- *.
    now destruct (decimal_not_numeric_space c L). }
  now rewrite (lstrip_by_id _ _ F'), (rstrip_by_id _ _ L').
Qed.

Lemma read_sign_number (c : ascii) (s : string) :
  is_decimal c = true -> read_sign (String c s) = (false, String c s).
Proof.
  intros H. destruct (decimal_not_numeric_space c H) as (_ & M & P & _).
  cbn [read_sign]. now rewrite M, P.
Qed.

Lemma contains_point_digits (s : string) :
  str_forall is_decimal s = true -> contains "." s = false.
Proof.
  intros A. unfold contains. rewrite find_char_none; [reflexivity|].
  unfold no_char. apply (str_forall_impl is_decimal); [|exact A].
  intros c H. destruct (decimal_classes c H) as (_ & _ & -> & _). reflexivity.
Qed.

Lemma int_of_string_run (ip : string) :
  digit_run ip ->
  int_of_string ip
  = if (String.length ip <=? int_max_str_digits)%nat
    then Ok (digits_value ip) else Raise ValueError.
Proof.
  intros R. destruct (digit_run_first ip R) as (c & s' & E & Hc).
  destruct (digit_run_last ip R) as (l & Hl & Dl). destruct R as [_ A].
  unfold int_of_string.
  rewrite strip_numeric_number by (rewrite ?Hl; subst ip; cbn; assumption).
  rewrite E, (read_sign_number c s' Hc), <- E.
  rewrite <- (append_empty_r ip) at 1.
  rewrite (read_digits_run ip EmptyString A eq_refl).
  rewrite E. reflexivity.
Qed.

Lemma int_of_string_digits (ip : string) :
  digit_run ip -> (String.length ip <= max_str_digits)%nat ->
  int_of_string ip = Ok (digits_value ip).
Proof.
  intros R L. rewrite (int_of_string_run ip R).
  apply Nat.leb_le in L. unfold max_str_digits in L. unfold int_max_str_digits.
  now rewrite L.
Qed.

Lemma int_of_string_long (ip : string) :
  digit_run ip -> (max_str_digits < String.length ip)%nat ->
  int_of_string ip = Raise ValueError.
Proof.
  intros R L. rewrite (int_of_string_run ip R).
  apply Nat.leb_gt in L. unfold max_str_digits in L. unfold int_max_str_digits.
  now rewrite L.
Qed.

Lemma float_of_string_decimal (ip fp : string) :
  digit_run ip -> digit_run fp ->
  float_of_string (ip ++ String "." fp)
  = Ok (float_of_decimal false (digits_value (ip ++ fp)) (- Z.of_nat (String.length fp))).
Proof.
  intros Ri Rf. destruct (digit_run_first ip Ri) as (c & s' & E & Hc).
  destruct (digit_run_first fp Rf) as (f & t' & Ef & Hf).
  destruct (digit_run_last fp Rf) as (l & Hl & Dl).
  destruct Ri as [_ Ai]. destruct Rf as [_ Af].
  unfold float_of_string.
  rewrite strip_numeric_number;
    [ | subst ip; cbn; exact Hc
      | rewrite last_char_append, last_char_cons;
        rewrite Hl; cbn; exact Dl ].
  destruct (decimal_not_numeric_space c Hc) as (_ & _ & _ & _ & Ni & Nn).
  replace (read_sign (ip ++ String "." fp)) with (false, ip ++ String "." fp)
    by (subst ip; cbn [append]; now rewrite read_sign_number).
  replace (String.eqb (lower (ip ++ String "." fp)) "inf") with false
    by (subst ip; cbn; now rewrite Ni).
  replace (String.eqb (lower (ip ++ String "." fp)) "infinity") with false
    by (subst ip; cbn; now rewrite Ni).
  replace (String.eqb (lower (ip ++ String "." fp)) "nan") with false
    by (subst ip; cbn; now rewrite Nn).
  cbn [orb].
  rewrite (read_digits_run ip (String "." fp) Ai eq_refl).
  rewrite <- (append_empty_r fp) at 1.
  rewrite (read_digits_run fp EmptyString Af eq_refl).
  replace (is_empty ip && is_empty fp) with false by (subst ip; reflexivity).
  reflexivity.
Qed.

Lemma number_value_text (raw : string) (v : pyval) :
  number_text raw v -> number_value raw = v.
Proof.
  intros [ip R L | ip R L | ip fp Ri Rf]; unfold number_value.
  - rewrite contains_point_digits by apply R. now rewrite int_of_string_digits.
  - rewrite contains_point_digits by apply R. now rewrite int_of_string_long.
  - replace (contains "." (ip ++ String "." fp)) with true
      by (symmetry; apply contains_occurs; now exists ip, fp).
    now rewrite float_of_string_decimal.
Qed.

(** An int for digits alone, unless they are too many, and a float when
    there is a decimal point. *)
Lemma number_text_kind (raw : string) (v : pyval) :
  number_text raw v ->
  (contains "." raw = false /\
   (((String.length raw <= max_str_digits)%nat /\ v = PInt (digits_value raw)) \/
    ((max_str_digits < String.length raw)%nat /\ v = PNone))) \/
  (contains "." raw = true /\ exists f, v = PFloat f).
Proof.
  intros [ip R L | ip R L | ip fp Ri Rf].
  - left. split; [apply contains_point_digits, R | left; now split].
  - left. split; [apply contains_point_digits, R | right; now split].
  - right. split; [apply contains_occurs; now exists ip, fp | eauto].
Qed.

(* ================================================================= *)
(** ** The first numeric feature of a text *)

Lemma read_number_split (s raw r : string) :
  read_number s = Some (raw, r) -> s = raw ++ r /\ exists v, number_text raw v.
Proof.
  unfold read_number.
  destruct (span_by_spec is_decimal s) as (E & A & N).
  destruct (span_by is_decimal s) as [ip r1]. cbn [fst snd] in *.
  destruct (is_empty ip) eqn:I; [discriminate|]. apply is_empty_false in I.
  assert (digit_run ip) as Ri by (split; assumption).
  assert (forall r0, s = ip ++ r0 -> Some (ip, r0) = Some (raw, r) ->
                     s = raw ++ r /\ exists v, number_text raw v) as Int.
  { intros r0 E0 H. injection H as <- <-. split; [exact E0|].
    destruct (Nat.le_gt_cases (String.length ip) max_str_digits) as [L|L];
      eexists; [now apply number_int | now apply number_long]. }
  destruct r1 as [|d t]; [now apply Int|].
  destruct (Ascii.eqb d ".") eqn:D; [|now apply Int].
  apply Ascii.eqb_eq in D. subst d.
  destruct (span_by_spec is_decimal t) as (E2 & A2 & N2).
  destruct (span_by is_decimal t) as [fp r2]. cbn [fst snd] in *.
  destruct (is_empty fp) eqn:F; [now apply Int|]. apply is_empty_false in F.
  intros H. injection H as <- <-. split.
  - rewrite E, E2 at 1. rewrite append_assoc'. reflexivity.
  - eexists. apply number_float; [exact Ri | split; assumption].
Qed.

Section FirstFeature.

Variable suffix : string.
Hypothesis suffix_is_unit : is_unit suffix = true.

Lemma same_nocase_unit (suf : string) :
  same_nocase suf suffix ->
  exists x suf', suf = String x suf' /\ is_letter x = true.
Proof.
  intros S. pose proof (suffix_letters suffix suffix_is_unit) as L.
  pose proof (suffix_not_empty suffix suffix_is_unit) as E.
  destruct suffix as [|c q]; [now contradiction E|].
  destruct suf as [|x suf']; [now contradiction S|]. destruct S as [Sx _].
  cbn [str_forall] in L. apply andb_true_iff in L. destruct L as [Hc _].
  exists x, suf'. split; [reflexivity | exact (same_letter_letter c x Hc Sx)].
Qed.

(** After the number comes white space or the unit: a space or a letter. *)
Lemma tail_starts (ws suf post : string) :
  str_forall is_space ws = true -> same_nocase suf suffix ->
  exists x t, ws ++ suf ++ post = String x t /\
              (is_space x = true \/ is_letter x = true).
Proof.
  intros W S. destruct ws as [|x ws'].
  - destruct (same_nocase_unit suf S) as (x & suf' & -> & L).
    exists x, (suf' ++ post). split; [reflexivity | now right].
  - cbn [str_forall] in W. apply andb_true_iff in W. destruct W as [Hx _].
    exists x, (ws' ++ suf ++ post). split; [reflexivity | now left].
Qed.

Lemma unit_follows_tail (ws suf post : string) :
  str_forall is_space ws = true -> same_nocase suf suffix ->
  opt_word (next_char post) = false ->
  unit_follows suffix (ws ++ suf ++ post) = true.
Proof.
  intros W S B. unfold unit_follows.
  destruct (same_nocase_unit suf S) as (x & suf' & E & L).
  assert (opt_is is_space (next_char (suf ++ post)) = false) as N
      by (subst suf; cbn; now destruct (letter_classes x L) as (_ & ? & _)).
  rewrite <- span_by_rest, (span_by_run is_space ws (suf ++ post) W N). cbn [snd].
  rewrite (fold_prefix_of_split suffix suf post (suffix_letters suffix suffix_is_unit) S).
  now rewrite B.
Qed.

Lemma feature_here_complete (raw ws suf post : string) (v : pyval) :
  number_text raw v -> str_forall is_space ws = true -> same_nocase suf suffix ->
  opt_word (next_char post) = false ->
  feature_here suffix (raw ++ ws ++ suf ++ post) = Some raw.
Proof.
  intros R W S B. unfold feature_here.
  destruct (tail_starts ws suf post W S) as (x & t & T & X).
  assert (is_decimal x = false /\ Ascii.eqb x "." = false) as [Dx Px].
  { destruct X as [X|X].
    - destruct (space_classes x X) as [_ D]. split; [exact D|].
      destruct (Ascii.eqb x ".") eqn:P; [|reflexivity].
      apply Ascii.eqb_eq in P. subst x. discriminate X.
    - now destruct (letter_classes x X) as (? & _ & ? & _). }
  assert (read_number (raw ++ ws ++ suf ++ post) = Some (raw, ws ++ suf ++ post)) as RN.
  { destruct R as [ip [Ni Ai] _ | ip [Ni Ai] _ | ip fp [Ni Ai] [Nf Af]]; unfold read_number.
    - rewrite (span_by_run is_decimal ip (ws ++ suf ++ post) Ai)
        by (rewrite T; cbn; exact Dx).
      apply is_empty_false in Ni. rewrite Ni, T, Px. reflexivity.
    - rewrite (span_by_run is_decimal ip (ws ++ suf ++ post) Ai)
        by (rewrite T; cbn; exact Dx).
      apply is_empty_false in Ni. rewrite Ni, T, Px. reflexivity.
    - rewrite append_assoc'. cbn [append].
      rewrite (span_by_run is_decimal ip (String "." (fp ++ ws ++ suf ++ post)) Ai eq_refl).
      apply is_empty_false in Ni. rewrite Ni. cbn [Ascii.eqb Bool.eqb].
      rewrite (span_by_run is_decimal fp (ws ++ suf ++ post) Af)
        by (rewrite T; cbn; exact Dx).
      apply is_empty_false in Nf. rewrite Nf. reflexivity. }
  rewrite RN, (unit_follows_tail ws suf post W S B). reflexivity.
Qed.

Lemma feature_here_sound (s raw : string) :
  feature_here suffix s = Some raw ->
  exists ws suf post,
    s = raw ++ ws ++ suf ++ post /\ (exists v, number_text raw v) /\
    str_forall is_space ws = true /\ same_nocase suf suffix /\
    opt_word (next_char post) = false.
Proof.
  unfold feature_here. destruct (read_number s) as [[raw' r]|] eqn:RN; [|discriminate].
  destruct (unit_follows suffix r) eqn:U; [|discriminate].
  intros H. injection H as <-.
  destruct (read_number_split s raw' r RN) as (-> & V).
  unfold unit_follows in U.
  destruct (lstrip_by_split is_space r) as (ws & Er & W & _).
  destruct (fold_prefix suffix (lstrip_by is_space r)) as [post|] eqn:F; [|discriminate U].
  destruct (fold_prefix_split suffix _ post (suffix_letters suffix suffix_is_unit) F)
    as (suf & Es & _ & S & _).
  exists ws, suf, post. rewrite Es in Er. apply negb_true_iff in U.
  repeat split; try assumption. now rewrite Er at 1.
Qed.

Lemma feature_at_here (s raw : string) :
  feature_at suffix s 0 raw <-> feature_here suffix s = Some raw.
Proof.
  split.
  - intros (pre & ws & suf & post & -> & L & (v & R) & W & S & B).
    destruct pre; [|discriminate L]. cbn [append].
    exact (feature_here_complete raw ws suf post v R W S B).
  - intros H. destruct (feature_here_sound s raw H) as (ws & suf & post & E & V & W & S & B).
    exists EmptyString, ws, suf, post. repeat split; assumption.
Qed.

Lemma feature_at_shift (c : ascii) (s : string) (j : nat) (raw : string) :
  feature_at suffix (String c s) (S j) raw <-> feature_at suffix s j raw.
Proof.
  split.
  - intros (pre & ws & suf & post & E & L & V & W & S & B).
    destruct pre as [|x pre]; [discriminate L|]. cbn in E, L. injection E as _ E.
    exists pre, ws, suf, post. repeat split; try assumption. lia.
  - intros (pre & ws & suf & post & E & L & V & W & S & B).
    exists (String c pre), ws, suf, post. cbn. rewrite E, L. repeat split; assumption.
Qed.

Lemma feature_at_empty (j : nat) (raw : string) :
  feature_at suffix EmptyString (S j) raw -> False.
Proof.
  intros (pre & ws & suf & post & E & L & _). destruct pre; discriminate.
Qed.

Lemma first_feature_leftmost (s : string) :
  match first_feature suffix s with
  | Some (i, raw) =>
      feature_at suffix s i raw /\
      forall j raw', feature_at suffix s j raw' -> (i <= j)%nat /\ (j = i -> raw' = raw)
  | None => forall j raw', ~ feature_at suffix s j raw'
  end.
Proof.
  induction s as [|c s IH].
  - cbn [first_feature]. destruct (feature_here suffix EmptyString) as [raw|] eqn:H.
    + split; [now apply feature_at_here|]. intros j raw' F. split; [lia|].
      intros ->. apply feature_at_here in F. congruence.
    + intros [|j] raw' F; [apply feature_at_here in F; congruence|].
      exact (feature_at_empty j raw' F).
  - cbn [first_feature]. destruct (feature_here suffix (String c s)) as [raw|] eqn:H.
    + split; [now apply feature_at_here|]. intros j raw' F. split; [lia|].
      intros ->. apply feature_at_here in F. congruence.
    + destruct (first_feature suffix s) as [[i raw]|].
      * destruct IH as [F M]. split; [now apply feature_at_shift|].
        intros [|j] raw' G; [apply feature_at_here in G; congruence|].
        apply feature_at_shift in G. destruct (M j raw' G) as [Le Eq].
        split; [lia | intros J; apply Eq; lia].
      * intros [|j] raw' G; [apply feature_at_here in G; congruence|].
        apply feature_at_shift in G. exact (IH j raw' G).
Qed.

(** [re.search] finds the leftmost position where the pattern matches. *)
Lemma search_from_first_feature (s : string) :
  forall prev pos,
    match first_feature suffix s with
    | Some (i, raw) =>
        exists m,
          search_from (numeric_feature_pattern suffix) prev s pos = Some m /\
          cap_lookup 1 (groups m) = Some ((pos + i)%nat, (pos + i + String.length raw)%nat)
    | None => search_from (numeric_feature_pattern suffix) prev s pos = None
    end.
Proof.
  induction s as [|c s IH]; intros prev pos.
  - pose proof (engine_feature_here suffix suffix_is_unit prev EmptyString pos) as E.
    cbn [first_feature search_from].
    destruct (feature_here suffix EmptyString) as [raw|].
    + destruct E as (final & -> & C). eexists. split; [reflexivity|].
      cbn [groups]. now rewrite Nat.add_0_r.
    + now rewrite E.
  - pose proof (engine_feature_here suffix suffix_is_unit prev (String c s) pos) as E.
    cbn [first_feature search_from].
    destruct (feature_here suffix (String c s)) as [raw|].
    + destruct E as (final & -> & C). eexists. split; [reflexivity|].
      cbn [groups]. now rewrite Nat.add_0_r.
    + rewrite E. specialize (IH (Some c) (S pos)).
      destruct (first_feature suffix s) as [[i raw]|]; [|exact IH].
      destruct IH as (m & -> & C). exists m. split; [reflexivity|].
      rewrite C. f_equal. f_equal; lia.
Qed.

Lemma feature_at_group (text : string) (i : nat) (raw : string) :
  feature_at suffix text i raw ->
  String.substring i (i + String.length raw - i) text = raw.
Proof.
  intros (pre & ws & suf & post & -> & <- & _).
  replace (String.length pre + String.length raw - String.length pre)%nat
    with (String.length raw) by lia.
  apply substring_append.
Qed.

(** [_extract_numeric_feature] returns the value of the first number that
    immediately precedes the unit. *)
Lemma extract_first_feature_value (text : string) :
  first_feature_value suffix text (_extract_numeric_feature text suffix).
Proof.
  unfold first_feature_value, _extract_numeric_feature, re_search.
  pose proof (first_feature_leftmost text) as L.
  pose proof (search_from_first_feature text None O) as S.
  destruct (first_feature suffix text) as [[i raw]|].
  - right. destruct S as (m & -> & C). destruct L as [F M].
    exists i, raw. split; [exact F|]. split; [exact M|].
    unfold group. rewrite C. cbn [Nat.add]. rewrite (feature_at_group text i raw F).
    destruct F as (_ & _ & _ & _ & _ & _ & (v & R) & _).
    pose proof (number_value_text raw v R) as V. unfold number_value in V.
    rewrite V. exact R.
  - left. rewrite S. split; [reflexivity | exact L].
Qed.

End FirstFeature.

(* ================================================================= *)
(** ** Heuristic extraction *)

(** C9 (counterexample). A text whose first number before "bd" has 4301
    digits: a number immediately precedes the unit, has no decimal point,
    and yet the bedrooms are None, not an int, since [int] refuses a
    literal of more than 4300 digits and the extraction turns the refusal
    into None. *)
Lemma long_number_feature_is_none :
  String.length long_number = 4301%nat /\
  str_forall is_decimal long_number = true /\
  contains "." long_number = false /\
  _extract_numeric_feature (long_number ++ " bd") "bd" = PNone /\
  bedrooms (_parse_from_html (mkSoup [] None None (long_number ++ " bd")) listing_record
              EmptyString)
  = PNone.
Proof.
  cbn [_parse_from_html bedrooms page_text]. repeat split; vm_compute; reflexivity.
Qed.

(** C9 (amended). For every flattened page text, the heuristic extraction
    of bedrooms, bathrooms and living area reads the first (leftmost)
    number that immediately precedes, white space apart, the unit "bd",
    "ba" and "sqft" respectively, in any letter case and ending at a word
    boundary, and returns None when there is no such number. The value of
    the number is a float when it has a decimal point; without one it is
    the int that its digits spell when they are at most 4300, and None
    when they are more. On the text "... 3 bd ... 2.5 ba ... 1800 sqft ..."
    the bedrooms are the int 3, the bathrooms the float 2.5 and the living
    area the int 1800. In this strategy the lot size is always None and
    the price history always empty. *)
Theorem heuristic_numeric_features :
  (forall text : string,
      first_feature_value "bd" text (_extract_numeric_feature text "bd") /\
      first_feature_value "ba" text (_extract_numeric_feature text "ba") /\
      first_feature_value "sqft" text (_extract_numeric_feature text "sqft")) /\
  (forall (raw : string) (v : pyval),
      number_text raw v ->
      (contains "." raw = false /\
       (((String.length raw <= max_str_digits)%nat /\ v = PInt (digits_value raw)) \/
        ((max_str_digits < String.length raw)%nat /\ v = PNone))) \/
      (contains "." raw = true /\ exists f, v = PFloat f)) /\
  (forall (soup : Soup) (record : InputRecord) (url : string),
      let d := _parse_from_html soup record url in
      bedrooms d = _extract_numeric_feature (page_text soup) "bd" /\
      bathrooms d = _extract_numeric_feature (page_text soup) "ba" /\
      livingArea d = _extract_numeric_feature (page_text soup) "sqft" /\
      lotSize d = PNone /\
      priceHistory d = Some []) /\
  (forall (scripts : list (option string)) (og_title : option (option string))
          (h1 : option string) (record : InputRecord) (url : string),
      let d := _parse_from_html (mkSoup scripts og_title h1 example_text) record url in
      bedrooms d = PInt 3 /\ bathrooms d = PFloat float_2_5 /\ livingArea d = PInt 1800).
Proof.
  split; [|split; [|split]].
  - intros text. repeat split; apply extract_first_feature_value; reflexivity.
  - exact number_text_kind.
  - intros soup record url d. repeat split.
  - intros scripts og_title h1 record url d. subst d. cbn [_parse_from_html bedrooms bathrooms
      livingArea page_text]. repeat split; vm_compute; reflexivity.
Qed.

(* ================================================================= *)
(** ** Loading the inputs *)

Lemma strip_idempotent (s : string) : strip (strip s) = strip s.
Proof.
  destruct (strip_trimmed s) as (l & t & _ & _ & _ & F & L).
  unfold strip at 1. now rewrite (lstrip_by_id _ _ F), (rstrip_by_id _ _ L).
Qed.

Lemma classify_trimmed (line : string) :
  is_empty (strip line) = false ->
  exists k, classify_input (strip line) = Ok (mkInputRecord (strip line) k (strip line)).
Proof.
  intros N. unfold classify_input. rewrite strip_idempotent, N. eexists. reflexivity.
Qed.

Lemma load_lines_spec (lines : list string) (line_number : nat) :
  exists records,
    load_lines line_number lines = (records, []) /\
    map raw records = filter kept_line (map strip lines) /\
    Forall (fun r => classify_input (raw r) = Ok r) records.
Proof.
  revert line_number. induction lines as [|line rest IH]; intros line_number.
  - exists []. repeat split. constructor.
  - destruct (IH (S line_number)) as (records & E & M & C).
    cbn [load_lines map filter]. rewrite E. unfold kept_line at 1.
    destruct (is_empty (strip line)) eqn:N; cbn [negb andb orb].
    + exists records. repeat split; assumption.
    + destruct (startswith "#" (strip line)); cbn [negb].
      * exists records. repeat split; assumption.
      * destruct (classify_trimmed line N) as (k & K). rewrite K.
        exists (mkInputRecord (strip line) k (strip line) :: records).
        split; [reflexivity|]. split; [cbn; now rewrite M|].
        constructor; [exact K | exact C].
Qed.

(** X1. [load_inputs_from_file] never fails on a file that exists: it
    returns, in the order of the file, one record for every line that,
    trimmed, is neither empty nor starts with "#"; each record is the
    classification of the trimmed line, which never fails, so no line is
    skipped with a warning. The file of the four lines "1234 Example St",
    "# comment", a blank line and "https://example.com/listing/99" yields
    exactly two records, an address and a URL. A missing file raises
    FileNotFoundError. *)
Theorem load_inputs_keeps_classified_lines :
  (forall (path : string) (lines : list string),
      exists records,
        load_inputs_from_file path (Some lines)
        = Ok (records, [LogLoaded (List.length records)]) /\
        map raw records = filter kept_line (map strip lines) /\
        Forall (fun r => classify_input (raw r) = Ok r) records) /\
  (forall path : string,
      load_inputs_from_file path (Some example_lines)
      = Ok ([mkInputRecord "1234 Example St" "address" "1234 Example St";
             mkInputRecord "https://example.com/listing/99" "url"
               "https://example.com/listing/99"],
            [LogLoaded 2])) /\
  (forall path : string,
      load_inputs_from_file path None
      = Raise (FileNotFoundError ("Input file not found: " ++ path))).
Proof.
  split; [|split; reflexivity].
  intros path lines. destruct (load_lines_spec lines 1) as (records & E & M & C).
  exists records. unfold load_inputs_from_file. rewrite E. repeat split; assumption.
Qed.

(* ================================================================= *)
(** ** The shape of the records produced *)

(** X2. Whenever [normalize_property_record] returns, the record has the
    fixed keys of the output schema, each once and in the same order,
    whatever the raw map holds. On a raw map of printable values (no int
    of more than 4300 digits, as in every decoded JSON document) the only
    exception it can raise is OverflowError, which an infinite float under
    an integer field does raise. From an empty raw map without fallback
    URL every field is there with None, followed by the cleaned source
    input. *)
Theorem normalized_record_has_fixed_keys :
  forall (float_repr : spec_float -> string) (str_repr : string -> string),
    (forall (raw_map : pydict) (source fallback_url : option string) (normalized : pydict),
        normalize_property_record float_repr str_repr raw_map source fallback_url
        = Ok normalized ->
        map fst normalized = normalized_keys) /\
    (forall (raw_map : pydict) (source fallback_url : option string) (e : exn),
        printable (PDict raw_map) = true ->
        normalize_property_record float_repr str_repr raw_map source fallback_url = Raise e ->
        e = OverflowError) /\
    (forall source fallback_url : option string,
        printable (PDict [("livingArea", PFloat (S754_infinity false))]) = true /\
        normalize_property_record float_repr str_repr
          [("livingArea", PFloat (S754_infinity false))] source fallback_url
        = Raise OverflowError) /\
    (forall source : option string,
        normalize_property_record float_repr str_repr [] source None
        = Ok (map (fun k => (k, PNone)) fields
              ++ [("sourceInput",
                   PStr (clean_text
                           (match source with Some s => s | None => EmptyString end)))])%list).
Proof.
  intros float_repr str_repr. split; [|split; [|split; [|reflexivity]]].
  - intros raw_map source fallback_url normalized E.
    unfold normalize_property_record in E. apply bind_ok in E. destruct E as (n & F & E).
    unfold fields in F. cbn [normalize_fields] in F.
    repeat (apply bind_ok in F; destruct F as (? & _ & F)).
    injection F as <-. injection E as <-.
    destruct fallback_url as [fb|]; [destruct (negb (truthy _) && negb (is_empty fb))|];
      reflexivity.
  - intros raw_map source fallback_url e _ E.
    now apply normalize_property_record_raises in E.
  - intros source fallback_url. split; reflexivity.
Qed.

(** X3. A record that [fetch_property] returns carries the URL that was
    fetched, the one [_build_url_for_record] resolves for the input, on
    the structured-data path and on the heuristic path alike. *)
Theorem fetched_record_keeps_url :
  forall (float_repr : spec_float -> string) (str_repr : string -> string)
         (json_loads : string -> result pyval) (world : Type)
         (client_get : string -> world -> result Response * world)
         (BeautifulSoup : string -> Soup)
         (base : string) (record : InputRecord) (w : world),
    match fst (fetch_property float_repr str_repr json_loads world client_get BeautifulSoup
                 base record w) with
    | Ok data => url data = _build_url_for_record base record
    | Raise _ => True
    end.
Proof.
  intros float_repr str_repr json_loads world client_get BeautifulSoup base record w.
  unfold fetch_property.
  destruct (client_get (_build_url_for_record base record) w) as [[response|e] w'];
    [|exact I].
  destruct (negb (status_code response =? 200)); [exact I|].
  assert (match _parse_from_json_blob float_repr str_repr
                  (match _extract_relevant_json json_loads
                           (script_strings (BeautifulSoup (text response))) with
                   | Some blob => blob
                   | None => PNone
                   end) record (_build_url_for_record base record) with
          | Ok data => url data = _build_url_for_record base record
          | Raise _ => True
          end) as J.
  { destruct (_parse_from_json_blob _ _ _ _ _) as [data|e] eqn:E; [|exact I].
    unfold _parse_from_json_blob in E.
    repeat (apply bind_ok in E; destruct E as (? & _ & E)).
    injection E as <-. reflexivity. }
  destruct (_extract_relevant_json json_loads _) as [blob|]; [|reflexivity].
  destruct (truthy blob); [exact J | reflexivity].
Qed.


(* ================================================================= *)
(** ** Cleaning text *)

Lemma collapse_plain_spaced (s : string) (b : bool) :
  plain_spaced (sub_space_runs_from b " " s) = true.
Proof.
  revert b. induction s as [|c s IH]; intros b; [reflexivity|].
  cbn [sub_space_runs_from]. destruct (is_space c) eqn:C.
  - destruct b; [apply IH|]. cbn. apply IH.
  - unfold plain_spaced. cbn [str_forall]. rewrite C. cbn. apply IH.
Qed.

Lemma collapse_single_spaced (s : string) (b : bool) :
  single_spaced b (sub_space_runs_from b " " s) = true.
Proof.
  revert b. induction s as [|c s IH]; intros b; [reflexivity|].
  cbn [sub_space_runs_from]. destruct (is_space c) eqn:C.
  - destruct b; [apply IH|]. cbn. apply IH.
  - cbn [single_spaced]. rewrite C. apply IH.
Qed.

Lemma collapse_visible (s : string) (b : bool) :
  visible (sub_space_runs_from b " " s) = visible s.
Proof.
  revert b. induction s as [|c s IH]; intros b; [reflexivity|].
  unfold visible in *. cbn [sub_space_runs_from str_filter].
  destruct (is_space c) eqn:C; cbn [negb].
  - destruct b; [apply IH|]. cbn. apply IH.
  - cbn [str_filter]. rewrite C. cbn [negb]. now rewrite IH.
Qed.

Lemma visible_append (a b : string) : visible (a ++ b) = visible a ++ visible b.
Proof.
  unfold visible. induction a as [|c a IH]; [reflexivity|].
  cbn [append str_filter]. destruct (negb (is_space c)); cbn [append]; now rewrite IH.
Qed.

Lemma visible_of_spaces (a : string) : str_forall is_space a = true -> visible a = EmptyString.
Proof.
  unfold visible. induction a as [|c a IH]; [reflexivity|].
  cbn [str_forall str_filter]. intros H. apply andb_true_iff in H. destruct H as [C H].
  rewrite C. cbn [negb]. exact (IH H).
Qed.

Lemma strip_visible (s : string) : visible (strip s) = visible s.
Proof.
  destruct (strip_trimmed s) as (l & t & E & Hl & Ht & _ & _).
  rewrite E at 2. rewrite !visible_append, (visible_of_spaces _ Hl), (visible_of_spaces _ Ht).
  cbn [append]. now rewrite append_empty_r.
Qed.

Lemma last_char_none (s : string) : last_char s = None -> s = EmptyString.
Proof. destruct s as [|c s]; [reflexivity|]. rewrite last_char_cons. discriminate. Qed.

Lemma visible_last (s : string) (d : ascii) :
  last_char s = Some d -> is_space d = false -> visible s <> EmptyString.
Proof.
  unfold visible. induction s as [|c s IH]; [discriminate|].
  rewrite last_char_cons. intros L D. cbn [str_filter].
  destruct (last_char s) as [x|] eqn:X.
  - injection L as ->. destruct (negb (is_space c)); [discriminate|]. now apply IH.
  - injection L as ->. rewrite D. discriminate.
Qed.

Lemma collapse_last (s : string) (b : bool) :
  opt_is is_space (last_char s) = false ->
  opt_is is_space (last_char (sub_space_runs_from b " " s)) = false.
Proof.
  revert b. induction s as [|c s IH]; intros b; [reflexivity|].
  rewrite last_char_cons. destruct (last_char s) as [d|] eqn:L; cbn [opt_is]; intros D.
  - assert (forall b' x, opt_is is_space
                           (last_char (String x (sub_space_runs_from b' " " s))) = false) as K.
    { intros b' x. rewrite last_char_cons.
      specialize (IH b' D).
      destruct (last_char (sub_space_runs_from b' " " s)) as [y|] eqn:Y; [exact IH|].
      apply last_char_none in Y. exfalso.
      apply (visible_last s d L D). rewrite <- (collapse_visible s b'), Y. reflexivity. }
    cbn [sub_space_runs_from]. destruct (is_space c).
    + destruct b; [|apply K]. apply IH. exact D.
    + apply K.
  - apply last_char_none in L. subst s. cbn [sub_space_runs_from]. rewrite D. cbn. exact D.
Qed.

Lemma collapse_fixed (t : string) (b : bool) :
  plain_spaced t = true -> single_spaced b t = true -> sub_space_runs_from b " " t = t.
Proof.
  revert b. unfold plain_spaced. induction t as [|c t IH]; intros b P S; [reflexivity|].
  cbn [str_forall] in P. apply andb_true_iff in P. destruct P as [Pc P].
  cbn [single_spaced] in S. cbn [sub_space_runs_from].
  destruct (is_space c) eqn:C.
  - cbn [negb orb] in Pc. apply Ascii.eqb_eq in Pc. subst c.
    apply andb_true_iff in S. destruct S as [B S]. destruct b; [discriminate|].
    cbn [append]. now rewrite (IH true P S).
  - now rewrite (IH false P S).
Qed.

Lemma single_spaced_first (t : string) :
  single_spaced true t = true -> opt_is is_space (next_char t) = false.
Proof.
  destruct t as [|c t]; [reflexivity|]. cbn. destruct (is_space c); [discriminate|reflexivity].
Qed.

Lemma single_spaced_weaken (t : string) :
  single_spaced true t = true -> single_spaced false t = true.
Proof.
  destruct t as [|c t]; [reflexivity|]. cbn. destruct (is_space c); [discriminate|auto].
Qed.

Lemma clean_text_single_spaced (value : string) : single_spaced true (clean_text value) = true.
Proof.
  unfold clean_text, sub_space_runs.
  destruct (strip_trimmed value) as (l & t & _ & _ & _ & F & _).
  destruct (strip value) as [|c s]; [reflexivity|].
  cbn [next_char opt_is] in F. cbn [sub_space_runs_from single_spaced]. rewrite F.
  cbn [single_spaced]. rewrite F. apply collapse_single_spaced.
Qed.

Lemma clean_text_last (value : string) :
  opt_is is_space (last_char (clean_text value)) = false.
Proof.
  unfold clean_text, sub_space_runs. apply collapse_last.
  now destruct (strip_trimmed value) as (l & t & _ & _ & _ & _ & L).
Qed.

(** X4. [clean_text] trims and collapses: in its result the only white
    space is the space character, no space starts or ends it and none
    follows another; the characters that are not white space are those of
    the input, in the same order; and cleaning the result again changes
    nothing. *)
Theorem clean_text_collapses_whitespace :
  forall value : string,
    plain_spaced (clean_text value) = true /\
    single_spaced true (clean_text value) = true /\
    opt_is is_space (last_char (clean_text value)) = false /\
    visible (clean_text value) = visible value /\
    clean_text (clean_text value) = clean_text value.
Proof.
  intros value.
  pose proof (collapse_plain_spaced (strip value) false) as P.
  pose proof (clean_text_single_spaced value) as S.
  pose proof (clean_text_last value) as L.
  fold (sub_space_runs " " (strip value)) in P. fold (clean_text value) in P.
  repeat split; try assumption.
  - unfold clean_text at 1, sub_space_runs. now rewrite collapse_visible, strip_visible.
  - unfold clean_text at 1, sub_space_runs. unfold strip.
    rewrite (lstrip_by_id _ _ (single_spaced_first _ S)), (rstrip_by_id _ _ L).
    apply collapse_fixed; [exact P | exact (single_spaced_weaken _ S)].
Qed.

(* ================================================================= *)
(** ** Filtering and mapping text *)

Lemma chars_implb (p q : ascii -> bool) :
  for_all_chars (fun c => implb (p c) (q c)) = true -> forall c, p c = true -> q c = true.
Proof.
  intros H c Hp. pose proof (for_all_chars_spec _ H c) as A. cbn in A.
  rewrite Hp in A. exact A.
Qed.

Lemma chars_refute (p q : ascii -> bool) :
  for_all_chars (fun c => implb (p c) (negb (q c))) = true ->
  forall c, p c = true -> q c = false.
Proof.
  intros H c Hp. apply negb_true_iff. exact (chars_implb p (fun c => negb (q c)) H c Hp).
Qed.

Lemma str_filter_filter (p q : ascii -> bool) (s : string) :
  (forall c, p c = true -> q c = true) -> str_filter p (str_filter q s) = str_filter p s.
Proof.
  intros H. induction s as [|c s IH]; [reflexivity|].
  cbn [str_filter]. destruct (q c) eqn:Q.
  - cbn [str_filter]. now rewrite IH.
  - destruct (p c) eqn:P; [|exact IH]. rewrite (H c P) in Q. discriminate.
Qed.

Lemma str_filter_append (p : ascii -> bool) (a b : string) :
  str_filter p (a ++ b) = str_filter p a ++ str_filter p b.
Proof.
  induction a as [|c a IH]; [reflexivity|].
  cbn [append str_filter]. destruct (p c); cbn [append]; now rewrite IH.
Qed.

Lemma str_filter_none (p q : ascii -> bool) (a : string) :
  (forall c, q c = true -> p c = false) -> str_forall q a = true ->
  str_filter p a = EmptyString.
Proof.
  intros H. induction a as [|c a IH]; [reflexivity|].
  cbn [str_forall str_filter]. intros A. apply andb_true_iff in A. destruct A as [C A].
  rewrite (H c C). exact (IH A).
Qed.

Lemma str_filter_all (p : ascii -> bool) (s : string) :
  str_forall p s = true -> str_filter p s = s.
Proof.
  induction s as [|c s IH]; [reflexivity|].
  cbn [str_forall str_filter]. intros A. apply andb_true_iff in A. destruct A as [C A].
  now rewrite C, (IH A).
Qed.

Lemma str_filter_forall (p : ascii -> bool) (s : string) :
  str_forall p (str_filter p s) = true.
Proof.
  induction s as [|c s IH]; [reflexivity|].
  cbn [str_filter]. destruct (p c) eqn:C; [|exact IH]. cbn [str_forall]. now rewrite C.
Qed.

Lemma str_filter_map (p : ascii -> bool) (f : ascii -> ascii) (s : string) :
  (forall c, p (f c) = p c) -> (forall c, p c = true -> f c = c) ->
  str_filter p (str_map f s) = str_filter p s.
Proof.
  intros H1 H2. induction s as [|c s IH]; [reflexivity|].
  cbn [str_map str_filter]. rewrite H1. destruct (p c) eqn:C; [|exact IH].
  now rewrite (H2 c C), IH.
Qed.

Lemma str_map_id (f : ascii -> ascii) (q : ascii -> bool) (s : string) :
  (forall c, q c = true -> f c = c) -> str_forall q s = true -> str_map f s = s.
Proof.
  intros H. induction s as [|c s IH]; [reflexivity|].
  cbn [str_forall str_map]. intros A. apply andb_true_iff in A. destruct A as [C A].
  now rewrite (H c C), (IH A).
Qed.

Lemma sub_space_runs_no_space (q : ascii -> bool) (sep s : string) (b : bool) :
  (forall c, q c = true -> is_space c = false) -> str_forall q s = true ->
  sub_space_runs_from b sep s = s.
Proof.
  intros H. revert b. induction s as [|c s IH]; intros b; [reflexivity|].
  cbn [str_forall sub_space_runs_from]. intros A. apply andb_true_iff in A.
  destruct A as [C A]. now rewrite (H c C), (IH false A).
Qed.

Lemma lstrip_by_forall (p q : ascii -> bool) (s : string) :
  str_forall q s = true -> str_forall q (lstrip_by p s) = true.
Proof.
  intros A. destruct (lstrip_by_split p s) as (l & E & _ & _).
  rewrite E, str_forall_append in A. apply andb_true_iff in A. tauto.
Qed.

Lemma rstrip_by_forall (p q : ascii -> bool) (s : string) :
  str_forall q s = true -> str_forall q (rstrip_by p s) = true.
Proof.
  intros A. destruct (rstrip_by_split p s) as (t & E & _ & _).
  rewrite E, str_forall_append in A. apply andb_true_iff in A. tauto.
Qed.

Lemma strip_by_filter (p q : ascii -> bool) (s : string) :
  (forall c, q c = true -> p c = false) ->
  str_filter p (rstrip_by q (lstrip_by q s)) = str_filter p s.
Proof.
  intros H. destruct (lstrip_by_split q s) as (l & El & Al & _).
  destruct (rstrip_by_split q (lstrip_by q s)) as (t & Et & At & _).
  rewrite El at 2. rewrite Et at 2.
  rewrite !str_filter_append, (str_filter_none p q l H Al), (str_filter_none p q t H At).
  cbn [append]. now rewrite append_empty_r.
Qed.

(* ================================================================= *)
(** ** Slugs *)

Lemma alnum_not_space (c : ascii) : is_alnum c = true -> is_space c = false.
Proof. apply (chars_refute is_alnum is_space). vm_compute. reflexivity. Qed.

Lemma slug_source_runs (s : string) (b : bool) :
  str_forall is_slug_source s = true ->
  str_forall is_slug_char (sub_space_runs_from b "-" s) = true.
Proof.
  revert b. induction s as [|c s IH]; intros b; [reflexivity|].
  cbn [str_forall sub_space_runs_from]. intros A. apply andb_true_iff in A.
  destruct A as [C A]. destruct (is_space c) eqn:S.
  - destruct b; [exact (IH true A)|]. cbn. exact (IH true A).
  - cbn [str_forall]. rewrite (IH false A), andb_true_r.
    unfold is_slug_source in C. unfold is_slug_char, is_alnum. rewrite S in C.
    now rewrite orb_false_r in C.
Qed.

Lemma alnum_runs (s : string) (b : bool) :
  str_filter is_alnum (sub_space_runs_from b "-" s) = str_filter is_alnum s.
Proof.
  assert (forall c, is_space c = true -> is_alnum c = false) as N.
  { intros c S. destruct (is_alnum c) eqn:A; [|reflexivity].
    apply alnum_not_space in A. congruence. }
  revert b. induction s as [|c s IH]; intros b; [reflexivity|].
  cbn [sub_space_runs_from str_filter]. destruct (is_space c) eqn:S.
  - rewrite (N c S). destruct b; [apply IH|]. cbn. apply IH.
  - cbn [str_filter]. now rewrite IH.
Qed.

Lemma slug_is_fixed (r : string) :
  str_forall is_slug_char r = true ->
  opt_is is_hyphen (next_char r) = false -> opt_is is_hyphen (last_char r) = false ->
  slugify_address r = r.
Proof.
  intros A F L.
  assert (forall c, is_slug_char c = true -> is_space c = false) as NS.
  { apply (chars_refute is_slug_char is_space). vm_compute. reflexivity. }
  assert (forall c, is_slug_char c = true -> is_slug_source c = true) as SS.
  { intros c. apply (chars_implb is_slug_char is_slug_source). vm_compute. reflexivity. }
  assert (forall c, is_slug_char c = true ->
                    (if Ascii.eqb c "#" || Ascii.eqb c "," || Ascii.eqb c "/"
                     then " "%char else c) = c) as M.
  { intros c H.
    assert (Ascii.eqb c "#" || Ascii.eqb c "," || Ascii.eqb c "/" = false) as ->; [|reflexivity].
    revert c H.
    apply (chars_refute is_slug_char
             (fun c => Ascii.eqb c "#" || Ascii.eqb c "," || Ascii.eqb c "/")).
    vm_compute. reflexivity. }
  assert (clean_text r = r) as C.
  { unfold clean_text, sub_space_runs, strip.
    assert (opt_is is_space (next_char r) = false) as F'.
    { destruct r as [|c r]; [reflexivity|]. cbn in A |- *.
      apply andb_true_iff in A. exact (NS c (proj1 A)). }
    assert (opt_is is_space (last_char r) = false) as L'.
    { destruct (last_char r) as [d|] eqn:D; [|reflexivity]. cbn.
      destruct r as [|c r]; [discriminate|].
      destruct (last_char_forall is_slug_char (String c r) A) as (l & Hl & Pl);
        [discriminate|]. rewrite D in Hl. injection Hl as <-. exact (NS d Pl). }
    rewrite (lstrip_by_id _ _ F'), (rstrip_by_id _ _ L').
    exact (sub_space_runs_no_space is_slug_char " " r false NS A). }
  unfold slugify_address. rewrite C.
  rewrite (str_map_id _ is_slug_char r M A).
  rewrite (str_filter_all is_slug_source r (str_forall_impl _ _ r SS A)).
  unfold sub_space_runs. rewrite (sub_space_runs_no_space is_slug_char "-" r false NS A).
  unfold strip_char.
  now rewrite (lstrip_by_id (Ascii.eqb "-") r F), (rstrip_by_id (Ascii.eqb "-") r L).
Qed.

(** X5. [slugify_address] returns a slug: only ASCII letters, digits and
    hyphens, with no hyphen at either end; the letters and digits of the
    address are all kept, in their order; a slug is left unchanged, so the
    function is idempotent; and the address of its documentation gives
    "7254-Wisteria-Ln-Lake-Wales-FL-33898". *)
Theorem slugify_address_is_slug :
  forall address : string,
    str_forall is_slug_char (slugify_address address) = true /\
    opt_is is_hyphen (next_char (slugify_address address)) = false /\
    opt_is is_hyphen (last_char (slugify_address address)) = false /\
    str_filter is_alnum (slugify_address address) = str_filter is_alnum address /\
    slugify_address (slugify_address address) = slugify_address address /\
    slugify_address "7254 Wisteria Ln, Lake Wales, FL 33898"
    = "7254-Wisteria-Ln-Lake-Wales-FL-33898".
Proof.
  intros address.
  assert (str_forall is_slug_char (slugify_address address) = true) as A.
  { unfold slugify_address, strip_char, sub_space_runs.
    apply rstrip_by_forall, lstrip_by_forall, slug_source_runs, str_filter_forall. }
  assert (opt_is is_hyphen (next_char (slugify_address address)) = false) as F.
  { unfold slugify_address, strip_char. apply rstrip_by_keeps_first.
    now destruct (lstrip_by_split is_hyphen
                    (sub_space_runs "-"
                       (str_filter is_slug_source
                          (str_map (fun c => if Ascii.eqb c "#" || Ascii.eqb c ","
                                                || Ascii.eqb c "/"
                                             then " "%char else c) (clean_text address)))))
      as (l & _ & _ & H). }
  assert (opt_is is_hyphen (last_char (slugify_address address)) = false) as L.
  { unfold slugify_address, strip_char.
    now destruct (rstrip_by_split is_hyphen
                    (lstrip_by is_hyphen
                       (sub_space_runs "-"
                          (str_filter is_slug_source
                             (str_map (fun c => if Ascii.eqb c "#" || Ascii.eqb c ","
                                                   || Ascii.eqb c "/"
                                                then " "%char else c) (clean_text address))))))
      as (t & _ & _ & H). }
  split; [exact A|]. split; [exact F|]. split; [exact L|].
  split; [|split; [exact (slug_is_fixed _ A F L) | reflexivity]].
  unfold slugify_address, strip_char.
  rewrite strip_by_filter.
  2:{ intros c H. apply Ascii.eqb_eq in H. subst c. reflexivity. }
  unfold sub_space_runs. rewrite alnum_runs.
  rewrite str_filter_filter.
  2:{ intros c. apply (chars_implb is_alnum is_slug_source). vm_compute. reflexivity. }
  rewrite str_filter_map.
  - unfold clean_text, sub_space_runs.
    assert (forall t, str_filter is_alnum t = str_filter is_alnum (visible t)) as V.
    { intros t. unfold visible. symmetry. apply str_filter_filter.
      intros c H. now rewrite (alnum_not_space c H). }
    rewrite V, collapse_visible, strip_visible, <- V. reflexivity.
  - intros c.
    apply Bool.eqb_prop.
    apply (for_all_chars_spec
             (fun c => Bool.eqb (is_alnum (if Ascii.eqb c "#" || Ascii.eqb c "," || Ascii.eqb c "/"
                                           then " "%char else c)) (is_alnum c))).
    vm_compute. reflexivity.
  - intros c H.
    assert (Ascii.eqb c "#" || Ascii.eqb c "," || Ascii.eqb c "/" = false) as ->; [|reflexivity].
    revert c H.
    apply (chars_refute is_alnum
             (fun c => Ascii.eqb c "#" || Ascii.eqb c "," || Ascii.eqb c "/")).
    vm_compute. reflexivity.
Qed.

(* ================================================================= *)
(** ** Numbers read from filtered text *)

Lemma span_by_all (p : ascii -> bool) (s : string) :
  str_forall p s = true -> span_by p s = (s, EmptyString).
Proof.
  intros A. rewrite <- (append_empty_r s) at 1. now apply span_by_run.
Qed.

Lemma span_by_not_all (p : ascii -> bool) (s : string) :
  str_forall p s = false -> is_empty (snd (span_by p s)) = false.
Proof.
  induction s as [|c s IH]; [discriminate|].
  cbn [str_forall span_by]. destruct (p c); [|reflexivity].
  cbn [andb]. intros A. specialize (IH A). now destruct (span_by p s).
Qed.

Lemma read_digits_span (s : string) :
  no_char "_" s = true -> read_digits s = span_by is_decimal s.
Proof.
  unfold no_char. induction s as [|c s IH]; [reflexivity|].
  cbn [str_forall]. intros N. apply andb_true_iff in N. destruct N as [_ N].
  specialize (IH N). cbn [read_digits span_by].
  destruct (is_decimal c); [|reflexivity].
  destruct s as [|u [|d s'']]; [reflexivity | now rewrite <- IH |].
  cbn [str_forall] in N. apply andb_true_iff in N. destruct N as [U _].
  apply negb_true_iff in U. rewrite U. cbn [andb]. now rewrite <- IH.
Qed.

Lemma strip_numeric_id (s : string) :
  opt_is is_numeric_space (next_char s) = false ->
  opt_is is_numeric_space (last_char s) = false -> strip_numeric s = s.
Proof.
  intros F L. unfold strip_numeric. now rewrite (lstrip_by_id _ _ F), (rstrip_by_id _ _ L).
Qed.

Lemma strip_numeric_class (q : ascii -> bool) (s : string) :
  (forall c, q c = true -> is_numeric_space c = false) ->
  str_forall q s = true -> strip_numeric s = s.
Proof.
  intros H A. apply strip_numeric_id.
  - destruct s as [|c s]; [reflexivity|]. cbn in A |- *.
    apply andb_true_iff in A. exact (H c (proj1 A)).
  - destruct s as [|c s]; [reflexivity|].
    destruct (last_char_forall q (String c s) A) as (l & Hl & Pl); [discriminate|].
    rewrite Hl. exact (H l Pl).
Qed.

Lemma digits_value_from_nonneg (ds : string) (acc : Z) :
  str_forall is_decimal ds = true -> 0 <= acc -> 0 <= digits_value_from acc ds.
Proof.
  revert acc. induction ds as [|c ds IH]; intros acc A G; [exact G|].
  cbn [str_forall] in A. apply andb_true_iff in A. destruct A as [C A].
  cbn [digits_value_from]. apply (IH _ A).
  unfold is_decimal, in_range in C. apply andb_true_iff in C. destruct C as [C _].
  apply N.leb_le in C. unfold digit_value. lia.
Qed.

Lemma digits_value_nonneg (ds : string) :
  str_forall is_decimal ds = true -> 0 <= digits_value ds.
Proof. intros A. apply digits_value_from_nonneg; [exact A | lia]. Qed.

Lemma digit_text_run (s : string) : is_digit_text s = true <-> digit_run s.
Proof.
  unfold is_digit_text, digit_run. rewrite andb_true_iff, negb_true_iff, is_empty_false.
  tauto.
Qed.

Lemma int_text_classes (c : ascii) :
  is_decimal c || Ascii.eqb c "-" = true ->
  is_numeric_space c = false /\ Ascii.eqb c "_" = false /\ Ascii.eqb c "+" = false /\
  (Ascii.eqb c "-" = false -> is_decimal c = true).
Proof.
  intros H. repeat split.
  - revert c H. apply (chars_refute (fun c => is_decimal c || Ascii.eqb c "-") is_numeric_space).
    vm_compute. reflexivity.
  - revert c H. apply (chars_refute (fun c => is_decimal c || Ascii.eqb c "-")
                         (fun c => Ascii.eqb c "_")).
    vm_compute. reflexivity.
  - revert c H. apply (chars_refute (fun c => is_decimal c || Ascii.eqb c "-")
                         (fun c => Ascii.eqb c "+")).
    vm_compute. reflexivity.
  - intros E. rewrite E, orb_false_r in H. exact H.
Qed.

Lemma read_all_digits (body : string) :
  no_char "_" body = true ->
  forall neg : bool,
    (let '(ds, rest) := read_digits body in
     if negb (is_empty ds) && is_empty rest
     then
       if (String.length ds <=? int_max_str_digits)%nat
       then Ok (if neg then - digits_value ds else digits_value ds)
       else Raise ValueError
     else Raise ValueError)
    = if is_digit_text body && (String.length body <=? int_max_str_digits)%nat
      then Ok (if neg then - digits_value body else digits_value body)
      else Raise ValueError.
Proof.
  intros U neg. rewrite (read_digits_span body U). unfold is_digit_text.
  destruct (str_forall is_decimal body) eqn:A.
  - rewrite (span_by_all _ _ A). cbn [is_empty]. rewrite !andb_true_r.
    destruct (negb (is_empty body)); [|reflexivity].
    now destruct (String.length body <=? int_max_str_digits)%nat.
  - pose proof (span_by_not_all _ _ A) as R. destruct (span_by is_decimal body) as [ds rest].
    cbn [snd] in R. now rewrite R, !andb_false_r.
Qed.

Lemma int_of_string_signed_limit (kept : string) :
  str_forall (fun c => is_decimal c || Ascii.eqb c "-") kept = true ->
  int_of_string kept
  = match signed_digits kept with
    | Some n =>
        if (String.length (str_filter is_decimal kept) <=? int_max_str_digits)%nat
        then Ok n else Raise ValueError
    | None => Raise ValueError
    end.
Proof.
  intros A. unfold int_of_string.
  rewrite (strip_numeric_class (fun c => is_decimal c || Ascii.eqb c "-") kept
             (fun c H => proj1 (int_text_classes c H)) A).
  assert (no_char "_" kept = true) as U.
  { unfold no_char.
    apply (str_forall_impl (fun c => is_decimal c || Ascii.eqb c "-")
             (fun x => negb (Ascii.eqb x "_")) kept); [|exact A].
    intros c H. now rewrite (proj1 (proj2 (int_text_classes c H))). }
  assert (forall t, is_digit_text t = true -> str_filter is_decimal t = t) as Keep.
  { intros t D. unfold is_digit_text in D. apply andb_true_iff in D.
    apply str_filter_all, D. }
  destruct kept as [|c body]; [reflexivity|].
  cbn [str_forall] in A. apply andb_true_iff in A. destruct A as [C A].
  destruct (int_text_classes c C) as (_ & _ & Plus & Dec).
  cbn [read_sign signed_digits]. destruct (Ascii.eqb c "-") eqn:M.
  - assert (no_char "_" body = true) as U'.
    { unfold no_char in U |- *. cbn [str_forall] in U. apply andb_true_iff in U. tauto. }
    rewrite (read_all_digits body U' true).
    destruct (is_digit_text body) eqn:D; [|reflexivity]. cbn [andb].
    apply Ascii.eqb_eq in M. subst c. cbn [str_filter].
    replace (is_decimal "-") with false by reflexivity. now rewrite (Keep body D).
  - rewrite Plus. rewrite (read_all_digits (String c body) U false).
    destruct (is_digit_text (String c body)) eqn:D; [|reflexivity]. cbn [andb].
    now rewrite (Keep _ D).
Qed.

Lemma within_limit (n : nat) :
  (n <= max_str_digits)%nat -> (n <=? int_max_str_digits)%nat = true.
Proof. intros L. apply Nat.leb_le. exact L. Qed.

Lemma int_of_string_signed (kept : string) :
  str_forall (fun c => is_decimal c || Ascii.eqb c "-") kept = true ->
  (String.length (str_filter is_decimal kept) <= max_str_digits)%nat ->
  int_of_string kept = match signed_digits kept with
                       | Some n => Ok n
                       | None => Raise ValueError
                       end.
Proof.
  intros A L. rewrite (int_of_string_signed_limit kept A), (within_limit _ L). reflexivity.
Qed.

Section TextCoercions.

Variable float_repr : spec_float -> string.
Variable str_repr : string -> string.

Lemma parse_int_text_limit (s : string) :
  parse_int float_repr str_repr (PStr s)
  = Ok (match signed_digits (str_filter (fun c => is_decimal c || Ascii.eqb c "-") s) with
        | Some n =>
            if (String.length (str_filter is_decimal s) <=? int_max_str_digits)%nat
            then PInt n else PNone
        | None => PNone
        end).
Proof.
  unfold parse_int. cbn [is_none py_str].
  destruct (str_filter _ s) as [|c kept] eqn:K; [reflexivity|].
  cbn [is_empty]. rewrite <- K.
  rewrite int_of_string_signed_limit by apply str_filter_forall.
  rewrite str_filter_filter by (intros x X; now rewrite X).
  destruct (signed_digits _); [|reflexivity].
  now destruct (String.length (str_filter is_decimal s) <=? int_max_str_digits)%nat.
Qed.

Lemma parse_int_text (s : string) :
  (String.length (str_filter is_decimal s) <= max_str_digits)%nat ->
  parse_int float_repr str_repr (PStr s)
  = Ok (opt_val PInt (signed_digits (str_filter (fun c => is_decimal c || Ascii.eqb c "-") s))).
Proof.
  intros L. rewrite parse_int_text_limit, (within_limit _ L).
  now destruct (signed_digits _).
Qed.

Lemma parse_int_text_none (s : string) :
  signed_digits (str_filter (fun c => is_decimal c || Ascii.eqb c "-") s) = None ->
  parse_int float_repr str_repr (PStr s) = Ok PNone.
Proof. intros N. now rewrite parse_int_text_limit, N. Qed.

Lemma parse_price_text (s : string) :
  (String.length (str_filter is_decimal s) <= max_str_digits)%nat ->
  parse_price (PStr s)
  = Ok (if is_empty (str_filter is_decimal s) then PNone
        else PInt (digits_value (str_filter is_decimal s))).
Proof.
  intros L. unfold parse_price. cbn [truthy]. destruct s as [|c s]; [reflexivity|].
  cbn [is_empty negb]. destruct (str_filter is_decimal (String c s)) as [|d ds] eqn:K;
    [reflexivity|].
  cbn [is_empty]. rewrite <- K. rewrite int_of_string_digits; [reflexivity| |now rewrite K].
  split; [rewrite K; discriminate | apply str_filter_forall].
Qed.

End TextCoercions.

(** X6. [parse_price] reads a price out of any text by dropping every
    character that is not a decimal digit: without a digit the result is
    None, and otherwise (for at most 4300 digits, the limit of [int]) it is
    the number that the digits spell, which is never negative; a value
    that is empty, zero or None gives None, and the only exception that
    leaves the call is the TypeError of a value that is not text. On a text
    without hyphen [parse_int] returns the same. *)
Theorem parse_price_reads_digits :
  forall (float_repr : spec_float -> string) (str_repr : string -> string),
    (forall s : string,
        (String.length (str_filter is_decimal s) <= max_str_digits)%nat ->
        (str_filter is_decimal s = EmptyString -> parse_price (PStr s) = Ok PNone) /\
        (str_filter is_decimal s <> EmptyString ->
           parse_price (PStr s) = Ok (PInt (digits_value (str_filter is_decimal s))) /\
           0 <= digits_value (str_filter is_decimal s)) /\
        (no_char "-" s = true ->
           parse_int float_repr str_repr (PStr s) = parse_price (PStr s))) /\
    (forall v : pyval, truthy v = false -> parse_price v = Ok PNone) /\
    (forall (v : pyval) (e : exn),
        parse_price v = Raise e ->
        e = TypeError /\ truthy v = true /\ forall s, v <> PStr s) /\
    parse_price (PStr "$239,900") = Ok (PInt 239900) /\
    parse_price (PStr "USD 239900") = Ok (PInt 239900) /\
    parse_price (PStr "-12.50") = Ok (PInt 1250) /\
    parse_price (PInt 239900) = Raise TypeError.
Proof.
  intros float_repr str_repr. split; [|split; [|split; [|repeat split]]].
  - intros s L. rewrite (parse_price_text s L). split; [|split].
    + intros ->. reflexivity.
    + intros N. apply is_empty_false in N. rewrite N. split; [reflexivity|].
      apply digits_value_nonneg, str_filter_forall.
    + intros H. rewrite (parse_int_text float_repr str_repr s L).
      assert (str_filter (fun c => is_decimal c || Ascii.eqb c "-") s = str_filter is_decimal s)
        as ->.
      { clear L. unfold no_char in H. induction s as [|c s IH]; [reflexivity|].
        cbn [str_forall] in H. apply andb_true_iff in H. destruct H as [C H].
        apply negb_true_iff in C. cbn [str_filter]. rewrite C, orb_false_r, (IH H).
        reflexivity. }
      destruct (str_filter is_decimal s) as [|d ds] eqn:K; [reflexivity|].
      assert (str_forall is_decimal (String d ds) = true) as A
          by (rewrite <- K; apply str_filter_forall).
      cbn [is_empty signed_digits].
      assert (Ascii.eqb d "-" = false) as ->.
      { cbn [str_forall] in A. apply andb_true_iff in A.
        now destruct (decimal_not_numeric_space d (proj1 A)) as (_ & ? & _). }
      unfold is_digit_text. rewrite A. reflexivity.
  - intros v T. unfold parse_price. now rewrite T.
  - intros v e H. unfold parse_price in H. destruct (truthy v) eqn:T; [|discriminate].
    cbn [negb] in H. destruct v; try (injection H as <-; repeat split; congruence).
    exfalso. destruct (is_empty (str_filter is_decimal s)); [discriminate H|].
    destruct (int_of_string (str_filter is_decimal s)) as [n|x] eqn:I; [discriminate H|].
    rewrite (int_of_string_raises _ _ I) in H. discriminate H.
Qed.

Lemma fraction_digits (r1 : string) :
  match r1 with
  | String "." r => read_digits r
  | _ => (EmptyString, r1)
  end
  = match r1 with
    | String d r => if Ascii.eqb d "." then read_digits r else (EmptyString, r1)
    | EmptyString => (EmptyString, r1)
    end.
Proof.
  destruct r1 as [|d r]; [reflexivity|].
  destruct d as [[] [] [] [] [] [] [] []]; reflexivity.
Qed.

Lemma float_text_classes (c : ascii) :
  is_float_text c = true ->
  is_numeric_space c = false /\ Ascii.eqb c "_" = false /\ Ascii.eqb c "+" = false /\
  Ascii.eqb (lower_char c) "i" = false /\ Ascii.eqb (lower_char c) "n" = false /\
  Ascii.eqb (lower_char c) "e" = false.
Proof.
  intros H. repeat split; revert c H.
  - apply (chars_refute is_float_text is_numeric_space). vm_compute. reflexivity.
  - apply (chars_refute is_float_text (fun c => Ascii.eqb c "_")). vm_compute. reflexivity.
  - apply (chars_refute is_float_text (fun c => Ascii.eqb c "+")). vm_compute. reflexivity.
  - apply (chars_refute is_float_text (fun c => Ascii.eqb (lower_char c) "i")).
    vm_compute. reflexivity.
  - apply (chars_refute is_float_text (fun c => Ascii.eqb (lower_char c) "n")).
    vm_compute. reflexivity.
  - apply (chars_refute is_float_text (fun c => Ascii.eqb (lower_char c) "e")).
    vm_compute. reflexivity.
Qed.

Lemma float_text_no_word (body : string) :
  str_forall is_float_text body = true ->
  String.eqb (lower body) "inf" || String.eqb (lower body) "infinity" = false /\
  String.eqb (lower body) "nan" = false.
Proof.
  intros A. destruct body as [|c body]; [split; reflexivity|].
  cbn [str_forall] in A. apply andb_true_iff in A. destruct A as [C _].
  destruct (float_text_classes c C) as (_ & _ & _ & I & N & _).
  unfold lower. cbn [str_map String.eqb]. now rewrite I, N.
Qed.

Lemma float_text_no_underscore (s : string) :
  str_forall is_float_text s = true -> no_char "_" s = true.
Proof.
  unfold no_char. apply str_forall_impl. intros c H.
  now rewrite (proj1 (proj2 (float_text_classes c H))).
Qed.

Lemma span_by_forall (p q : ascii -> bool) (s : string) :
  str_forall q s = true -> str_forall q (snd (span_by p s)) = true.
Proof.
  intros A. destruct (span_by_spec p s) as (E & _ & _).
  rewrite E, str_forall_append in A. apply andb_true_iff in A. tauto.
Qed.

Lemma float_of_body (neg : bool) (body : string) :
  str_forall is_float_text body = true ->
  (let word := lower body in
   if String.eqb word "inf" || String.eqb word "infinity" then Ok (S754_infinity neg)
   else if String.eqb word "nan" then Ok S754_nan
   else
     let '(ip, r1) := read_digits body in
     let '(fp, r2) :=
       match r1 with
       | String "." r => read_digits r
       | _ => (EmptyString, r1)
       end in
     if is_empty ip && is_empty fp then Raise ValueError
     else
       let mant := digits_value (ip ++ fp) in
       let scale := - Z.of_nat (String.length fp) in
       match r2 with
       | EmptyString => Ok (float_of_decimal neg mant scale)
       | String e r3 =>
           if Ascii.eqb (lower_char e) "e" then
             let '(eneg, r4) := read_sign r3 in
             let '(ed, r5) := read_digits r4 in
             if negb (is_empty ed) && is_empty r5
             then Ok (float_of_decimal neg mant
                        (scale + (if eneg then - digits_value ed else digits_value ed)))
             else Raise ValueError
           else Raise ValueError
       end)
  = (let '(ip, r1) := span_by is_decimal body in
     let '(fp, r2) :=
       match r1 with
       | String d r => if Ascii.eqb d "." then span_by is_decimal r else (EmptyString, r1)
       | EmptyString => (EmptyString, r1)
       end in
     if is_empty r2 && negb (is_empty ip && is_empty fp)
     then Ok (float_of_decimal neg (digits_value (ip ++ fp)) (- Z.of_nat (String.length fp)))
     else Raise ValueError).
Proof.
  intros A. cbv zeta. destruct (float_text_no_word body A) as [W1 W2]. rewrite W1, W2.
  rewrite (read_digits_span body (float_text_no_underscore body A)).
  pose proof (span_by_forall is_decimal is_float_text body A) as A1.
  destruct (span_by is_decimal body) as [ip r1]. cbn [snd] in A1.
  rewrite fraction_digits.
  assert (forall fp r2,
             str_forall is_float_text r2 = true ->
             (if is_empty ip && is_empty fp then Raise ValueError
              else
                match r2 with
                | EmptyString =>
                    Ok (float_of_decimal neg (digits_value (ip ++ fp))
                          (- Z.of_nat (String.length fp)))
                | String e r3 =>
                    if Ascii.eqb (lower_char e) "e" then
                      let '(eneg, r4) := read_sign r3 in
                      let '(ed, r5) := read_digits r4 in
                      if negb (is_empty ed) && is_empty r5
                      then Ok (float_of_decimal neg (digits_value (ip ++ fp))
                                 (- Z.of_nat (String.length fp)
                                  + (if eneg then - digits_value ed else digits_value ed)))
                      else Raise ValueError
                    else Raise ValueError
                end)
             = if is_empty r2 && negb (is_empty ip && is_empty fp)
               then Ok (float_of_decimal neg (digits_value (ip ++ fp))
                          (- Z.of_nat (String.length fp)))
               else Raise ValueError) as Tail.
  { intros fp r2 A2. destruct (is_empty ip && is_empty fp).
    - now rewrite andb_false_r.
    - destruct r2 as [|e r3]; [reflexivity|].
      cbn [str_forall] in A2. apply andb_true_iff in A2. destruct A2 as [E _].
      destruct (float_text_classes e E) as (_ & _ & _ & _ & _ & X). now rewrite X. }
  destruct r1 as [|d r]; [exact (Tail EmptyString EmptyString eq_refl)|].
  cbn [str_forall] in A1. apply andb_true_iff in A1. destruct A1 as [D A1].
  destruct (Ascii.eqb d ".").
  - rewrite (read_digits_span r (float_text_no_underscore r A1)).
    pose proof (span_by_forall is_decimal is_float_text r A1) as A2.
    destruct (span_by is_decimal r) as [fp r2]. exact (Tail fp r2 A2).
  - refine (Tail EmptyString (String d r) _). cbn [str_forall]. now rewrite D, A1.
Qed.

Lemma float_of_string_signed (kept : string) :
  str_forall is_float_text kept = true ->
  float_of_string kept = match signed_decimal kept with
                         | Some f => Ok f
                         | None => Raise ValueError
                         end.
Proof.
  intros A. unfold float_of_string.
  rewrite (strip_numeric_class is_float_text kept
             (fun c H => proj1 (float_text_classes c H)) A).
  unfold signed_decimal.
  assert (forall neg body,
             str_forall is_float_text body = true ->
             match
               (let '(ip, r1) := span_by is_decimal body in
                let '(fp, r2) :=
                  match r1 with
                  | String d r =>
                      if Ascii.eqb d "." then span_by is_decimal r else (EmptyString, r1)
                  | EmptyString => (EmptyString, r1)
                  end in
                if is_empty r2 && negb (is_empty ip && is_empty fp)
                then Some (float_of_decimal neg (digits_value (ip ++ fp))
                             (- Z.of_nat (String.length fp)))
                else None)
             with
             | Some f => Ok f
             | None => Raise ValueError
             end
             = (let '(ip, r1) := span_by is_decimal body in
                let '(fp, r2) :=
                  match r1 with
                  | String d r =>
                      if Ascii.eqb d "." then span_by is_decimal r else (EmptyString, r1)
                  | EmptyString => (EmptyString, r1)
                  end in
                if is_empty r2 && negb (is_empty ip && is_empty fp)
                then Ok (float_of_decimal neg (digits_value (ip ++ fp))
                           (- Z.of_nat (String.length fp)))
                else Raise ValueError)) as Shape.
  { intros neg body _. destruct (span_by is_decimal body) as [ip r1].
    destruct (match r1 with
              | String d r =>
                  if Ascii.eqb d "." then span_by is_decimal r else (EmptyString, r1)
              | EmptyString => (EmptyString, r1)
              end) as [fp r2].
    now destruct (is_empty r2 && negb (is_empty ip && is_empty fp)). }
  destruct kept as [|c body]; [reflexivity|].
  pose proof A as A0. cbn [str_forall] in A. apply andb_true_iff in A. destruct A as [C A].
  destruct (float_text_classes c C) as (_ & _ & Plus & _).
  cbn [read_sign]. destruct (Ascii.eqb c "-").
  - rewrite (Shape true body A). exact (float_of_body true body A).
  - rewrite Plus. rewrite (Shape false (String c body) A0).
    exact (float_of_body false (String c body) A0).
Qed.

Section TextCoercionTheorems.

Variable float_repr : spec_float -> string.
Variable str_repr : string -> string.

Lemma parse_float_text (s : string) :
  parse_float float_repr str_repr (PStr s)
  = Ok (opt_val PFloat (signed_decimal (str_filter is_float_text s))).
Proof.
  unfold parse_float. cbn [is_none py_str].
  change (fun c => is_decimal c || Ascii.eqb c "." || Ascii.eqb c "-") with is_float_text.
  destruct (str_filter is_float_text s) as [|c kept] eqn:K; [reflexivity|].
  cbn [is_empty]. rewrite <- K.
  rewrite float_of_string_signed by apply str_filter_forall.
  now destruct (signed_decimal _).
Qed.

Lemma signed_digits_inner_hyphen (x : string) (d : ascii) (y : string) :
  signed_digits (x ++ String d (String "-" y)) = None.
Proof.
  assert (forall z, is_digit_text (z ++ String d (String "-" y)) = false) as H.
  { intros z. unfold is_digit_text. rewrite str_forall_append. cbn [str_forall].
    assert (is_decimal "-" = false) as -> by reflexivity.
    now rewrite andb_false_r, andb_false_r, andb_false_r. }
  destruct x as [|c x]; cbn [append signed_digits].
  - pose proof (H EmptyString) as H0. cbn [append] in H0. rewrite H0.
    destruct (Ascii.eqb d "-"); [|reflexivity].
    unfold is_digit_text. cbn [str_forall]. now rewrite andb_false_r.
  - pose proof (H (String c x)) as H1. cbn [append] in H1. rewrite H1, (H x).
    now destruct (Ascii.eqb c "-").
Qed.

End TextCoercionTheorems.

Lemma span_by_no_match (p : ascii -> bool) (s : string) :
  str_filter p s = EmptyString -> fst (span_by p s) = EmptyString.
Proof.
  destruct s as [|c s]; [reflexivity|]. cbn [str_filter span_by].
  destruct (p c); [discriminate | reflexivity].
Qed.

Lemma span_by_rest_filter (p : ascii -> bool) (s : string) :
  str_filter p s = EmptyString -> str_filter p (snd (span_by p s)) = EmptyString.
Proof.
  intros H. destruct (span_by_spec p s) as (E & _ & _).
  rewrite E, str_filter_append in H.
  destruct (str_filter p (fst (span_by p s))); [exact H | discriminate].
Qed.

Lemma signed_digits_no_digit (kept : string) :
  str_filter is_decimal kept = EmptyString -> signed_digits kept = None.
Proof.
  intros H. destruct kept as [|c body]; [reflexivity|].
  assert (forall s, str_filter is_decimal s = EmptyString -> is_digit_text s = false) as N.
  { intros s F. unfold is_digit_text. destruct (str_forall is_decimal s) eqn:A.
    - rewrite (str_filter_all _ _ A) in F. subst s. reflexivity.
    - apply andb_false_r. }
  cbn [signed_digits]. rewrite (N _ H).
  cbn [str_filter] in H. destruct (is_decimal c); [discriminate|].
  rewrite (N _ H). now destruct (Ascii.eqb c "-").
Qed.

Lemma signed_decimal_no_digit (kept : string) :
  str_filter is_decimal kept = EmptyString -> signed_decimal kept = None.
Proof.
  intros H. unfold signed_decimal.
  assert (forall neg body,
             str_filter is_decimal body = EmptyString ->
             (let '(ip, r1) := span_by is_decimal body in
              let '(fp, r2) :=
                match r1 with
                | String d r =>
                    if Ascii.eqb d "." then span_by is_decimal r else (EmptyString, r1)
                | EmptyString => (EmptyString, r1)
                end in
              if is_empty r2 && negb (is_empty ip && is_empty fp)
              then Some (float_of_decimal neg (digits_value (ip ++ fp))
                           (- Z.of_nat (String.length fp)))
              else None) = None) as Body.
  { intros neg body F. pose proof (span_by_no_match _ _ F) as I.
    pose proof (span_by_rest_filter _ _ F) as R.
    destruct (span_by is_decimal body) as [ip r1]. cbn [fst snd] in I, R. subst ip.
    destruct r1 as [|d r]; [reflexivity|].
    cbn [str_filter] in R. destruct (is_decimal d); [discriminate|].
    destruct (Ascii.eqb d "."); [|reflexivity].
    pose proof (span_by_no_match _ _ R) as I'.
    destruct (span_by is_decimal r) as [fp r2]. cbn [fst] in I'. subst fp.
    cbn [is_empty andb negb]. now rewrite andb_false_r. }
  destruct kept as [|c r]; [reflexivity|].
  destruct (Ascii.eqb c "-"); [|exact (Body false _ H)].
  apply Body. cbn [str_filter] in H. now destruct (is_decimal c).
Qed.

(** X7. On a text, [parse_int] keeps the decimal digits and the hyphens,
    wherever they stand, and reads what is left as an integer: digits
    alone, or one leading hyphen and digits (for at most 4300 digits, the
    limit of [int]); anything else gives None and nothing is raised. So a
    text without a digit gives None, a hyphen anywhere after a digit gives
    None ("555-1234"), and a decimal point is dropped ("3.5" gives 35). A
    list or a map is read through its text. *)
Theorem parse_int_reads_signed_digits :
  forall (float_repr : spec_float -> string) (str_repr : string -> string),
    (forall s : string,
        (String.length (str_filter is_decimal s) <= max_str_digits)%nat ->
        parse_int float_repr str_repr (PStr s)
        = Ok (opt_val PInt
                (signed_digits (str_filter (fun c => is_decimal c || Ascii.eqb c "-") s)))) /\
    (forall s : string,
        str_filter is_decimal s = EmptyString ->
        parse_int float_repr str_repr (PStr s) = Ok PNone) /\
    (forall (a : string) (d : ascii) (b : string),
        is_decimal d = true ->
        parse_int float_repr str_repr (PStr (a ++ String d (String "-" b))) = Ok PNone) /\
    parse_int float_repr str_repr (PStr "3.5") = Ok (PInt 35) /\
    parse_int float_repr str_repr (PStr "555-1234") = Ok PNone /\
    parse_int float_repr str_repr (PStr "-5 C") = Ok (PInt (-5)) /\
    parse_int float_repr str_repr (PStr "- 5") = Ok (PInt (-5)) /\
    parse_int float_repr str_repr (PList [PInt 1; PInt 2]) = Ok (PInt 12).
Proof.
  intros float_repr str_repr.
  split; [intros s L; now apply parse_int_text|].
  split; [|split; [|repeat split]].
  - intros s H. apply parse_int_text_none, signed_digits_no_digit.
    rewrite str_filter_filter; [exact H|]. intros c C. now rewrite C.
  - intros a d b D. apply parse_int_text_none. rewrite str_filter_append. cbn [str_filter].
    rewrite D. cbn [orb]. assert (Ascii.eqb "-" "-" = true) as -> by reflexivity.
    rewrite orb_true_r. apply signed_digits_inner_hyphen.
Qed.

(** X8. On a text, [parse_float] keeps the decimal digits, the points and
    the hyphens, wherever they stand, and reads what is left as a decimal:
    an optional leading hyphen, digits, and optionally a point and digits,
    with a digit on one side of the point at least; the result is the
    float nearest to that decimal, and anything else gives None. So a text
    without a digit gives None, as do "1.2.3" and "3-4"; the letter of an
    exponent is dropped ("1e5" gives 15.0), and "inf" gives None. A float
    is returned as it is. *)
Theorem parse_float_reads_signed_decimal :
  forall (float_repr : spec_float -> string) (str_repr : string -> string),
    (forall s : string,
        parse_float float_repr str_repr (PStr s)
        = Ok (opt_val PFloat (signed_decimal (str_filter is_float_text s)))) /\
    (forall s : string,
        str_filter is_decimal s = EmptyString ->
        parse_float float_repr str_repr (PStr s) = Ok PNone) /\
    (forall f : spec_float, parse_float float_repr str_repr (PFloat f) = Ok (PFloat f)) /\
    parse_float float_repr str_repr (PStr "1,234.5")
    = Ok (PFloat (S754_finite false 5429388417957888 (-42))) /\
    float_of_string "1234.5" = Ok (S754_finite false 5429388417957888 (-42)) /\
    parse_float float_repr str_repr (PStr "$1.2M")
    = Ok (PFloat (S754_finite false 5404319552844595 (-52))) /\
    float_of_string "1.2" = Ok (S754_finite false 5404319552844595 (-52)) /\
    parse_float float_repr str_repr (PStr "1e5")
    = Ok (PFloat (S754_finite false 8444249301319680 (-49))) /\
    float_of_string "15" = Ok (S754_finite false 8444249301319680 (-49)) /\
    parse_float float_repr str_repr (PStr "-.5")
    = Ok (PFloat (S754_finite true 4503599627370496 (-53))) /\
    parse_float float_repr str_repr (PStr "1.2.3") = Ok PNone /\
    parse_float float_repr str_repr (PStr "3-4") = Ok PNone /\
    parse_float float_repr str_repr (PStr "inf") = Ok PNone.
Proof.
  intros float_repr str_repr.
  split; [intros s; apply parse_float_text|].
  split; [|split; [reflexivity | repeat split; vm_compute; reflexivity]].
  intros s H. rewrite parse_float_text, signed_decimal_no_digit; [reflexivity|].
  rewrite str_filter_filter; [exact H|].
  intros c C. unfold is_float_text. now rewrite C.
Qed.

(* ================================================================= *)
(** ** The safe conversions of the scraper *)

Lemma float_trunc_quot (f : spec_float) :
  is_finite f = true ->
  float_trunc f = Ok (Z.quot (fst (float_num_den f)) (snd (float_num_den f))).
Proof.
  destruct f as [s|s| |s m e]; try discriminate; intros _; [reflexivity|].
  cbn [float_trunc float_num_den]. destruct (0 <=? e) eqn:E; cbn [fst snd].
  - rewrite Z.quot_1_r. f_equal. destruct s; [|reflexivity].
    change (Z.neg m) with (- Z.pos m). lia.
  - apply Z.leb_gt in E. assert (0 < 2 ^ (- e)) as P by (apply Z.pow_pos_nonneg; lia).
    f_equal. destruct s.
    + change (Z.neg m) with (- Z.pos m). rewrite Z.quot_opp_l by lia.
      rewrite Z.quot_div_nonneg by lia. reflexivity.
    + rewrite Z.quot_div_nonneg by lia. reflexivity.
Qed.

Lemma _to_int_safe_raises_on (v : pyval) (e : exn) :
  _to_int_safe v = Raise e -> e = OverflowError /\ exists sign, v = PFloat (S754_infinity sign).
Proof.
  intros H. split; [exact (_to_int_safe_raises v e H)|].
  unfold _to_int_safe in H. destruct v as [ | b | z | f | s | items | entries ];
    try discriminate H.
  - destruct f as [s|s| |s m e']; try discriminate H. now exists s.
  - cbn [is_none py_int] in H. destruct (int_of_string s) as [n|x] eqn:I; [discriminate|].
    rewrite (int_of_string_raises s x I) in H. discriminate.
Qed.

Lemma _to_float_safe_raises_on (v : pyval) (e : exn) :
  _to_float_safe v = Raise e ->
  e = OverflowError /\ exists z, v = PInt z /\ float_of_Z z = Raise OverflowError.
Proof.
  intros H. split; [exact (_to_float_safe_raises v e H)|].
  unfold _to_float_safe in H. destruct v as [ | b | z | f | s | items | entries ];
    try discriminate H.
  - destruct b; discriminate H.
  - exists z. split; [reflexivity|]. cbn [is_none py_float] in H.
    destruct (float_of_Z z) as [f|x] eqn:F; [discriminate|].
    now rewrite (float_of_Z_raises z x F).
  - cbn [is_none py_float] in H. destruct (float_of_string s) as [n|x] eqn:I; [discriminate|].
    rewrite (float_of_string_raises s x I) in H. discriminate.
Qed.

(** X9. [_to_int_safe] truncates a finite float toward zero (the quotient
    of its numerator by its denominator), where [parse_int] rounds it: the
    float 2.7 gives 2 here and 3 there. It returns None for None, for NaN,
    for a list or a map and for a text that is not an integer literal
    ("12.5"), and it raises exactly on an infinite float, with
    OverflowError. [_to_float_safe] raises exactly on an int too large for
    a float, with OverflowError. *)
Theorem to_int_safe_truncates :
  (forall f : spec_float,
      is_finite f = true ->
      _to_int_safe (PFloat f)
      = Ok (PInt (Z.quot (fst (float_num_den f)) (snd (float_num_den f))))) /\
  (forall (v : pyval) (e : exn),
      _to_int_safe v = Raise e <->
      e = OverflowError /\ exists sign, v = PFloat (S754_infinity sign)) /\
  (forall (v : pyval) (e : exn),
      _to_float_safe v = Raise e <->
      e = OverflowError /\ exists z, v = PInt z /\ float_of_Z z = Raise OverflowError) /\
  (forall z : Z, _to_int_safe (PInt z) = Ok (PInt z)) /\
  (forall f : spec_float, _to_float_safe (PFloat f) = Ok (PFloat f)) /\
  _to_int_safe PNone = Ok PNone /\
  _to_int_safe (PFloat S754_nan) = Ok PNone /\
  (forall items, _to_int_safe (PList items) = Ok PNone) /\
  (forall entries, _to_int_safe (PDict entries) = Ok PNone) /\
  _to_int_safe (PStr "12.5") = Ok PNone /\
  _to_int_safe (PStr " 42 ") = Ok (PInt 42) /\
  _to_int_safe (PFloat float_2_7) = Ok (PInt 2) /\
  (forall float_repr str_repr, parse_int float_repr str_repr (PFloat float_2_7) = Ok (PInt 3)) /\
  _to_float_safe (PInt (10 ^ 400)) = Raise OverflowError.
Proof.
  split; [|split; [|split; [|repeat split]]].
  - intros f F. unfold _to_int_safe. cbn [is_none py_int]. now rewrite (float_trunc_quot f F).
  - intros v e. split; [apply _to_int_safe_raises_on|].
    intros (-> & sign & ->). reflexivity.
  - intros v e. split; [apply _to_float_safe_raises_on|].
    intros (-> & z & -> & H). unfold _to_float_safe. cbn [is_none py_float]. now rewrite H.
Qed.

(* ================================================================= *)
(** ** Normalized records *)

Lemma clean_text_idempotent (s : string) : clean_text (clean_text s) = clean_text s.
Proof.
  pose proof (collapse_plain_spaced (strip s) false) as P.
  pose proof (clean_text_single_spaced s) as S.
  pose proof (clean_text_last s) as L.
  fold (sub_space_runs " " (strip s)) in P. fold (clean_text s) in P.
  unfold clean_text at 1, sub_space_runs. unfold strip.
  rewrite (lstrip_by_id _ _ (single_spaced_first _ S)), (rstrip_by_id _ _ L).
  apply collapse_fixed; [exact P | exact (single_spaced_weaken _ S)].
Qed.

Section NormalizedRecords.

Variable float_repr : spec_float -> string.
Variable str_repr : string -> string.

Lemma parse_float_typed (v x : pyval) :
  parse_float float_repr str_repr v = Ok x ->
  none_or is_float_value x = true /\ parse_float float_repr str_repr x = Ok x.
Proof.
  assert (forall f, none_or is_float_value (PFloat f) = true /\
                    parse_float float_repr str_repr (PFloat f) = Ok (PFloat f)) as F
      by (intros f; split; reflexivity).
  assert (none_or is_float_value PNone = true /\
          parse_float float_repr str_repr PNone = Ok PNone) as N by (split; reflexivity).
  assert (forall body : result spec_float,
             try_except_type_value (f <- body ;; Ok (PFloat f)) PNone = Ok x ->
             none_or is_float_value x = true /\ parse_float float_repr str_repr x = Ok x) as B.
  { intros [f|e]; cbn.
    - intros H. inversion H. apply F.
    - destruct (catches_type_value e); [|discriminate]. intros H. inversion H. apply N. }
  unfold parse_float at 1. destruct (is_none v); [intros H; inversion H; apply N|].
  destruct v as [ | b | z | f | s | items | entries ]; try apply B.
  - intros H; inversion H; apply N.
  - destruct (is_empty _); [intros H; inversion H; apply N | apply B].
  - destruct (is_empty _); [intros H; inversion H; apply N | apply B].
  - destruct (is_empty _); [intros H; inversion H; apply N | apply B].
Qed.

Lemma parse_int_typed (v x : pyval) :
  parse_int float_repr str_repr v = Ok x ->
  none_or is_int_value x = true /\ parse_int float_repr str_repr x = Ok x.
Proof.
  assert (forall n, none_or is_int_value (PInt n) = true /\
                    parse_int float_repr str_repr (PInt n) = Ok (PInt n)) as F
      by (intros f; split; reflexivity).
  assert (none_or is_int_value PNone = true /\
          parse_int float_repr str_repr PNone = Ok PNone) as N by (split; reflexivity).
  assert (forall body : result Z,
             try_except_type_value (n <- body ;; Ok (PInt n)) PNone = Ok x ->
             none_or is_int_value x = true /\ parse_int float_repr str_repr x = Ok x) as B.
  { intros [f|e]; cbn.
    - intros H. inversion H. apply F.
    - destruct (catches_type_value e); [|discriminate]. intros H. inversion H. apply N. }
  unfold parse_int at 1. destruct (is_none v); [intros H; inversion H; apply N|].
  destruct v as [ | b | z | f | s | items | entries ]; try apply B.
  - intros H; inversion H; apply N.
  - destruct (is_empty _); [intros H; inversion H; apply N | apply B].
  - destruct (is_empty _); [intros H; inversion H; apply N | apply B].
  - destruct (is_empty _); [intros H; inversion H; apply N | apply B].
Qed.

Lemma clean_field_typed (v : pyval) :
  none_or is_label_value (clean_field float_repr str_repr v) = true /\
  clean_field float_repr str_repr (clean_field float_repr str_repr v)
  = clean_field float_repr str_repr v.
Proof.
  assert (exists t, clean_text t = t /\
                    clean_field float_repr str_repr v = if is_empty t then PNone else PStr t)
    as (t & I & ->).
  { eexists. split; [apply clean_text_idempotent | reflexivity]. }
  destruct (is_empty t) eqn:E; [split; reflexivity|]. split.
  - unfold none_or, is_label_value. cbn [is_none orb]. now rewrite I, String.eqb_refl, E.
  - unfold clean_field, py_or. cbn [truthy]. rewrite E. cbn [negb py_str]. now rewrite I, E.
Qed.

Lemma normalize_field_text (raw : pydict) (k : string) :
  In k ["address"; "zpid"; "url"; "homeType"; "status"] ->
  normalize_field float_repr str_repr raw k
  = Ok (clean_field float_repr str_repr (dict_get raw k)).
Proof. intros [<-|[<-|[<-|[<-|[<-|[]]]]]]; reflexivity. Qed.

Lemma normalize_field_float (raw : pydict) (k : string) :
  In k ["zestimate"; "rentZestimate"; "bedrooms"; "bathrooms"] ->
  normalize_field float_repr str_repr raw k = parse_float float_repr str_repr (dict_get raw k).
Proof. intros [<-|[<-|[<-|[<-|[]]]]]; reflexivity. Qed.

Lemma normalize_field_int (raw : pydict) (k : string) :
  In k ["livingArea"; "lotSize"; "yearBuilt"; "price"] ->
  normalize_field float_repr str_repr raw k = parse_int float_repr str_repr (dict_get raw k).
Proof. intros [<-|[<-|[<-|[<-|[]]]]]; reflexivity. Qed.

Lemma bind_Ok_l {A B : Type} (a : A) (k : A -> result B) : (x <- Ok a ;; k x) = k a.
Proof. reflexivity. Qed.

Lemma normalize_fields_cons (raw : pydict) (field : string) (rest : list string)
  (acc : pydict) :
  normalize_fields float_repr str_repr raw (field :: rest) acc
  = (v <- normalize_field float_repr str_repr raw field ;;
     normalize_fields float_repr str_repr raw rest (dict_set field v acc)).
Proof. reflexivity. Qed.

Lemma normalize_shape (raw : pydict) (source fallback_url : option string) (n : pydict) :
  normalize_property_record float_repr str_repr raw source fallback_url = Ok n ->
  exists ze rz be ba la ls yb pr,
    parse_float float_repr str_repr (dict_get raw "zestimate") = Ok ze /\
    parse_float float_repr str_repr (dict_get raw "rentZestimate") = Ok rz /\
    parse_float float_repr str_repr (dict_get raw "bedrooms") = Ok be /\
    parse_float float_repr str_repr (dict_get raw "bathrooms") = Ok ba /\
    parse_int float_repr str_repr (dict_get raw "livingArea") = Ok la /\
    parse_int float_repr str_repr (dict_get raw "lotSize") = Ok ls /\
    parse_int float_repr str_repr (dict_get raw "yearBuilt") = Ok yb /\
    parse_int float_repr str_repr (dict_get raw "price") = Ok pr /\
    n = [("address", clean_field float_repr str_repr (dict_get raw "address"));
         ("zpid", clean_field float_repr str_repr (dict_get raw "zpid"));
         ("url", with_fallback (clean_field float_repr str_repr (dict_get raw "url"))
                   fallback_url);
         ("zestimate", ze); ("rentZestimate", rz); ("bedrooms", be); ("bathrooms", ba);
         ("livingArea", la); ("lotSize", ls);
         ("homeType", clean_field float_repr str_repr (dict_get raw "homeType"));
         ("yearBuilt", yb); ("price", pr);
         ("status", clean_field float_repr str_repr (dict_get raw "status"));
         ("sourceInput", PStr (clean_text (opt_text source)))].
Proof.
  intros E. unfold normalize_property_record in E.
  apply bind_ok in E. destruct E as (n0 & F & E).
  unfold fields in F.
  do 3 (rewrite normalize_fields_cons, normalize_field_text, bind_Ok_l in F by (cbn; tauto)).
  rewrite normalize_fields_cons, normalize_field_float in F by (cbn; tauto).
  apply bind_ok in F. destruct F as (ze & Hze & F).
  rewrite normalize_fields_cons, normalize_field_float in F by (cbn; tauto).
  apply bind_ok in F. destruct F as (rz & Hrz & F).
  rewrite normalize_fields_cons, normalize_field_float in F by (cbn; tauto).
  apply bind_ok in F. destruct F as (be & Hbe & F).
  rewrite normalize_fields_cons, normalize_field_float in F by (cbn; tauto).
  apply bind_ok in F. destruct F as (ba & Hba & F).
  rewrite normalize_fields_cons, normalize_field_int in F by (cbn; tauto).
  apply bind_ok in F. destruct F as (la & Hla & F).
  rewrite normalize_fields_cons, normalize_field_int in F by (cbn; tauto).
  apply bind_ok in F. destruct F as (ls & Hls & F).
  rewrite normalize_fields_cons, normalize_field_text, bind_Ok_l in F by (cbn; tauto).
  rewrite normalize_fields_cons, normalize_field_int in F by (cbn; tauto).
  apply bind_ok in F. destruct F as (yb & Hyb & F).
  rewrite normalize_fields_cons, normalize_field_int in F by (cbn; tauto).
  apply bind_ok in F. destruct F as (pr & Hpr & F).
  rewrite normalize_fields_cons, normalize_field_text, bind_Ok_l in F by (cbn; tauto).
  cbn [normalize_fields] in F. injection F as <-. injection E as <-.
  exists ze, rz, be, ba, la, ls, yb, pr. repeat (split; [assumption|]).
  destruct fallback_url as [fb|]; cbn [with_fallback];
    [destruct (negb (truthy _) && negb (is_empty fb))|]; reflexivity.
Qed.

Lemma with_fallback_clean (v : pyval) (fallback_url : option string) :
  none_or is_clean_value
    (with_fallback (clean_field float_repr str_repr v) fallback_url) = true.
Proof.
  assert (none_or is_clean_value (clean_field float_repr str_repr v) = true) as U.
  { destruct (clean_field_typed v) as [T _]. unfold none_or in *.
    destruct (clean_field float_repr str_repr v); try exact T.
    cbn in T |- *. apply andb_true_iff in T. tauto. }
  destruct fallback_url as [f|]; [|exact U]. cbn [with_fallback].
  destruct (negb (truthy _) && negb (is_empty f)); [|exact U].
  unfold none_or, is_clean_value. cbn [is_none orb].
  rewrite clean_text_idempotent. apply String.eqb_refl.
Qed.

End NormalizedRecords.

(** X10. A record that [normalize_property_record] returns is typed: the
    estimate, rent estimate, bedroom and bathroom fields hold a float or
    None, the area, lot, year and price fields an int or None, and the
    address, identifier, home type and status fields a text that is
    cleaned and not empty, or None. Its URL is the cleaned URL of the raw
    record when that is not empty and otherwise the cleaned fallback URL,
    so with a fallback that is not empty it is always a text; the source
    input is the cleaned source, the empty text when there is none. *)
Theorem normalized_record_is_typed :
  forall (float_repr : spec_float -> string) (str_repr : string -> string)
         (raw_map : pydict) (source fallback_url : option string),
    match normalize_property_record float_repr str_repr raw_map source fallback_url with
    | Ok n =>
        Forall (fun k => none_or is_float_value (dict_get n k) = true)
          ["zestimate"; "rentZestimate"; "bedrooms"; "bathrooms"] /\
        Forall (fun k => none_or is_int_value (dict_get n k) = true)
          ["livingArea"; "lotSize"; "yearBuilt"; "price"] /\
        Forall (fun k => none_or is_label_value (dict_get n k) = true)
          ["address"; "zpid"; "homeType"; "status"] /\
        none_or is_clean_value (dict_get n "url") = true /\
        dict_get n "url"
        = with_fallback (clean_field float_repr str_repr (dict_get raw_map "url")) fallback_url /\
        (forall f, fallback_url = Some f -> is_empty f = false ->
                   is_clean_value (dict_get n "url") = true) /\
        dict_get n "sourceInput" = PStr (clean_text (opt_text source))
    | Raise e => e = OverflowError
    end.
Proof.
  intros float_repr str_repr raw_map source fallback_url.
  destruct (normalize_property_record float_repr str_repr raw_map source fallback_url)
    as [n|e] eqn:E;
    [|now apply normalize_property_record_raises in E].
  apply normalize_shape in E.
  destruct E as (ze & rz & be & ba & la & ls & yb & pr &
                 Hze & Hrz & Hbe & Hba & Hla & Hls & Hyb & Hpr & ->).
  pose proof (with_fallback_clean float_repr str_repr (dict_get raw_map "url") fallback_url)
    as U.
  split; [|split; [|split; [|split; [|split; [|split]]]]].
  - repeat constructor; cbn [dict_get lookup String.eqb Ascii.eqb Bool.eqb];
      eapply parse_float_typed; eassumption.
  - repeat constructor; cbn [dict_get lookup String.eqb Ascii.eqb Bool.eqb];
      eapply parse_int_typed; eassumption.
  - repeat constructor; cbn [dict_get lookup String.eqb Ascii.eqb Bool.eqb];
      apply clean_field_typed.
  - exact U.
  - reflexivity.
  - intros f -> N. cbn [dict_get lookup String.eqb Ascii.eqb Bool.eqb with_fallback].
    rewrite N, andb_true_r.
    destruct (clean_field_typed float_repr str_repr (dict_get raw_map "url")) as [T _].
    destruct (clean_field float_repr str_repr (dict_get raw_map "url")) eqn:C;
      try discriminate T; cbn [truthy negb is_clean_value].
    + rewrite clean_text_idempotent. apply String.eqb_refl.
    + unfold none_or in T. cbn in T. apply andb_true_iff in T. destruct T as [T1 T2].
      rewrite T1. exact T2.
  - reflexivity.
Qed.

(** X11. [normalize_property_record] is idempotent: normalizing a record
    that it returned, with the same source and fallback URL, returns the
    same record, and in particular never raises. *)
Theorem normalize_property_record_idempotent :
  forall (float_repr : spec_float -> string) (str_repr : string -> string)
         (raw_map : pydict) (source fallback_url : option string),
    match normalize_property_record float_repr str_repr raw_map source fallback_url with
    | Ok n => normalize_property_record float_repr str_repr n source fallback_url = Ok n
    | Raise e => e = OverflowError
    end.
Proof.
  intros float_repr str_repr raw_map source fallback_url.
  destruct (normalize_property_record float_repr str_repr raw_map source fallback_url)
    as [n|e] eqn:E;
    [|now apply normalize_property_record_raises in E].
  apply normalize_shape in E.
  destruct E as (ze & rz & be & ba & la & ls & yb & pr &
                 Hze & Hrz & Hbe & Hba & Hla & Hls & Hyb & Hpr & En).
  apply parse_float_typed in Hze, Hrz, Hbe, Hba. apply parse_int_typed in Hla, Hls, Hyb, Hpr.
  destruct Hze as [_ Hze], Hrz as [_ Hrz], Hbe as [_ Hbe], Hba as [_ Hba],
           Hla as [_ Hla], Hls as [_ Hls], Hyb as [_ Hyb], Hpr as [_ Hpr].
  pose proof (clean_field_typed float_repr str_repr (dict_get raw_map "address")) as [_ Ha].
  pose proof (clean_field_typed float_repr str_repr (dict_get raw_map "zpid")) as [_ Hz].
  pose proof (clean_field_typed float_repr str_repr (dict_get raw_map "url")) as [Tu Hu].
  pose proof (clean_field_typed float_repr str_repr (dict_get raw_map "homeType")) as [_ Hh].
  pose proof (clean_field_typed float_repr str_repr (dict_get raw_map "status")) as [_ Hs].
  set (a := clean_field float_repr str_repr (dict_get raw_map "address")) in *.
  set (z := clean_field float_repr str_repr (dict_get raw_map "zpid")) in *.
  set (u := clean_field float_repr str_repr (dict_get raw_map "url")) in *.
  set (h := clean_field float_repr str_repr (dict_get raw_map "homeType")) in *.
  set (s := clean_field float_repr str_repr (dict_get raw_map "status")) in *.
  clearbody a z u h s.
  assert (dict_get n "address" = a /\ dict_get n "zpid" = z /\
          dict_get n "url" = with_fallback u fallback_url /\
          dict_get n "zestimate" = ze /\ dict_get n "rentZestimate" = rz /\
          dict_get n "bedrooms" = be /\ dict_get n "bathrooms" = ba /\
          dict_get n "livingArea" = la /\ dict_get n "lotSize" = ls /\
          dict_get n "homeType" = h /\ dict_get n "yearBuilt" = yb /\
          dict_get n "price" = pr /\ dict_get n "status" = s)
    as (Ga & Gz & Gu & Gze & Grz & Gbe & Gba & Gla & Gls & Gh & Gyb & Gpr & Gs)
      by (rewrite En; repeat split; reflexivity).
  unfold normalize_property_record, fields.
  rewrite normalize_fields_cons, normalize_field_text, Ga, Ha, bind_Ok_l by (cbn; tauto).
  rewrite normalize_fields_cons, normalize_field_text, Gz, Hz, bind_Ok_l by (cbn; tauto).
  rewrite normalize_fields_cons, normalize_field_text, Gu, bind_Ok_l by (cbn; tauto).
  rewrite normalize_fields_cons, normalize_field_float, Gze, Hze, bind_Ok_l by (cbn; tauto).
  rewrite normalize_fields_cons, normalize_field_float, Grz, Hrz, bind_Ok_l by (cbn; tauto).
  rewrite normalize_fields_cons, normalize_field_float, Gbe, Hbe, bind_Ok_l by (cbn; tauto).
  rewrite normalize_fields_cons, normalize_field_float, Gba, Hba, bind_Ok_l by (cbn; tauto).
  rewrite normalize_fields_cons, normalize_field_int, Gla, Hla, bind_Ok_l by (cbn; tauto).
  rewrite normalize_fields_cons, normalize_field_int, Gls, Hls, bind_Ok_l by (cbn; tauto).
  rewrite normalize_fields_cons, normalize_field_text, Gh, Hh, bind_Ok_l by (cbn; tauto).
  rewrite normalize_fields_cons, normalize_field_int, Gyb, Hyb, bind_Ok_l by (cbn; tauto).
  rewrite normalize_fields_cons, normalize_field_int, Gpr, Hpr, bind_Ok_l by (cbn; tauto).
  rewrite normalize_fields_cons, normalize_field_text, Gs, Hs, bind_Ok_l by (cbn; tauto).
  cbn [normalize_fields]. rewrite bind_Ok_l.
  set (u2 := clean_field float_repr str_repr (with_fallback u fallback_url)).
  assert (match fallback_url with
          | Some fb => if negb (truthy u2) && negb (is_empty fb)
                       then PStr (clean_text fb) else u2
          | None => u2
          end = with_fallback u fallback_url) as Fix.
  { subst u2. destruct fallback_url as [f|]; cbn [with_fallback]; [|exact Hu].
    destruct (truthy u) eqn:T; cbn [negb andb]; [now rewrite Hu, T|].
    destruct (is_empty f) eqn:N; cbn [negb]; [now rewrite Hu, T|].
    assert (clean_field float_repr str_repr (PStr (clean_text f))
            = if is_empty (clean_text f) then PNone else PStr (clean_text f)) as ->.
    { unfold clean_field, py_or. cbn [truthy].
      destruct (is_empty (clean_text f)) eqn:C; cbn [negb py_str]; [reflexivity|].
      now rewrite clean_text_idempotent, C. }
    destruct (is_empty (clean_text f)) eqn:C; cbn [truthy negb andb]; [reflexivity|].
    now rewrite C. }
  f_equal. rewrite En. clearbody u2.
  destruct fallback_url as [f|]; cbn [with_fallback] in Fix |- *;
    cbn [dict_get dict_set lookup String.eqb Ascii.eqb Bool.eqb].
  - destruct (negb (truthy u2) && negb (is_empty f));
      cbn [dict_get dict_set lookup String.eqb Ascii.eqb Bool.eqb]; rewrite <- Fix;
      reflexivity.
  - rewrite <- Fix. reflexivity.
Qed.

(* ================================================================= *)
(** ** Export *)


Lemma lookup_dict_set_same (k : string) (v : pyval) (d : pydict) :
  lookup k (dict_set k v d) = Some v.
Proof.
  induction d as [|[k' v'] d IH]; cbn [dict_set lookup]; [now rewrite String.eqb_refl|].
  destruct (String.eqb k k') eqn:E; cbn [lookup]; [now rewrite String.eqb_refl|].
  now rewrite E.
Qed.

Lemma lookup_dict_set_other (k k' : string) (v : pyval) (d : pydict) :
  String.eqb k' k = false -> lookup k' (dict_set k v d) = lookup k' d.
Proof.
  intros N. induction d as [|[k0 v0] d IH]; cbn [dict_set lookup]; [now rewrite N|].
  destruct (String.eqb k k0) eqn:E; cbn [lookup].
  - apply String.eqb_eq in E. subst k0. now rewrite N.
  - now rewrite IH.
Qed.

Section ExportProofs.

Variable json_dumps : pyval -> string.
Variable csv_writerow : list pyval -> string.









End ExportProofs.








(* ================================================================= *)
(** ** The price history of a payload *)

Section PriceHistory.

Variable float_repr : spec_float -> string.
Variable str_repr : string -> string.

Lemma _to_int_safe_typed (v x : pyval) :
  _to_int_safe v = Ok x -> none_or is_int_value x = true.
Proof.
  unfold _to_int_safe. destruct (is_none v); [intros H; now injection H as <-|].
  destruct (py_int v) as [n|e]; cbn [bind try_except_type_value].
  - intros H. now injection H as <-.
  - destruct (catches_type_value e); [|discriminate]. intros H. now injection H as <-.
Qed.

Lemma price_events_kept (items : list pyval) (evs : list PriceEvent) :
  price_events float_repr str_repr items = Ok evs ->
  Forall is_informative evs /\
  Forall (fun e => none_or is_int_value (price e) = true) evs /\
  (List.length evs <= List.length items)%nat.
Proof.
  revert evs. induction items as [|item items IH]; intros evs H.
  - injection H as <-. repeat split; constructor.
  - assert (forall evs', price_events float_repr str_repr items = Ok evs' ->
                         evs = evs' ->
                         Forall is_informative evs /\
                         Forall (fun e => none_or is_int_value (price e) = true) evs /\
                         (List.length evs <= List.length (item :: items))%nat) as Skip.
    { intros evs' H' ->. destruct (IH evs' H') as (A & B & C).
      repeat split; try assumption. cbn [List.length]. lia. }
    destruct item as [ | b | z | f | s | l | d ]; try (now apply (Skip evs)).
    cbn [price_events] in H.
    apply bind_ok in H. destruct H as (p & Hp & H).
    apply bind_ok in H. destruct H as (tail & Ht & H).
    destruct (IH tail Ht) as (A & B & C).
    destruct (negb (is_empty _) || negb (is_empty _) || negb (is_none p)) eqn:K;
      injection H as <-.
    + repeat split.
      * constructor; [|exact A]. unfold is_informative. cbn [date event price].
        apply orb_true_iff in K. destruct K as [K|K].
        -- apply orb_true_iff in K. destruct K as [K|K]; apply negb_true_iff in K;
             apply is_empty_false in K; tauto.
        -- right. right. intros ->. discriminate K.
      * constructor; [|exact B]. cbn [price]. exact (_to_int_safe_typed _ _ Hp).
      * cbn [List.length]. lia.
    + repeat split; try assumption. cbn [List.length]. lia.
Qed.

Lemma price_events_raise_iff (items : list pyval) (e : exn) :
  price_events float_repr str_repr items = Raise e <->
  e = OverflowError /\
  exists d sign, In (PDict d) items /\ dict_get d "price" = PFloat (S754_infinity sign).
Proof.
  induction items as [|item items IH].
  - split; [discriminate|]. intros (_ & d & sign & [] & _).
  - assert (forall P : Prop,
               (P <-> e = OverflowError /\
                      exists d sign, In (PDict d) items /\
                                     dict_get d "price" = PFloat (S754_infinity sign)) ->
               (forall d, item <> PDict d) ->
               (P <-> e = OverflowError /\
                      exists d sign, In (PDict d) (item :: items) /\
                                     dict_get d "price" = PFloat (S754_infinity sign))) as Skip.
    { intros P HP N. rewrite HP. split; intros (E & d & sign & I & G); (split; [exact E|]);
        exists d, sign; (split; [|exact G]).
      - now right.
      - destruct I as [I|I]; [now apply N in I | exact I]. }
    destruct item as [ | b | z | f | s | l | d ];
      try (apply (Skip _ IH); intros d; discriminate).
    cbn [price_events].
    destruct (_to_int_safe (dict_get d "price")) as [p|x] eqn:Hp; cbn [bind].
    + destruct (price_events float_repr str_repr items) as [tail|y] eqn:Ht; cbn [bind].
      * split.
        -- destruct (negb _ || negb _ || negb (is_none p)); discriminate.
        -- intros (E & d' & sign & [I|I] & G).
           ++ injection I as <-. rewrite G in Hp. discriminate.
           ++ assert (Ok tail = Raise e) as X; [|discriminate X].
              apply IH. split; [exact E|]. now exists d', sign.
      * split.
        -- intros H. injection H as <-. destruct (proj1 IH eq_refl) as (E & d' & sign & I & G).
           split; [exact E|]. exists d', sign. split; [now right | exact G].
        -- intros (E & _). subst e. f_equal.
           exact (price_events_raises float_repr str_repr items y Ht).
    + destruct (_to_int_safe_raises_on _ _ Hp) as (-> & sign & G). split.
      * intros H. injection H as <-. split; [reflexivity|]. exists d, sign.
        split; [now left | exact G].
      * intros (-> & _). reflexivity.
Qed.

End PriceHistory.

(** X14. The price history read from a payload holds only informative
    events: each has a date, a name or a price, its price is an int or
    None, and there are no more events than items. On items that are
    printable (no int of more than 4300 digits, as in every decoded JSON
    document) reading raises exactly when an item that is a map has an
    infinite float as its price, with OverflowError. A decoded document
    without a qualifying node gives the bare record of the input: its
    value as address, an empty identifier, no figures and an empty
    history. *)
Theorem price_history_keeps_informative_events :
  forall (float_repr : spec_float -> string) (str_repr : string -> string),
    (forall (items : list pyval) (evs : list PriceEvent),
        price_events float_repr str_repr items = Ok evs ->
        Forall is_informative evs /\
        Forall (fun e => none_or is_int_value (price e) = true) evs /\
        (List.length evs <= List.length items)%nat) /\
    (forall (items : list pyval) (e : exn),
        printable (PList items) = true ->
        (price_events float_repr str_repr items = Raise e <->
         e = OverflowError /\
         exists d sign,
           In (PDict d) items /\ dict_get d "price" = PFloat (S754_infinity sign))) /\
    (forall (data : pyval) (record : InputRecord) (url : string),
        walk data = None ->
        _parse_from_json_blob float_repr str_repr data record url
        = Ok (mkPropertyData (PStr (value record)) EmptyString url
                PNone PNone PNone PNone PNone PNone PNone (Some []))) /\
    price_events float_repr str_repr
      [PDict [("date", PStr "2020-01-01"); ("price", PStr "100")];
       PStr "sold";
       PDict [("note", PStr "none")];
       PDict [("eventDate", PInt 2021); ("priceChangeEvent", PStr "Sold"); ("price", PFloat float_2_7)]]
    = Ok [mkPriceEvent "2020-01-01" EmptyString (PInt 100);
          mkPriceEvent "2021" "Sold" (PInt 2)] /\
    printable (PList [PDict [("date", PStr "2020-01-01")];
                      PDict [("price", PFloat (S754_infinity false))]]) = true /\
    price_events float_repr str_repr
      [PDict [("date", PStr "2020-01-01")]; PDict [("price", PFloat (S754_infinity false))]]
    = Raise OverflowError.
Proof.
  intros float_repr str_repr.
  split; [apply price_events_kept|].
  split; [intros items e _; apply price_events_raise_iff|].
  split; [|repeat split; reflexivity].
  intros data record url W. unfold _parse_from_json_blob. rewrite W. reflexivity.
Qed.

(* ================================================================= *)
(** ** The year of construction *)

Lemma rmatch_four (p1 p2 p3 p4 : ascii -> bool) (k : mstate -> option mstate)
  (prev : option ascii) (s : string) (pos : nat) (caps : list (nat * (nat * nat))) :
  rmatch (RSeq (RSeq (RChar p1) (RSeq (RChar p2) REps)) (RSeq (RChar p3) (RChar p4)))
    (mkMstate prev s pos caps) k
  = match s with
    | String a (String b (String c (String d r))) =>
        if p1 a && p2 b && p3 c && p4 d
        then k (mkMstate (Some d) r (S (S (S (S pos)))) caps) else None
    | _ => None
    end.
Proof.
  cbn [rmatch m_rest m_pos m_caps].
  destruct s as [|a [|b [|c [|d r]]]]; cbn [m_rest m_pos m_caps];
    try reflexivity;
    try (destruct (p1 a); cbn [m_rest m_pos m_caps andb]; [|reflexivity]);
    try reflexivity;
    try (destruct (p2 b); cbn [m_rest m_pos m_caps andb]; [|reflexivity]);
    try reflexivity;
    try (destruct (p3 c); cbn [m_rest m_pos m_caps andb]; [|reflexivity]);
    try reflexivity.
Qed.

Lemma year_first_is_word (raw : string) :
  is_year_text raw = true -> opt_word (next_char raw) = true.
Proof.
  destruct raw as [|a [|b [|c [|d [|]]]]]; try discriminate.
  cbn [is_year_text next_char opt_word]. intros H.
  apply orb_true_iff in H. destruct H as [H|H];
    repeat (apply andb_true_iff in H; destruct H as [H ?]);
    apply Ascii.eqb_eq in H; subst a; reflexivity.
Qed.

Lemma engine_year_here (prev : option ascii) (s : string) (pos : nat) :
  match year_here prev s with
  | Some raw =>
      exists final,
        rmatch year_pattern (mkMstate prev s pos []) Some = Some final /\
        cap_lookup 1 (m_caps final) = Some (pos, (pos + 4)%nat)
  | None => rmatch year_pattern (mkMstate prev s pos []) Some = None
  end.
Proof.
  unfold year_pattern, digit_class.
  change (RLit "19") with (RSeq (RChar (Ascii.eqb "1")) (RSeq (RChar (Ascii.eqb "9")) REps)).
  change (RLit "20") with (RSeq (RChar (Ascii.eqb "2")) (RSeq (RChar (Ascii.eqb "0")) REps)).
  rewrite rmatch_seq. change (rmatch RWordB ?st ?k) with (if at_word_boundary st then k st else None).
  cbv beta. rewrite rmatch_seq, rmatch_group, rmatch_alt, !rmatch_four.
  unfold at_word_boundary at 1. unfold year_here.
  cbn [m_prev m_rest m_pos m_caps].
  destruct s as [|a [|b [|c [|d r]]]];
    try (destruct (at_word_boundary _); reflexivity).
  cbv zeta. unfold set_cap. cbn [rmatch m_prev m_rest m_pos m_caps].
  unfold at_word_boundary. cbn [m_prev m_rest next_char opt_word is_year_text].
  pose proof (year_first_is_word (String a (String b (String c (String d EmptyString))))) as W.
  cbn [next_char opt_word is_year_text] in W.
  destruct (Ascii.eqb "1" a && Ascii.eqb "9" b && in_range 53 57 c && is_decimal d) eqn:Y1.
  - rewrite (W eq_refl). cbn [orb andb].
    assert (is_word d = true) as D.
    { apply andb_true_iff in Y1. destruct Y1 as [_ D].
      now destruct (decimal_classes d D) as (_ & _ & _ & ?). }
    rewrite D. cbn [xorb].
    destruct (opt_word prev); cbn [xorb negb andb]; [reflexivity|].
    destruct (opt_word (next_char r)); cbn [negb andb xorb or_else].
    + destruct (Ascii.eqb "2" a && Ascii.eqb "0" b && in_range 48 52 c && is_decimal d);
        reflexivity.
    + eexists. split; [reflexivity|]. cbn [m_caps cap_lookup Nat.eqb]. f_equal. f_equal. lia.
  - cbn [orb or_else].
    destruct (Ascii.eqb "2" a && Ascii.eqb "0" b && in_range 48 52 c && is_decimal d) eqn:Y2.
    + rewrite (W eq_refl). cbn [andb].
      assert (is_word d = true) as D.
      { apply andb_true_iff in Y2. destruct Y2 as [_ D].
        now destruct (decimal_classes d D) as (_ & _ & _ & ?). }
      rewrite D. cbn [xorb].
      destruct (opt_word prev); cbn [xorb negb andb]; [reflexivity|].
      destruct (opt_word (next_char r)); cbn [negb andb xorb or_else]; [reflexivity|].
      eexists. split; [reflexivity|]. cbn [m_caps cap_lookup Nat.eqb]. f_equal. f_equal. lia.
    + rewrite andb_false_r. cbn [andb]. now destruct (xorb _ _).
Qed.

Lemma search_from_first_year (s : string) :
  forall prev pos,
    match first_year prev s with
    | Some (i, raw) =>
        exists m,
          search_from year_pattern prev s pos = Some m /\
          cap_lookup 1 (groups m) = Some ((pos + i)%nat, (pos + i + 4)%nat)
    | None => search_from year_pattern prev s pos = None
    end.
Proof.
  induction s as [|c s IH]; intros prev pos.
  - pose proof (engine_year_here prev EmptyString pos) as E.
    cbn [first_year search_from]. destruct (year_here prev EmptyString) as [raw|].
    + destruct E as (final & -> & C). eexists. split; [reflexivity|].
      cbn [groups]. now rewrite Nat.add_0_r.
    + now rewrite E.
  - pose proof (engine_year_here prev (String c s) pos) as E.
    cbn [first_year search_from]. destruct (year_here prev (String c s)) as [raw|].
    + destruct E as (final & -> & C). eexists. split; [reflexivity|].
      cbn [groups]. now rewrite Nat.add_0_r.
    + rewrite E. specialize (IH (Some c) (S pos)).
      destruct (first_year (Some c) s) as [[i raw]|]; [|exact IH].
      destruct IH as (m & -> & C). exists m. split; [reflexivity|].
      rewrite C. f_equal. f_equal; lia.
Qed.

Lemma year_text_value (raw : string) :
  is_year_text raw = true ->
  String.length raw = 4%nat /\ digit_run raw /\ 1950 <= digits_value raw <= 2049.
Proof.
  destruct raw as [|a [|b [|c [|d [|]]]]]; try discriminate.
  cbn [is_year_text]. intros H.
  assert (forall lo hi x, in_range lo hi x = true -> (lo <= code x <= hi)%N) as R.
  { intros lo hi x X. unfold in_range in X. apply andb_true_iff in X.
    destruct X as [X1 X2]. apply N.leb_le in X1, X2. split; assumption. }
  assert (forall x, (48 <= code x <= 57)%N -> is_decimal x = true) as Dec.
  { intros x [X1 X2]. unfold is_decimal, in_range. apply andb_true_iff.
    split; apply N.leb_le; assumption. }
  split; [reflexivity|].
  apply orb_true_iff in H. destruct H as [H|H];
    apply andb_true_iff in H; destruct H as [H D];
    apply andb_true_iff in H; destruct H as [H C];
    apply andb_true_iff in H; destruct H as [A B];
    apply Ascii.eqb_eq in A, B; subst a b;
    apply R in C; pose proof (R _ _ _ D) as D'.
  - split.
    + split; [discriminate|]. cbn [str_forall]. rewrite D, (Dec c) by lia. reflexivity.
    + unfold digits_value. cbn [digits_value_from]. unfold digit_value.
      change (code "1") with 49%N. change (code "9") with 57%N. lia.
  - split.
    + split; [discriminate|]. cbn [str_forall]. rewrite D, (Dec c) by lia. reflexivity.
    + unfold digits_value. cbn [digits_value_from]. unfold digit_value.
      change (code "2") with 50%N. change (code "0") with 48%N. lia.
Qed.

Lemma year_after_here (prev : option ascii) (s raw : string) :
  year_after prev s 0 raw <-> year_here prev s = Some raw.
Proof.
  split.
  - intros (pre & post & -> & L & Y & P & N).
    destruct pre; [|discriminate L]. cbn [append]. cbn [run_prev last_char] in P.
    destruct raw as [|a [|b [|c [|d [|]]]]]; try discriminate Y.
    cbn [append year_here]. now rewrite P, Y, N.
  - unfold year_here. destruct s as [|a [|b [|c [|d r]]]]; try discriminate.
    cbv zeta.
    destruct (opt_word prev) eqn:P; [discriminate|].
    destruct (is_year_text _) eqn:Y; [|discriminate].
    destruct (opt_word (next_char r)) eqn:N; [discriminate|].
    cbn [negb andb]. intros H. injection H as <-.
    exists EmptyString, r. repeat split; assumption.
Qed.

Lemma year_after_shift (prev : option ascii) (c : ascii) (s : string) (j : nat) (raw : string) :
  year_after prev (String c s) (S j) raw <-> year_after (Some c) s j raw.
Proof.
  split.
  - intros (pre & post & E & L & Y & P & N).
    destruct pre as [|x pre]; [discriminate L|].
    cbn [append] in E. injection E as -> ->. rewrite run_prev_cons in P.
    exists pre, post. cbn [String.length] in L. repeat split; try assumption. lia.
  - intros (pre & post & -> & <- & Y & P & N).
    exists (String c pre), post. rewrite run_prev_cons. repeat split; assumption.
Qed.

Lemma year_after_empty (prev : option ascii) (j : nat) (raw : string) :
  year_after prev EmptyString (S j) raw -> False.
Proof. intros (pre & post & E & L & _). destruct pre; discriminate. Qed.

Lemma first_year_leftmost (s : string) :
  forall prev,
    match first_year prev s with
    | Some (i, raw) =>
        year_after prev s i raw /\
        forall j raw', year_after prev s j raw' -> (i <= j)%nat /\ (j = i -> raw' = raw)
    | None => forall j raw', ~ year_after prev s j raw'
    end.
Proof.
  induction s as [|c s IH]; intros prev; cbn [first_year].
  - destruct (year_here prev EmptyString) as [raw|] eqn:H.
    + split; [now apply year_after_here|]. intros j raw' Y. split; [lia|].
      intros ->. apply year_after_here in Y. congruence.
    + intros [|j] raw' Y; [apply year_after_here in Y; congruence|].
      exact (year_after_empty _ _ _ Y).
  - destruct (year_here prev (String c s)) as [raw|] eqn:H.
    + split; [now apply year_after_here|]. intros j raw' Y. split; [lia|].
      intros ->. apply year_after_here in Y. congruence.
    + specialize (IH (Some c)). destruct (first_year (Some c) s) as [[i raw]|].
      * destruct IH as [F M]. split; [now apply year_after_shift|].
        intros [|j] raw' Y; [apply year_after_here in Y; congruence|].
        apply year_after_shift in Y. destruct (M j raw' Y) as [L E].
        split; [lia|]. intros J. apply E. lia.
      * intros [|j] raw' Y; [apply year_after_here in Y; congruence|].
        apply year_after_shift in Y. exact (IH j raw' Y).
Qed.

Lemma year_at_after (text : string) (i : nat) (raw : string) :
  year_at text i raw <-> year_after None text i raw.
Proof.
  assert (forall pre, opt_word (run_prev None pre) = opt_word (last_char pre)) as R.
  { intros pre. unfold run_prev. now destruct (last_char pre). }
  split; intros (pre & post & E & L & Y & P & N); exists pre, post;
    (repeat split; try assumption); [now rewrite R | now rewrite <- R].
Qed.

(** X15. [_extract_year] returns the first year from 1950 to 2049 that
    stands in the page text as a word of its own (no letter, digit or
    underscore right before or after its four digits), and None when there
    is none; so its result is always within 1950..2049, a longer number
    such as "19871" is passed over, and so is a year glued to a word. *)
Theorem extract_year_first_in_range :
  (forall text : string, year_value text (_extract_year text)) /\
  _extract_year "Built in 1987." = PInt 1987 /\
  _extract_year "MLS 19871, built 2005" = PInt 2005 /\
  _extract_year "sold in 2050, built 1949" = PNone /\
  _extract_year "model a1999" = PNone /\
  _extract_year "2021-05-01" = PInt 2021.
Proof.
  split; [|repeat split; reflexivity].
  intros text. unfold year_value, _extract_year, re_search.
  pose proof (first_year_leftmost text None) as L.
  pose proof (search_from_first_year text None O) as S.
  destruct (first_year None text) as [[i raw]|].
  - right. destruct S as (m & -> & C). destruct L as [F M].
    exists i, raw. split; [now apply year_at_after|].
    split; [intros j raw' Y; apply year_at_after in Y; exact (proj1 (M j raw' Y))|].
    destruct F as (pre & post & -> & <- & Y & _).
    destruct (year_text_value raw Y) as (Len & Run & Range).
    unfold group. rewrite C. cbn [Nat.add].
    replace (String.length pre + 4 - String.length pre)%nat with (String.length raw) by lia.
    rewrite substring_append, (int_of_string_digits raw Run);
      [split; [reflexivity | exact Range]|].
    rewrite Len. unfold max_str_digits. lia.
  - left. rewrite S. split; [reflexivity|].
    intros i raw Y. apply year_at_after in Y. exact (L i raw Y).
Qed.

(* ================================================================= *)
(** ** The property type *)

(** X16. [_extract_property_type] returns the first of "Single Family",
    "Condo", "Townhouse", "Multi Family" and "Apartment", in this order,
    that the page text mentions in any letter case, with the spelling of
    the list, and None when it mentions none: the order of the list
    decides and not the place in the text, so a text that speaks of a
    condo before a single family home gives "Single Family". *)
Theorem extract_property_type_by_priority :
  (forall text : string,
      match _extract_property_type text with
      | PStr c =>
          exists before after,
            property_types = (before ++ c :: after)%list /\
            mentions c text /\ forall b, In b before -> ~ mentions b text
      | PNone => forall c, In c property_types -> ~ mentions c text
      | _ => False
      end) /\
  _extract_property_type "Condo next to a single family home" = PStr "Single Family" /\
  _extract_property_type "TOWNHOUSE for sale" = PStr "Townhouse" /\
  _extract_property_type "A multi-family lot" = PNone /\
  _extract_property_type "Condominium" = PStr "Condo".
Proof.
  split; [|repeat split; reflexivity].
  intros text. unfold _extract_property_type.
  assert (forall c, contains (lower c) (lower text) = true <-> mentions c text) as M
      by (intros c; apply contains_occurs).
  assert (forall c, contains (lower c) (lower text) = false -> ~ mentions c text) as N.
  { intros c H X. apply M in X. congruence. }
  destruct (contains (lower "Single Family") (lower text)) eqn:C1.
  { exists [], ["Condo"; "Townhouse"; "Multi Family"; "Apartment"].
    split; [reflexivity|]. split; [now apply M | intros b []]. }
  destruct (contains (lower "Condo") (lower text)) eqn:C2.
  { exists ["Single Family"], ["Townhouse"; "Multi Family"; "Apartment"].
    split; [reflexivity|]. split; [now apply M|].
    intros b [<-|[]]. now apply N. }
  destruct (contains (lower "Townhouse") (lower text)) eqn:C3.
  { exists ["Single Family"; "Condo"], ["Multi Family"; "Apartment"].
    split; [reflexivity|]. split; [now apply M|].
    intros b [<-|[<-|[]]]; now apply N. }
  destruct (contains (lower "Multi Family") (lower text)) eqn:C4.
  { exists ["Single Family"; "Condo"; "Townhouse"], ["Apartment"].
    split; [reflexivity|]. split; [now apply M|].
    intros b [<-|[<-|[<-|[]]]]; now apply N. }
  destruct (contains (lower "Apartment") (lower text)) eqn:C5.
  { exists ["Single Family"; "Condo"; "Townhouse"; "Multi Family"], [].
    split; [reflexivity|]. split; [now apply M|].
    intros b [<-|[<-|[<-|[<-|[]]]]]; now apply N. }
  intros c [<-|[<-|[<-|[<-|[<-|[]]]]]]; now apply N.
Qed.

(* ================================================================= *)
(** ** The first amount after a label *)

Lemma reach_refl (st : mstate) : reach st st.
Proof. exists EmptyString. split; [reflexivity | cbn; lia]. Qed.

Lemma reach_trans (a b c : mstate) : reach a b -> reach b c -> reach a c.
Proof.
  intros (x & E1 & P1) (y & E2 & P2). exists (x ++ y). split.
  - now rewrite E1, E2, append_assoc'.
  - rewrite append_length. lia.
Qed.

Lemma or_else_some {A : Type} (a b : option A) (x : A) :
  or_else a b = Some x -> a = Some x \/ b = Some x.
Proof. destruct a; cbn; intros H; [left|right]; exact H. Qed.

Lemma star_loop_reach (body : mstate -> (mstate -> option mstate) -> option mstate) :
  (forall st k out, body st k = Some out -> exists st1, reach st st1 /\ k st1 = Some out) ->
  forall fuel st k out,
    star_loop body k fuel st = Some out -> exists st1, reach st st1 /\ k st1 = Some out.
Proof.
  intros B. induction fuel as [|fuel IH]; intros st k out H; cbn [star_loop] in H.
  - exists st. split; [apply reach_refl | exact H].
  - apply or_else_some in H. destruct H as [H|H].
    + apply B in H. destruct H as (st1 & R1 & H).
      destruct (m_pos st <? m_pos st1)%nat; [|discriminate].
      apply IH in H. destruct H as (st2 & R2 & H).
      exists st2. split; [exact (reach_trans _ _ _ R1 R2) | exact H].
    + exists st. split; [apply reach_refl | exact H].
Qed.

Lemma rmatch_reach (r : regex) :
  forall st k out,
    rmatch r st k = Some out -> exists st1, reach st st1 /\ k st1 = Some out.
Proof.
  induction r as [p| |a IHa b IHb|a IHa b IHb|a IHa|n a IHa| ]; intros st k out H.
  - cbn [rmatch] in H. destruct (m_rest st) as [|c s'] eqn:E; [discriminate|].
    destruct (p c); [|discriminate].
    eexists. split; [|exact H]. exists (String c EmptyString).
    cbn [m_rest m_pos append String.length]. split; [exact E | lia].
  - exists st. split; [apply reach_refl | exact H].
  - cbn [rmatch] in H. apply IHa in H. destruct H as (st1 & R1 & H).
    apply IHb in H. destruct H as (st2 & R2 & H).
    exists st2. split; [exact (reach_trans _ _ _ R1 R2) | exact H].
  - cbn [rmatch] in H. apply or_else_some in H. destruct H as [H|H]; [now apply IHa | now apply IHb].
  - cbn [rmatch] in H. exact (star_loop_reach (rmatch a) IHa _ st k out H).
  - cbn [rmatch] in H. apply IHa in H. destruct H as (st1 & (x & E & P) & H).
    exists (set_cap n (m_pos st) st1). split; [|exact H].
    exists x. unfold set_cap. cbn [m_rest m_pos]. split; assumption.
  - cbn [rmatch] in H. destruct (at_word_boundary st); [|discriminate].
    exists st. split; [apply reach_refl | exact H].
Qed.

Lemma search_from_some (r : regex) (s : string) :
  forall prev pos m,
    search_from r prev s pos = Some m ->
    exists pre s' prev' out,
      s = pre ++ s' /\
      rmatch r (mkMstate prev' s' (pos + String.length pre) []) Some = Some out /\
      start_ m = (pos + String.length pre)%nat /\ end_ m = m_pos out /\ groups m = m_caps out.
Proof.
  induction s as [|c s IH]; intros prev pos m H; cbn [search_from] in H.
  - destruct (rmatch r _ Some) as [out|] eqn:E; [|discriminate]. injection H as <-.
    exists EmptyString, EmptyString, prev, out. cbn [append String.length start_ end_ groups].
    rewrite Nat.add_0_r. repeat split; try reflexivity. exact E.
  - destruct (rmatch r _ Some) as [out|] eqn:E.
    + injection H as <-. exists EmptyString, (String c s), prev, out.
      cbn [append String.length start_ end_ groups]. rewrite Nat.add_0_r.
      repeat split; try reflexivity. exact E.
    + apply IH in H. destruct H as (pre & s' & prev' & out & -> & R & St & En & G).
      exists (String c pre), s', prev', out. cbn [append String.length].
      replace (pos + S (String.length pre))%nat with (S pos + String.length pre)%nat by lia.
      repeat split; assumption.
Qed.

Lemma star_char_greedy (p : ascii -> bool) (k : mstate -> option mstate) (run rest : string)
  (out : mstate) :
  str_forall p run = true -> opt_is p (next_char rest) = false ->
  forall prev pos caps fuel,
    (String.length run <= fuel)%nat ->
    k (mkMstate (run_prev prev run) rest (pos + String.length run) caps) = Some out ->
    star_loop (rmatch (RChar p)) k fuel (mkMstate prev (run ++ rest) pos caps) = Some out.
Proof.
  intros A N. induction run as [|c run IH]; intros prev pos caps fuel L K.
  - rewrite (star_char_stop p k) by exact N.
    cbn [append String.length run_prev last_char] in K |- *. now rewrite Nat.add_0_r in K.
  - cbn [str_forall] in A. apply andb_true_iff in A. destruct A as [C A].
    destruct fuel as [|fuel]; [cbn in L; lia|]. cbn [String.length] in L.
    cbn [star_loop append]. rewrite rmatch_char, C. cbn [m_pos].
    replace (pos <? S pos)%nat with true by (symmetry; apply Nat.ltb_lt; lia).
    rewrite (IH A (Some c) (S pos) caps fuel); [reflexivity | lia |].
    rewrite run_prev_cons in K. cbn [String.length] in K.
    now rewrite Nat.add_succ_r in K.
Qed.

Lemma plus_char_greedy (p : ascii -> bool) (k : mstate -> option mstate) (c : ascii)
  (run rest : string) (out : mstate) :
  str_forall p (String c run) = true -> opt_is p (next_char rest) = false ->
  forall prev pos caps,
    k (mkMstate (run_prev prev (String c run)) rest
         (pos + String.length (String c run)) caps) = Some out ->
    rmatch (RPlus (RChar p)) (mkMstate prev (String c run ++ rest) pos caps) k = Some out.
Proof.
  intros A N prev pos caps K. cbn [str_forall] in A.
  apply andb_true_iff in A. destruct A as [C A].
  unfold RPlus. cbn [append]. rewrite rmatch_seq, rmatch_char, C, rmatch_star. cbn [m_rest].
  apply (star_char_greedy p k run rest out A N (Some c) (S pos) caps).
  - rewrite append_length. lia.
  - rewrite run_prev_cons in K. cbn [String.length] in K. now rewrite Nat.add_succ_r in K.
Qed.

Lemma fold_prefix_length (q s r : string) :
  fold_prefix q s = Some r -> exists u, s = u ++ r /\ String.length u = String.length q.
Proof.
  revert s. induction q as [|c q IH]; intros s H.
  - cbn in H. injection H as <-. now exists EmptyString.
  - destruct s as [|x s]; [discriminate|]. cbn [fold_prefix] in H.
    destruct (eq_nocase c x); [|discriminate]. apply IH in H.
    destruct H as (u & -> & L). exists (String x u). cbn. now rewrite L.
Qed.

Lemma label_here_digits (label s after : string) (prev : option ascii) (pos : nat) :
  fold_prefix label s = Some after ->
  forall d r, lstrip_by not_decimal after = String d r ->
    exists out junk number rest,
      after = junk ++ number ++ rest /\
      span_by is_amount_char (String d r) = (number, rest) /\
      rmatch (label_pattern label) (mkMstate prev s pos []) Some = Some out /\
      cap_lookup 2 (m_caps out)
      = Some ((pos + String.length label + String.length junk)%nat,
              (pos + String.length label + String.length junk + String.length number)%nat).
Proof.
  intros F d r L.
  destruct (lstrip_by_split not_decimal after) as (junk & E & J & N). rewrite L in E, N.
  cbn [next_char opt_is] in N. unfold not_decimal in N. apply negb_false_iff in N.
  destruct (span_by_spec is_amount_char (String d r)) as (E2 & A2 & N2).
  destruct (span_by is_amount_char (String d r)) as [number rest] eqn:Sp. cbn [fst snd] in *.
  assert (exists run, number = String d run) as (run & ->).
  { cbn [span_by] in Sp. unfold is_amount_char at 1 in Sp. rewrite N in Sp. cbn [orb] in Sp.
    destruct (span_by is_amount_char r) as [run rest']. injection Sp as <- <-. now exists run. }
  eexists. exists junk, (String d run), rest. split; [now rewrite E, E2|].
  split; [reflexivity|].
  unfold label_pattern. rewrite rmatch_seq, rmatch_literal, F. cbv beta iota.
  rewrite rmatch_seq, rmatch_star. cbn [m_rest]. rewrite E.
  split.
  - apply (star_char_greedy (fun c => negb (is_decimal c))); [exact J | | rewrite append_length; lia |].
    + cbn [next_char opt_is]. now rewrite N.
    + rewrite rmatch_group, rmatch_seq. cbn [m_pos]. unfold ROpt. rewrite rmatch_alt.
      rewrite rmatch_char.
      assert (Ascii.eqb "$" d = false) as ->.
      { destruct (Ascii.eqb "$" d) eqn:X; [|reflexivity]. apply Ascii.eqb_eq in X. subst d.
        discriminate N. }
      cbn [or_else]. change (rmatch REps ?st ?k) with (k st). cbv beta.
      rewrite rmatch_seq, rmatch_star. unfold space_class.
      rewrite star_char_stop.
      2:{ cbn [m_rest next_char opt_is]. now destruct (decimal_classes d N) as (_ & ? & _). }
      rewrite rmatch_group. cbn [m_pos]. rewrite E2.
      apply (plus_char_greedy (fun c => is_decimal c || Ascii.eqb c ",")); [exact A2 | exact N2 |].
      reflexivity.
  - unfold set_cap. cbn [m_caps m_pos cap_lookup Nat.eqb]. reflexivity.
Qed.

Lemma label_match_group (label s : string) (prev : option ascii) (pos : nat) (out : mstate) :
  rmatch (label_pattern label) (mkMstate prev s pos []) Some = Some out ->
  exists after x consumed y,
    fold_prefix label s = Some after /\ after = x ++ consumed ++ y /\
    cap_lookup 2 (m_caps out)
    = Some ((pos + String.length label + String.length x)%nat,
            (pos + String.length label + String.length x + String.length consumed)%nat).
Proof.
  unfold label_pattern. rewrite rmatch_seq, rmatch_literal.
  destruct (fold_prefix label s) as [after|]; [|discriminate]. cbv beta.
  rewrite rmatch_seq. intros H.
  apply rmatch_reach in H. destruct H as (st_b & (x1 & E1 & P1) & H).
  rewrite rmatch_group, rmatch_seq in H.
  apply rmatch_reach in H. destruct H as (st_c & (x2 & E2 & P2) & H).
  rewrite rmatch_seq in H.
  apply rmatch_reach in H. destruct H as (st_d & (x3 & E3 & P3) & H).
  rewrite rmatch_group in H.
  apply rmatch_reach in H. destruct H as (st_e & (x4 & E4 & P4) & H).
  injection H as <-. cbn [m_rest m_pos] in E1, P1.
  exists after, (x1 ++ x2 ++ x3), x4, (m_rest st_e). split; [reflexivity|]. split.
  - now rewrite E1, E2, E3, E4, !append_assoc'.
  - unfold set_cap. cbn [m_caps m_pos cap_lookup Nat.eqb]. f_equal.
    rewrite !append_length. f_equal; lia.
Qed.

Lemma label_here_none (label s : string) (prev : option ascii) (pos : nat) :
  fold_prefix label s = None ->
  rmatch (label_pattern label) (mkMstate prev s pos []) Some = None.
Proof. intros F. unfold label_pattern. now rewrite rmatch_seq, rmatch_literal, F. Qed.

Lemma search_label_none (label s : string) :
  after_label label s = None ->
  forall prev pos, search_from (label_pattern label) prev s pos = None.
Proof.
  induction s as [|c s IH]; cbn [after_label]; intros H prev pos;
    destruct (fold_prefix label _) eqn:F; try discriminate; cbn [search_from];
    rewrite (label_here_none _ _ _ _ F); [reflexivity | now apply IH].
Qed.

Lemma search_label_digits (label s : string) :
  forall rest d r,
    after_label label s = Some rest -> lstrip_by not_decimal rest = String d r ->
    forall prev pos,
      exists m pre number tail,
        s = pre ++ number ++ tail /\
        number = fst (span_by is_amount_char (String d r)) /\
        search_from (label_pattern label) prev s pos = Some m /\
        cap_lookup 2 (groups m)
        = Some ((pos + String.length pre)%nat,
                (pos + String.length pre + String.length number)%nat).
Proof.
  induction s as [|c s IH]; intros rest d r H L prev pos; cbn [after_label] in H;
    destruct (fold_prefix label _) as [after|] eqn:F.
  - injection H as ->.
    destruct (label_here_digits label EmptyString rest prev pos F d r L)
      as (out & junk & number & tail & E & Sp & R & C).
    destruct (fold_prefix_length _ _ _ F) as (u & Eu & Lu).
    exists (mkRematch pos (m_pos out) (m_caps out)), (u ++ junk), number, tail.
    cbn [search_from]. rewrite R, Sp. cbn [fst groups].
    split; [now rewrite Eu, E, append_assoc'|]. split; [reflexivity|]. split; [reflexivity|].
    rewrite C, append_length, Lu. f_equal. f_equal; lia.
  - discriminate.
  - injection H as ->.
    destruct (label_here_digits label (String c s) rest prev pos F d r L)
      as (out & junk & number & tail & E & Sp & R & C).
    destruct (fold_prefix_length _ _ _ F) as (u & Eu & Lu).
    exists (mkRematch pos (m_pos out) (m_caps out)), (u ++ junk), number, tail.
    cbn [search_from]. rewrite R, Sp. cbn [fst groups].
    split; [now rewrite Eu, E, append_assoc'|]. split; [reflexivity|]. split; [reflexivity|].
    rewrite C, append_length, Lu. f_equal. f_equal; lia.
  - destruct (IH rest d r H L (Some c) (S pos)) as (m & pre & number & tail & E & Nu & S & C).
    exists m, (String c pre), number, tail. cbn [search_from].
    rewrite (label_here_none _ _ _ _ F). cbn [append String.length].
    split; [now rewrite E|]. split; [exact Nu|]. split; [exact S|].
    rewrite C. f_equal. f_equal; lia.
Qed.

Lemma after_label_suffix (label s : string) :
  forall rest pre s' after,
    after_label label s = Some rest -> s = pre ++ s' -> fold_prefix label s' = Some after ->
    exists x, rest = x ++ after.
Proof.
  induction s as [|c s IH]; intros rest pre s' after H E F; cbn [after_label] in H.
  - destruct pre; [|discriminate]. cbn [append] in E. subst s'. rewrite F in H.
    injection H as <-. now exists EmptyString.
  - destruct (fold_prefix label (String c s)) as [r0|] eqn:F0.
    + injection H as <-.
      destruct (fold_prefix_length _ _ _ F0) as (u & Eu & Lu).
      destruct (fold_prefix_length _ _ _ F) as (u' & Eu' & Lu').
      rewrite Eu' in E. rewrite Eu in E.
      assert (String.length u <= String.length (pre ++ u'))%nat as Le
          by (rewrite append_length; lia).
      rewrite <- append_assoc' in E.
      destruct (append_split u (pre ++ u') r0 after E Le) as (m & _ & Em).
      now exists m.
    + destruct pre as [|x pre].
      * cbn [append] in E. subst s'. congruence.
      * cbn [append] in E. injection E as _ E. exact (IH rest pre s' after H E F).
Qed.

Lemma int_of_string_has_digit (t : string) (n : Z) :
  int_of_string t = Ok n -> str_filter is_decimal t <> EmptyString.
Proof.
  unfold int_of_string, strip_numeric.
  destruct (lstrip_by_split is_numeric_space t) as (l & El & _ & _).
  destruct (rstrip_by_split is_numeric_space (lstrip_by is_numeric_space t)) as (tl & Et & _ & _).
  set (body0 := rstrip_by is_numeric_space (lstrip_by is_numeric_space t)) in *.
  intros H.
  assert (exists sgn c b, body0 = sgn ++ String c b /\ is_decimal c = true) as (sgn & c & b & Eb & C).
  { unfold read_sign in H. destruct body0 as [|x body]; [discriminate H|].
    assert (forall s0, (let '(ds, rest) := read_digits s0 in
                        if negb (is_empty ds) && is_empty rest then Ok 0 else Raise ValueError)
                       = Ok 0 -> exists c b, s0 = String c b /\ is_decimal c = true) as RD.
    { intros s0. destruct s0 as [|c b]; [discriminate|]. cbn [read_digits].
      destruct (is_decimal c) eqn:C; [|discriminate]. intros _. now exists c, b. }
    assert (forall (neg : bool) s0,
               (let '(ds, rest) := read_digits s0 in
                if negb (is_empty ds) && is_empty rest
                then
                  if (String.length ds <=? int_max_str_digits)%nat
                  then Ok (if neg then - digits_value ds else digits_value ds)
                  else Raise ValueError
                else Raise ValueError) = Ok n ->
               exists c b, s0 = String c b /\ is_decimal c = true) as RD'.
    { intros neg s0 X. apply RD. destruct (read_digits s0) as [ds rest].
      destruct (negb (is_empty ds) && is_empty rest); [reflexivity | discriminate]. }
    destruct (Ascii.eqb x "-").
    - apply (RD' true) in H. destruct H as (c & b & -> & C).
      now exists (String x EmptyString), c, b.
    - destruct (Ascii.eqb x "+").
      + apply (RD' false) in H. destruct H as (c & b & -> & C).
        now exists (String x EmptyString), c, b.
      + apply (RD' false) in H. destruct H as (c & b & E & C). injection E as -> ->.
        now exists EmptyString, c, b. }
  rewrite El, Et, Eb, !str_filter_append. cbn [str_filter]. rewrite C.
  destruct (str_filter is_decimal l), (str_filter is_decimal sgn); discriminate.
Qed.

Lemma amount_filter (n : string) :
  str_forall is_amount_char n = true ->
  str_filter (fun c => negb (Ascii.eqb c ",")) n = str_filter is_decimal n.
Proof.
  assert (forall c, is_amount_char c = true -> negb (Ascii.eqb c ",") = is_decimal c) as F.
  { intros c H. apply Bool.eqb_prop. revert c H.
    apply (chars_implb is_amount_char
             (fun c => Bool.eqb (negb (Ascii.eqb c ",")) (is_decimal c))).
    vm_compute. reflexivity. }
  induction n as [|c n IH]; [reflexivity|]. cbn [str_forall str_filter]. intros A.
  apply andb_true_iff in A. destruct A as [C A]. now rewrite (F c C), (IH A).
Qed.

Lemma str_filter_nothing (p q : ascii -> bool) (s : string) :
  str_filter p s = EmptyString -> str_filter p (str_filter q s) = EmptyString.
Proof.
  induction s as [|c s IH]; [reflexivity|]. cbn [str_filter].
  destruct (p c) eqn:P; [discriminate|]. intros H.
  destruct (q c); cbn [str_filter]; [rewrite P|]; exact (IH H).
Qed.

(** X17. [_extract_first_int_after_label] finds the first occurrence of the
    label (letters compared without case) and reads the first run of digits
    and commas that starts at a digit after it: the result is the number
    written by the digits of that run, commas dropped.  It is [None] when the
    label does not occur or no digit follows its first occurrence.  The
    zestimate of a page parsed from HTML is this value for the label
    Zestimate, so a number that comes first (a street number, a rent
    estimate) is taken. *)
Theorem label_amount_is_first_digits :
  (forall text label : string,
      match after_label label text with
      | None => _extract_first_int_after_label text label = PNone
      | Some rest =>
          match first_amount rest with
          | None => _extract_first_int_after_label text label = PNone
          | Some digits =>
              digit_run digits /\
              ((String.length digits <= max_str_digits)%nat ->
               _extract_first_int_after_label text label = PInt (digits_value digits))
          end
      end) /\
  (forall (soup : Soup) (record : InputRecord) (url : string),
      zestimate (_parse_from_html soup record url)
      = _extract_first_int_after_label (page_text soup) "Zestimate") /\
  _extract_first_int_after_label "Zestimate: $1,234,567" "Zestimate" = PInt 1234567 /\
  _extract_first_int_after_label "Zestimate for 123 Main St: $500,000" "Zestimate" = PInt 123 /\
  _extract_first_int_after_label "Rent Zestimate: $2,100/mo Zestimate: $350,000" "Zestimate"
  = PInt 2100 /\
  _extract_first_int_after_label "zestimate unavailable, call us" "Zestimate" = PNone /\
  _extract_first_int_after_label "No estimate: $350,000" "Zestimate" = PNone.
Proof.
  split; [|split; [reflexivity | repeat split; reflexivity]].
  intros text label. unfold _extract_first_int_after_label, re_search.
  destruct (after_label label text) as [rest|] eqn:AL;
    [|now rewrite (search_label_none label text AL)].
  unfold first_amount.
  destruct (lstrip_by_split not_decimal rest) as (junk & Ej & J & N).
  destruct (lstrip_by not_decimal rest) as [|d r] eqn:L.
  - (* no digit after the label *)
    assert (str_filter is_decimal rest = EmptyString) as R.
    { rewrite Ej, append_empty_r.
      apply (str_filter_none is_decimal not_decimal); [|exact J].
      intros c H. unfold not_decimal in H. now apply negb_true_iff in H. }
    destruct (search_from (label_pattern label) None text 0) as [m|] eqn:S; [|reflexivity].
    apply search_from_some in S.
    destruct S as (pre & s' & prev' & out & Et & M & _ & _ & G).
    apply label_match_group in M.
    destruct M as (after & x & consumed & y & F & Ea & C).
    destruct (after_label_suffix label text rest pre s' after AL Et F) as (x0 & Er).
    destruct (fold_prefix_length _ _ _ F) as (u & Eu & Lu).
    assert (group text m 2 = consumed) as ->.
    { unfold group. rewrite G, C. cbn [Nat.add].
      replace (String.length pre + String.length label + String.length x
               + String.length consumed
               - (String.length pre + String.length label + String.length x))%nat
        with (String.length consumed) by lia.
      rewrite Et, Eu, Ea.
      replace (pre ++ u ++ x ++ consumed ++ y) with ((pre ++ u ++ x) ++ consumed ++ y)
        by (now rewrite !append_assoc').
      replace (String.length pre + String.length label + String.length x)%nat
        with (String.length (pre ++ u ++ x)) by (rewrite !append_length; lia).
      apply substring_append. }
    assert (str_filter is_decimal consumed = EmptyString) as Z.
    { rewrite Er, Ea, !str_filter_append in R.
      destruct (str_filter is_decimal x0); [|discriminate R]. cbn [append] in R.
      destruct (str_filter is_decimal x); [|discriminate R]. cbn [append] in R.
      destruct (str_filter is_decimal consumed); [reflexivity | discriminate R]. }
    destruct (int_of_string _) as [n|e] eqn:I; [|reflexivity].
    apply int_of_string_has_digit in I. exfalso. apply I.
    now apply str_filter_nothing.
  - (* the first digit after the label *)
    cbn [next_char opt_is] in N. unfold not_decimal in N. apply negb_false_iff in N.
    destruct (search_label_digits label text rest d r AL L None O)
      as (m & pre & number & tail & Et & En & S & C).
    destruct (span_by_spec is_amount_char (String d r)) as (_ & A & _).
    rewrite <- En in A.
    assert (exists run, number = String d run) as (run & Er).
    { rewrite En. cbn [span_by]. unfold is_amount_char at 1. rewrite N. cbn [orb].
      destruct (span_by is_amount_char r) as [run rest']. now exists run. }
    assert (digit_run (str_filter is_decimal number)) as DR.
    { split; [|apply str_filter_forall]. rewrite Er. cbn [str_filter]. now rewrite N. }
    rewrite <- En. split; [exact DR|]. intros Lim. rewrite S.
    assert (group text m 2 = number) as ->.
    { unfold group. rewrite C. cbn [Nat.add].
      replace (String.length pre + String.length number - String.length pre)%nat
        with (String.length number) by lia.
      rewrite Et. apply substring_append. }
    now rewrite (amount_filter number A), (int_of_string_digits _ DR Lim).
Qed.

(* ================================================================= *)
(** ** The identifier of a page *)

Lemma reach_step (prev : option ascii) (c : ascii) (s : string) (pos : nat)
  (caps : list (nat * (nat * nat))) :
  reach (mkMstate prev (String c s) pos caps) (mkMstate (Some c) s (S pos) caps).
Proof. exists (String c EmptyString). cbn. split; [reflexivity | lia]. Qed.

Lemma lit_step (q : string) (st : mstate) (r : string) :
  fold_prefix q (m_rest st) = Some r ->
  exists st', reach st st' /\ m_rest st' = r /\ m_caps st' = m_caps st /\
              forall k, rmatch (RLitI q) st k = k st'.
Proof.
  intros F. destruct st as [prev s pos caps]. cbn [m_rest] in F.
  destruct (fold_prefix_length _ _ _ F) as (u & E & L).
  exists (mkMstate (run_prev prev (String.substring 0 (String.length q) s)) r
            (pos + String.length q) caps).
  split; [exists u; cbn; split; [exact E | lia]|]. split; [reflexivity|]. split; [reflexivity|].
  intros k. now rewrite rmatch_literal, F.
Qed.

Lemma opt_step (p : ascii -> bool) (st : mstate) :
  exists st', reach st st' /\ m_rest st' = skip_opt p (m_rest st) /\
              m_caps st' = m_caps st /\
              forall k, needs_end p k -> rmatch (ROpt (RChar p)) st k = k st'.
Proof.
  destruct st as [prev s pos caps]. destruct s as [|c s].
  - eexists. split; [apply reach_refl|]. split; [reflexivity|]. split; [reflexivity|]. intros k _. reflexivity.
  - cbn [m_rest skip_opt]. destruct (p c) eqn:C.
    + exists (mkMstate (Some c) s (S pos) caps). split; [apply reach_step|].
      split; [reflexivity|]. split; [reflexivity|]. intros k K. unfold ROpt.
      rewrite rmatch_alt, rmatch_char, C.
      change (rmatch REps ?st ?k) with (k st).
      rewrite (K (mkMstate prev (String c s) pos caps)) by (cbn; exact C).
      apply or_else_none_r.
    + eexists. split; [apply reach_refl|]. split; [reflexivity|]. split; [reflexivity|]. intros k _. unfold ROpt.
      now rewrite rmatch_alt, rmatch_char, C.
Qed.

Lemma star_step (p : ascii -> bool) (st : mstate) :
  exists st', reach st st' /\ m_rest st' = lstrip_by p (m_rest st) /\
              m_caps st' = m_caps st /\
              forall k, needs_end p k -> rmatch (RStar (RChar p)) st k = k st'.
Proof.
  destruct st as [prev s pos caps]. cbn [m_rest m_caps].
  destruct (lstrip_by_split p s) as (run & E & A & N).
  exists (mkMstate (run_prev prev run) (lstrip_by p s) (pos + String.length run) caps).
  split; [exists run; cbn; split; [exact E | reflexivity]|]. split; [reflexivity|]. split; [reflexivity|].
  intros k K. rewrite rmatch_star. cbn [m_rest]. rewrite E at 1 2.
  apply (star_char_commit p k K run _ A N). rewrite append_length. lia.
Qed.

Lemma plus_group_final (p : ascii -> bool) (n : nat) (st : mstate) :
  match fst (span_by p (m_rest st)) with
  | EmptyString => rmatch (RGroup n (RPlus (RChar p))) st Some = None
  | run =>
      exists out,
        rmatch (RGroup n (RPlus (RChar p))) st Some = Some out /\
        m_caps out = (n, (m_pos st, (m_pos st + String.length run)%nat)) :: m_caps st
  end.
Proof.
  destruct st as [prev s pos caps]. cbn [m_rest m_pos m_caps].
  destruct (span_by_spec p s) as (E & A & N).
  destruct (span_by p s) as [run rest]. cbn [fst snd] in *. rewrite rmatch_group.
  destruct run as [|c run].
  - apply plus_char_fail. cbn [m_rest]. now rewrite E.
  - eexists. rewrite E. split.
    + apply (plus_char_greedy p _ c run rest _ A N). cbn [m_pos]. reflexivity.
    + reflexivity.
Qed.

Lemma char_blocked (p q : ascii -> bool) (st : mstate) (k : mstate -> option mstate) :
  (forall c, p c = true -> q c = false) ->
  opt_is p (next_char (m_rest st)) = true -> rmatch (RChar q) st k = None.
Proof.
  intros D N. destruct st as [prev s pos caps]. destruct s as [|c s]; [reflexivity|].
  rewrite rmatch_char. cbn in N. now rewrite (D c N).
Qed.

Lemma zpid_digits_need_end :
  needs_end is_quote (fun st => rmatch (RGroup 1 (RPlus digit_class)) st Some).
Proof.
  intros st N. unfold RPlus, digit_class. rewrite rmatch_group, rmatch_seq.
  apply (char_blocked is_quote); [|exact N].
  apply (chars_refute is_quote is_decimal). vm_compute. reflexivity.
Qed.

Lemma zpid_quote_needs_end :
  needs_end is_space
    (fun st => rmatch (RSeq (ROpt (RChar is_quote)) (RGroup 1 (RPlus digit_class))) st Some).
Proof.
  intros st N. unfold ROpt. rewrite rmatch_seq, rmatch_alt.
  rewrite (char_blocked is_space is_quote);
    [|apply (chars_refute is_space is_quote); vm_compute; reflexivity | exact N].
  change (rmatch REps ?st ?k) with (k st). cbv beta.
  unfold RPlus, digit_class. rewrite rmatch_group, rmatch_seq. cbn [or_else].
  apply (char_blocked is_space); [|exact N].
  apply (chars_refute is_space is_decimal). vm_compute. reflexivity.
Qed.

Lemma zpid_separator_needs_end (r : regex) :
  needs_end is_space (fun st => rmatch (RSeq (one_of ":=") r) st Some).
Proof.
  intros st N. unfold one_of. rewrite rmatch_seq.
  apply (char_blocked is_space); [|exact N].
  apply (chars_refute is_space
           (fun c => negb (str_forall (fun d => negb (Ascii.eqb c d)) ":="))).
  vm_compute. reflexivity.
Qed.

Lemma zpid_spaces_need_end (r : regex) :
  needs_end is_quote
    (fun st => rmatch (RSeq (RStar space_class) (RSeq (one_of ":=") r)) st Some).
Proof.
  intros st N. unfold space_class. rewrite rmatch_seq.
  destruct (star_step is_space st) as (st' & _ & M & _ & E).
  rewrite (E _ (zpid_separator_needs_end r)).
  assert (lstrip_by is_space (m_rest st) = m_rest st) as L.
  { destruct (m_rest st) as [|c s]; [reflexivity|]. cbn in N. cbn [lstrip_by].
    now rewrite (chars_refute is_quote is_space eq_refl c N). }
  unfold one_of. rewrite rmatch_seq.
  apply (char_blocked is_quote); [|now rewrite M, L].
  apply (chars_refute is_quote
           (fun c => negb (str_forall (fun d => negb (Ascii.eqb c d)) ":="))).
  vm_compute. reflexivity.
Qed.

Lemma engine_zpid_here (prev : option ascii) (s : string) (pos : nat) :
  match zpid_here s with
  | Some digits =>
      exists out pre tail,
        s = pre ++ digits ++ tail /\
        rmatch zpid_pattern (mkMstate prev s pos []) Some = Some out /\
        cap_lookup 1 (m_caps out)
        = Some ((pos + String.length pre)%nat,
                (pos + String.length pre + String.length digits)%nat)
  | None => rmatch zpid_pattern (mkMstate prev s pos []) Some = None
  end.
Proof.
  unfold zpid_here, zpid_pattern. rewrite rmatch_seq.
  destruct (fold_prefix "zpid" s) as [r|] eqn:F; [|now rewrite rmatch_literal, F].
  destruct (lit_step "zpid" (mkMstate prev s pos []) r F) as (st1 & R1 & M1 & C1 & E1).
  rewrite E1. clear E1.
  destruct (opt_step is_quote st1) as (st2 & R2 & M2 & C2 & E2).
  rewrite rmatch_seq.
  change (fun c : ascii => (code c =? 34)%N || (code c =? 39)%N) with is_quote.
  rewrite (E2 _ (zpid_spaces_need_end _)). clear E2.
  destruct (star_step is_space st2) as (st3 & R3 & M3 & C3 & E3).
  unfold space_class. rewrite rmatch_seq.
  rewrite (E3 _ (zpid_separator_needs_end _)). clear E3.
  rewrite M1 in M2. rewrite M2 in M3. rewrite <- M3.
  pose proof (reach_trans _ _ _ (reach_trans _ _ _ R1 R2) R3) as R03.
  clear R1 R2 R3 M1 M2 M3 F.
  destruct st3 as [p3 s3 pos3 caps3]. cbn [m_rest m_caps] in *.
  destruct s3 as [|c r']; [reflexivity|].
  unfold one_of. rewrite rmatch_seq, rmatch_char.
  replace (negb (str_forall (fun d => negb (Ascii.eqb c d)) ":="))
    with (Ascii.eqb c ":" || Ascii.eqb c "=")
    by (cbn [str_forall]; destruct (Ascii.eqb c ":"), (Ascii.eqb c "="); reflexivity).
  destruct (Ascii.eqb c ":" || Ascii.eqb c "="); [|reflexivity].
  pose proof (reach_trans _ _ _ R03 (reach_step p3 c r' pos3 caps3)) as R04.
  destruct (star_step is_space (mkMstate (Some c) r' (S pos3) caps3))
    as (st5 & R5 & M5 & C5 & E5).
  unfold space_class. rewrite rmatch_seq.
  rewrite (E5 _ zpid_quote_needs_end). clear E5.
  destruct (opt_step is_quote st5) as (st6 & R6 & M6 & C6 & E6).
  rewrite rmatch_seq. rewrite (E6 _ zpid_digits_need_end). clear E6.
  cbn [m_rest m_caps] in M5, C5. rewrite M5 in M6. rewrite <- M6.
  pose proof (reach_trans _ _ _ (reach_trans _ _ _ R04 R5) R6) as R06.
  pose proof (plus_group_final is_decimal 1 st6) as G.
  destruct (span_by_spec is_decimal (m_rest st6)) as (E & _ & _).
  unfold digit_class.
  destruct (fst (span_by is_decimal (m_rest st6))) as [|d run]; [exact G|].
  cbn [is_empty]. destruct G as (out & G & Caps).
  destruct R06 as (pre & Es & Ep). cbn [m_rest m_pos] in Es, Ep.
  exists out, pre, (snd (span_by is_decimal (m_rest st6))).
  split; [now rewrite Es, E at 1|]. split; [exact G|].
  rewrite Caps, Ep. reflexivity.
Qed.

Lemma search_from_first_zpid (s : string) :
  forall prev pos,
    match first_zpid s with
    | Some digits =>
        exists m pre tail,
          s = pre ++ digits ++ tail /\
          search_from zpid_pattern prev s pos = Some m /\
          cap_lookup 1 (groups m)
          = Some ((pos + String.length pre)%nat,
                  (pos + String.length pre + String.length digits)%nat)
    | None => search_from zpid_pattern prev s pos = None
    end.
Proof.
  assert (forall s prev pos digits,
             zpid_here s = Some digits ->
             exists m pre tail,
               s = pre ++ digits ++ tail /\
               search_from zpid_pattern prev s pos = Some m /\
               cap_lookup 1 (groups m)
               = Some ((pos + String.length pre)%nat,
                       (pos + String.length pre + String.length digits)%nat)) as Here.
  { intros t prev pos digits H. pose proof (engine_zpid_here prev t pos) as G.
    rewrite H in G. destruct G as (out & pre & tail & E & M & C).
    eexists. exists pre, tail. split; [exact E|].
    split; [destruct t; cbn [search_from]; rewrite M; reflexivity | exact C]. }
  induction s as [|c s IH]; intros prev pos.
  - cbn [first_zpid]. destruct (zpid_here EmptyString) as [digits|] eqn:H.
    + now apply Here.
    + pose proof (engine_zpid_here prev EmptyString pos) as G. rewrite H in G.
      cbn [search_from]. now rewrite G.
  - cbn [first_zpid]. destruct (zpid_here (String c s)) as [digits|] eqn:H.
    + now apply Here.
    + pose proof (engine_zpid_here prev (String c s) pos) as G. rewrite H in G.
      cbn [search_from]. rewrite G. specialize (IH (Some c) (S pos)).
      destruct (first_zpid s) as [digits|]; [|exact IH].
      destruct IH as (m & pre & tail & E & S & C).
      exists m, (String c pre), tail. split; [cbn; now rewrite <- E|].
      split; [exact S|]. rewrite C. cbn [String.length]. f_equal. f_equal; lia.
Qed.

Lemma zpid_here_digits (s digits : string) :
  zpid_here s = Some digits -> digit_run digits.
Proof.
  unfold zpid_here. destruct (fold_prefix "zpid" s) as [r|]; [|discriminate].
  destruct (lstrip_by is_space (skip_opt is_quote r)) as [|c r']; [discriminate|].
  destruct (Ascii.eqb c ":" || Ascii.eqb c "="); [|discriminate].
  destruct (span_by_spec is_decimal (skip_opt is_quote (lstrip_by is_space r')))
    as (_ & A & _).
  destruct (fst (span_by is_decimal (skip_opt is_quote (lstrip_by is_space r'))))
    as [|d run]; [discriminate|].
  cbn [is_empty]. intros H. injection H as <-. split; [discriminate | exact A].
Qed.

Lemma first_zpid_digits (s digits : string) :
  first_zpid s = Some digits -> digit_run digits.
Proof.
  induction s as [|c s IH]; cbn [first_zpid].
  - destruct (zpid_here EmptyString) eqn:H; [|discriminate].
    intros E. injection E as <-. exact (zpid_here_digits _ _ H).
  - destruct (zpid_here (String c s)) eqn:H.
    + intros E. injection E as <-. exact (zpid_here_digits _ _ H).
    + exact IH.
Qed.

(** X18. The zpid of a record parsed from HTML is the run of digits of the
    first place in the page text where the marker zpid (in any letter case)
    is followed by an optional quote, optional white space, a colon or an
    equals sign, optional white space, an optional quote and at least one
    digit; it is the empty string when the text has no such place.  A
    marker that is not followed by a separator and digits is passed over,
    and the zpid, when not empty, is a run of decimal digits of the text. *)
Theorem html_zpid_is_first_marked_digits :
  (forall (soup : Soup) (record : InputRecord) (url : string),
      zpid (_parse_from_html soup record url)
      = match first_zpid (page_text soup) with
        | Some digits => digits
        | None => EmptyString
        end) /\
  (forall text digits : string,
      first_zpid text = Some digits -> digit_run digits /\ occurs digits text) /\
  first_zpid "Listing ZPID = 4455, formerly zpid: 12" = Some "4455" /\
  first_zpid "zpid 123 and zpid:'77'" = Some "77" /\
  first_zpid "zpid: #12" = None /\
  first_zpid "see zpid_4455" = None.
Proof.
  split; [|split; [|repeat split; reflexivity]].
  - intros soup record url. unfold _parse_from_html. cbn [zpid]. unfold re_search.
    pose proof (search_from_first_zpid (page_text soup) None O) as H.
    destruct (first_zpid (page_text soup)) as [digits|]; [|now rewrite H].
    destruct H as (m & pre & tail & E & S & C). rewrite S. unfold group. rewrite C.
    cbn [Nat.add].
    replace (String.length pre + String.length digits - String.length pre)%nat
      with (String.length digits) by lia.
    rewrite E at 1. apply substring_append.
  - intros text digits H. split; [exact (first_zpid_digits _ _ H)|].
    pose proof (search_from_first_zpid text None O) as G. rewrite H in G.
    destruct G as (_ & pre & tail & E & _). now exists pre, tail.
Qed.

(* ================================================================= *)
(** ** The address of a page *)

Lemma rep_char_inv (p : ascii -> bool) (n : nat) :
  forall st k out,
    rmatch (RRep n (RChar p)) st k = Some out ->
    exists code st',
      m_rest st = code ++ m_rest st' /\ String.length code = n /\
      str_forall p code = true /\ m_pos st' = (m_pos st + n)%nat /\ k st' = Some out.
Proof.
  induction n as [|n IH]; intros st k out H.
  - exists EmptyString, st. cbn. repeat split; [lia | exact H].
  - cbn [RRep] in H. rewrite rmatch_seq in H. destruct st as [prev s pos caps].
    destruct s as [|c s]; [discriminate|]. rewrite rmatch_char in H.
    destruct (p c) eqn:C; [|discriminate].
    destruct (IH _ _ _ H) as (code & st' & E & L & A & P & K).
    exists (String c code), st'. cbn [m_rest m_pos] in *.
    split; [cbn; now rewrite E|]. split; [cbn; now rewrite L|].
    split; [cbn; now rewrite C|]. split; [lia | exact K].
Qed.

Lemma rep_char_total (p : ascii -> bool) (k : mstate -> option mstate) (code rest : string) :
  str_forall p code = true -> (forall st, k st <> None) ->
  forall prev pos caps,
    rmatch (RRep (String.length code) (RChar p)) (mkMstate prev (code ++ rest) pos caps) k
    <> None.
Proof.
  intros A K. induction code as [|c code IH]; intros prev pos caps.
  - apply K.
  - cbn [str_forall] in A. apply andb_true_iff in A. destruct A as [C A].
    cbn [String.length RRep append]. rewrite rmatch_seq, rmatch_char, C. apply (IH A).
Qed.

Lemma opt_total (a : regex) (k : mstate -> option mstate) :
  (forall st, k st <> None) -> forall st, rmatch (ROpt a) st k <> None.
Proof.
  intros K st. unfold ROpt. rewrite rmatch_alt.
  destruct (rmatch a st k); [discriminate|]. apply K.
Qed.

Lemma star_total (a : regex) (k : mstate -> option mstate) :
  (forall st, k st <> None) -> forall st, rmatch (RStar a) st k <> None.
Proof.
  intros K st. rewrite rmatch_star. destruct (String.length (m_rest st)); cbn [star_loop].
  - apply K.
  - destruct (rmatch a st _); [discriminate|]. apply K.
Qed.

Lemma search_postal_complete (pre code post : string) :
  String.length code = 5%nat -> str_forall is_decimal code = true ->
  forall prev pos, search_from postal_code_pattern prev (pre ++ code ++ post) pos <> None.
Proof.
  intros L A.
  assert (forall prev pos,
             rmatch postal_code_pattern (mkMstate prev (code ++ post) pos []) Some <> None)
    as Here.
  { intros prev pos. unfold postal_code_pattern. rewrite rmatch_seq, <- L.
    apply (rep_char_total is_decimal _ code post A). intros st. rewrite rmatch_seq.
    apply opt_total. intros st1. rewrite rmatch_seq. apply star_total.
    intros st2. apply opt_total. discriminate. }
  induction pre as [|c pre IH]; intros prev pos.
  - cbn [append]. specialize (Here prev pos).
    destruct (code ++ post); cbn [search_from];
      destruct (rmatch postal_code_pattern _ Some); try discriminate; now elim Here.
  - cbn [append search_from].
    destruct (rmatch postal_code_pattern _ Some); [discriminate | apply IH].
Qed.

Lemma search_postal_sound (text : string) (m : rematch) :
  re_search postal_code_pattern text = Some m ->
  exists pre code more post,
    text = pre ++ (code ++ more) ++ post /\
    String.length code = 5%nat /\ str_forall is_decimal code = true /\
    start_ m = String.length pre /\
    end_ m = (String.length pre + String.length (code ++ more))%nat.
Proof.
  intros H. apply search_from_some in H.
  destruct H as (pre & s' & prev' & out & E & M & St & En & _).
  unfold postal_code_pattern in M. rewrite rmatch_seq in M.
  apply rep_char_inv in M. destruct M as (code & st' & Ec & L & A & P & K).
  apply rmatch_reach in K. destruct K as (st1 & (more & Em & Pm) & K1).
  injection K1 as ->. cbn [m_rest m_pos] in Ec, P.
  exists pre, code, more, (m_rest out).
  split; [now rewrite E, Ec, Em, !append_assoc'|]. split; [exact L|]. split; [exact A|].
  split; [exact St|]. rewrite En, Pm, P, append_length, L. lia.
Qed.

Lemma split_at (n : nat) (s : string) :
  (n <= String.length s)%nat -> exists a b, s = a ++ b /\ String.length a = n.
Proof.
  revert s. induction n as [|n IH]; intros s L.
  - now exists EmptyString, s.
  - destruct s as [|c s]; [cbn in L; lia|]. cbn in L.
    destruct (IH s ltac:(lia)) as (a & b & -> & La).
    exists (String c a), b. split; [reflexivity | cbn; now rewrite La].
Qed.

Lemma lstrip_keeps (p : ascii -> bool) (w : string) (d : ascii) (r : string) :
  p d = false ->
  exists l x, w = l ++ x /\ lstrip_by p (w ++ String d r) = x ++ String d r.
Proof.
  intros D. induction w as [|c w (l & x & E & IH)].
  - exists EmptyString, EmptyString. split; [reflexivity|]. cbn. now rewrite D.
  - cbn [append lstrip_by]. destruct (p c).
    + exists (String c l), x. split; [cbn; now rewrite E | exact IH].
    + now exists EmptyString, (String c w).
Qed.

Lemma rstrip_keeps (p : ascii -> bool) (u : string) (d : ascii) (t : string) :
  p d = false ->
  exists y r, t = y ++ r /\ rstrip_by p (u ++ String d t) = u ++ String d y.
Proof.
  intros D. destruct (rstrip_by_split p t) as (r & E & _ & _).
  exists (rstrip_by p t), r. split; [exact E|].
  induction u as [|c u IH].
  - cbn [append rstrip_by]. now rewrite D.
  - cbn [append rstrip_by]. rewrite IH.
    replace (is_empty (u ++ String d (rstrip_by p t))) with false by (now destruct u).
    now rewrite andb_false_r.
Qed.

Lemma snippet_around_code (p1 p2 code more post : string) :
  String.length code = 5%nat -> str_forall is_decimal code = true ->
  (String.length p2 <= 80)%nat ->
  postal_snippet (p1 ++ (p2 ++ code ++ more) ++ post) (strip (p2 ++ code ++ more)).
Proof.
  intros L A B.
  assert (forall c, is_decimal c = true -> is_space c = false) as NS
      by (apply (chars_refute is_decimal is_space); vm_compute; reflexivity).
  destruct code as [|d1 [|d2 [|d3 [|d4 [|d5 [|d6 code]]]]]]; try discriminate L.
  cbn [str_forall] in A. rewrite !andb_true_iff in A.
  destruct A as (A1 & A2 & A3 & A4 & A5 & _).
  destruct (lstrip_keeps is_space p2 d1
              (String d2 (String d3 (String d4 (String d5 more)))) (NS d1 A1))
    as (l & x & E1 & E2).
  destruct (rstrip_keeps is_space
              (x ++ String d1 (String d2 (String d3 (String d4 EmptyString)))) d5 more
              (NS d5 A5)) as (y & r & E3 & E4).
  rewrite !append_assoc' in E4. cbn [append] in E4.
  exists x, (String d1 (String d2 (String d3 (String d4 (String d5 EmptyString))))), y.
  assert (strip (p2 ++ String d1 (String d2 (String d3 (String d4 (String d5 EmptyString))))
                 ++ more)
          = x ++ String d1 (String d2 (String d3 (String d4 (String d5 EmptyString)))) ++ y)
    as S.
  { unfold strip. cbn [append]. rewrite E2. cbn [append] in E4 |- *. exact E4. }
  split; [exact S|]. split; [reflexivity|].
  split; [cbn [str_forall]; now rewrite A1, A2, A3, A4, A5|].
  split; [rewrite E1, append_length in B; lia|].
  split.
  - exists (p1 ++ l), (r ++ post). rewrite S, E1, E3. cbn [append].
    rewrite !append_assoc'. cbn [append]. now rewrite !append_assoc'.
  - apply strip_idempotent.
Qed.

Lemma extract_postal (text : string) :
  match re_search postal_code_pattern text with
  | Some m =>
      postal_snippet text
        (strip (String.substring (start_ m - 80) (end_ m - (start_ m - 80)) text))
  | None => ~ has_postal_code text
  end.
Proof.
  destruct (re_search postal_code_pattern text) as [m|] eqn:S.
  - destruct (search_postal_sound text m S) as (pre & code & more & post & E & L & A & St & En).
    destruct (split_at (String.length pre - 80) pre ltac:(lia)) as (p1 & p2 & Ep & L1).
    assert (String.length p2 = String.length pre - (String.length pre - 80))%nat as L2
        by (rewrite Ep, append_length in *; lia).
    assert (String.substring (start_ m - 80) (end_ m - (start_ m - 80)) text
            = p2 ++ code ++ more) as ->.
    { rewrite St, En, <- L1.
      replace (String.length pre + String.length (code ++ more) - String.length p1)%nat
        with (String.length (p2 ++ code ++ more))
        by (rewrite Ep, !append_length in *; lia).
      rewrite E, Ep, !append_assoc'.
      replace (p1 ++ p2 ++ code ++ more ++ post) with (p1 ++ (p2 ++ code ++ more) ++ post)
        by (now rewrite !append_assoc').
      apply substring_append. }
    rewrite E, Ep.
    replace ((p1 ++ p2) ++ (code ++ more) ++ post) with (p1 ++ (p2 ++ code ++ more) ++ post)
      by (now rewrite !append_assoc').
    apply snippet_around_code; [exact L | exact A | lia].
  - intros (pre & code & post & E & L & A). unfold re_search in S.
    rewrite E in S. exact (search_postal_complete pre code post L A None O S).
Qed.

Lemma postal_snippet_not_empty (text a : string) : postal_snippet text a -> a <> EmptyString.
Proof.
  intros (x & code & y & E & L & _) H. rewrite H in E.
  apply (f_equal String.length) in E. rewrite !append_length, L in E. cbn in E. lia.
Qed.

Lemma postal_snippet_has_code (text a : string) :
  postal_snippet text a -> has_postal_code text.
Proof.
  intros (x & code & y & E & L & A & _ & (pre & post & Et) & _).
  exists (pre ++ x), code, (y ++ post). split; [|split; assumption].
  now rewrite Et, E, !append_assoc'.
Qed.

(** X19. The address of a record parsed from HTML is the content of the
    og:title element when that is not empty, else the text of the first
    heading when that is not empty, else, when the page text has five
    digits in a row, a piece of the text that holds five digits in a row
    with at most 80 characters before them and no white space at either
    end, else the value of the input record.  So the address is empty only
    when that value is. *)
Theorem html_address_by_priority :
  (forall (soup : Soup) (record : InputRecord) (url : string),
      exists a,
        address (_parse_from_html soup record url) = PStr a /\
        (og_title soup <> EmptyString -> a = og_title soup) /\
        (og_title soup = EmptyString -> heading soup <> EmptyString -> a = heading soup) /\
        (og_title soup = EmptyString -> heading soup = EmptyString ->
         has_postal_code (page_text soup) -> postal_snippet (page_text soup) a) /\
        (og_title soup = EmptyString -> heading soup = EmptyString ->
         ~ has_postal_code (page_text soup) -> a = value record) /\
        (value record <> EmptyString -> a <> EmptyString)) /\
  (forall (record : InputRecord) (url : string),
      address (_parse_from_html springfield_page record url)
      = PStr "Call 555 today: 12 Oak St, Springfield, IL 62704 USA").
Proof.
  split; [|reflexivity].
  intros soup record url. unfold _parse_from_html, _extract_address_from_html.
  cbn [address]. unfold og_title, heading.
  pose proof (extract_postal (page_text soup)) as P.
  assert (forall s : string, s <> EmptyString -> is_empty s = false) as NE
      by (intros [|c s] H; [now elim H | reflexivity]).
  set (from_postal :=
         match re_search postal_code_pattern (page_text soup) with
         | Some m =>
             Some (strip (String.substring (start_ m - 80) (end_ m - (start_ m - 80))
                            (page_text soup)))
         | None => None
         end).
  assert (exists a,
             PStr match from_postal with
                  | Some a => if negb (is_empty a) then a else value record
                  | None => value record
                  end = PStr a /\
             (has_postal_code (page_text soup) -> postal_snippet (page_text soup) a) /\
             (~ has_postal_code (page_text soup) -> a = value record) /\
             (value record <> EmptyString -> a <> EmptyString)) as Postal.
  { subst from_postal. destruct (re_search postal_code_pattern (page_text soup)) as [m|].
    - pose proof (postal_snippet_not_empty _ _ P) as N. rewrite (NE _ N). cbn [negb].
      eexists. split; [reflexivity|]. split; [intros _; exact P|].
      split; [intros H; elim H; exact (postal_snippet_has_code _ _ P) | intros _; exact N].
    - eexists. split; [reflexivity|]. split; [intros H; now elim P|].
      split; [reflexivity | intros H; exact H]. }
  destruct Postal as (a & Ea & Pa & Pb & Pc).
  destruct (og_title_content soup) as [[[|c0 content]|]|]; cbn [is_empty negb].
  2: { eexists. split; [reflexivity|]. split; [reflexivity|].
       split; [intros H; discriminate H|]. split; [intros H; discriminate H|].
       split; [intros H; discriminate H | intros _; discriminate]. }
  all: destruct (h1_text soup) as [[|h0 h]|]; cbn [is_empty negb].
  all: try (exists a; split; [exact Ea|]; split; [intros H; now elim H|];
            split; [intros _ H; now elim H|]; split; [intros _ _; exact Pa|];
            split; [intros _ _; exact Pb | exact Pc]).
  all: eexists; (split; [reflexivity|]); (split; [intros H; now elim H|]);
    (split; [reflexivity|]); (split; [intros _ H; discriminate H|]);
    (split; [intros _ H; discriminate H | intros _; discriminate]).
Qed.

(* ================================================================= *)
(** ** Settings and input values of src/runner.py *)

Lemma dict_set_keys_grow (k : string) (v : pyval) (d : pydict) :
  exists extra, map fst (dict_set k v d) = (map fst d ++ extra)%list.
Proof.
  induction d as [|[k' v'] d (extra & IH)]; cbn [dict_set].
  - now exists [k].
  - destruct (String.eqb k k') eqn:E.
    + apply String.eqb_eq in E. subst k'. exists []. cbn [map fst]. now rewrite app_nil_r.
    + exists extra. cbn [map fst]. now rewrite IH.
Qed.

Lemma dict_update_keys_grow (other d : pydict) :
  exists extra, map fst (dict_update d other) = (map fst d ++ extra)%list.
Proof.
  unfold dict_update. revert d. induction other as [|[k v] other IH]; intros d.
  - exists []. cbn. now rewrite app_nil_r.
  - cbn [fold_left fst snd]. destruct (IH (dict_set k v d)) as (extra & E).
    destruct (dict_set_keys_grow k v d) as (extra0 & E0).
    exists (extra0 ++ extra)%list. now rewrite E, E0, app_assoc.
Qed.

Lemma lookup_absent (k : string) (d : pydict) : ~ In k (map fst d) -> lookup k d = None.
Proof.
  induction d as [|[k' v'] d IH]; [reflexivity|]. cbn [map fst In lookup]. intros N.
  destruct (String.eqb k k') eqn:E.
  - apply String.eqb_eq in E. elim N. now left.
  - apply IH. intros H. apply N. now right.
Qed.

Lemma lookup_dict_update (other d : pydict) (k : string) :
  NoDup (map fst other) ->
  lookup k (dict_update d other)
  = match lookup k other with
    | Some v => Some v
    | None => lookup k d
    end.
Proof.
  unfold dict_update. revert d. induction other as [|[k0 v0] other IH]; intros d U.
  - reflexivity.
  - cbn [map fst] in U. inversion U as [|? ? N U']. subst.
    cbn [fold_left fst snd lookup]. rewrite (IH _ U').
    destruct (String.eqb k k0) eqn:E.
    + apply String.eqb_eq in E. subst k0.
      now rewrite (lookup_absent _ _ N), lookup_dict_set_same.
    + now rewrite (lookup_dict_set_other k0 k v0 d E).
Qed.


(** X20. [load_settings] always returns the five default settings, in
    their order, possibly followed by other keys of the file.  When the
    file is missing, cannot be read or decoded, or does not hold a JSON
    object, the result is the defaults exactly; when it holds an object,
    every key of the object has the value of the file and every other key
    its default. *)
Theorem load_settings_merges_over_defaults :
  forall (default_input_file default_output_file : string),
    let load := load_settings default_input_file default_output_file in
    let defaults :=
      [("base_url", PStr "https://www.zillow.com");
       ("input_file", PStr default_input_file);
       ("output_file", PStr default_output_file);
       ("output_format", PStr "json");
       ("rate_limit_per_second", PFloat (S754_finite false 4503599627370496 (-51)))] in
    (forall file, exists extra, map fst (fst (load file)) = (default_keys ++ extra)%list) /\
    (forall file,
        (forall entries, file <> Some (Ok (PDict entries))) -> fst (load file) = defaults) /\
    (forall entries k,
        NoDup (map fst entries) ->
        lookup k (fst (load (Some (Ok (PDict entries)))))
        = match lookup k entries with
          | Some v => Some v
          | None => lookup k defaults
          end) /\
    load (Some (Ok (PList []))) = (defaults, [LogSettingsFailed ValueError]) /\
    load (Some (Ok (PDict []))) = (defaults, []).
Proof.
  intros din dout load defaults.
  split; [|split; [|split; [|split; reflexivity]]].
  - intros file. unfold load, load_settings.
    destruct file as [[v|e]|]; cbn [bind fst]; try (now exists []).
    destruct v; cbn [fst]; try (now exists []).
    apply (dict_update_keys_grow entries).
  - intros file N. unfold load, load_settings.
    destruct file as [[v|e]|]; cbn [bind fst]; try reflexivity.
    destruct v; cbn [fst]; try reflexivity. now elim (N entries).
  - intros entries k U. unfold load, load_settings. cbn [bind fst].
    apply (lookup_dict_update entries _ k U).
Qed.

Lemma load_settings_merges_over_defaults_witness :
  NoDup (map fst [("base_url", PStr "http://localhost"); ("proxy", PNone)]) /\
  lookup "proxy"
    (fst (load_settings "in.txt" "out.json"
            (Some (Ok (PDict [("base_url", PStr "http://localhost"); ("proxy", PNone)])))))
  = Some PNone.
Proof.
  assert (NoDup (map fst [("base_url", PStr "http://localhost"); ("proxy", PNone)])) as U.
  { cbn. repeat constructor; cbn; intuition discriminate. }
  split; [exact U|].
  exact (proj1 (proj2 (proj2 (load_settings_merges_over_defaults "in.txt" "out.json")))
           _ "proxy" U).
Defined.


Lemma read_values_spec (lines : list string) :
  read_values lines = filter kept_line (map strip lines).
Proof.
  induction lines as [|line rest IH]; [reflexivity|].
  cbn [read_values map filter]. unfold kept_line at 1. rewrite IH.
  destruct (is_empty (strip line)); [reflexivity|].
  now destruct (startswith "#" (strip line)).
Qed.

(** X22. [read_input_values] of src/runner.py keeps the same lines as
    [load_inputs_from_file]: on a file that exists it returns, in order,
    the raw texts of the records that the loader builds from the same
    lines.  Every value it returns is trimmed, not empty, no comment, and
    is accepted by [classify_input]; a missing file raises
    FileNotFoundError. *)
Theorem read_input_values_agrees_with_loader :
  (forall (path : string) (lines : list string),
      exists values records log,
        read_input_values path (Some lines) = Ok values /\
        load_inputs_from_file path (Some lines) = Ok (records, log) /\
        values = map raw records /\
        Forall (fun v => strip v = v /\ v <> EmptyString /\ startswith "#" v = false /\
                         exists record, classify_input v = Ok record /\ raw record = v)
          values) /\
  (forall path : string,
      read_input_values path (Some example_lines)
      = Ok ["1234 Example St"; "https://example.com/listing/99"]) /\
  (forall path : string,
      read_input_values path None
      = Raise (FileNotFoundError ("Input file not found: " ++ path))).
Proof.
  split; [|split; reflexivity].
  intros path lines. destruct (load_lines_spec lines 1) as (records & E & M & C).
  exists (read_values lines), records, [LogLoaded (List.length records)].
  split; [reflexivity|]. split; [unfold load_inputs_from_file; now rewrite E|].
  rewrite read_values_spec. split; [now rewrite M|].
  apply Forall_forall. intros v H. apply filter_In in H. destruct H as [H K].
  apply in_map_iff in H. destruct H as (line & <- & _).
  unfold kept_line in K. apply andb_true_iff in K. destruct K as [K1 K2].
  apply negb_true_iff in K1, K2.
  split; [apply strip_idempotent|]. split; [intros Z; now rewrite Z in K1|].
  split; [exact K2|].
  destruct (classify_trimmed line K1) as (k & Ck). eexists. split; [exact Ck | reflexivity].
Qed.

